(** * healthy-lunch-emailer: the nutrition ranking pipeline of [main.py]

    A shallow embedding of the functions [_num], [normalize_item],
    [allowed], [score], [get_healthy_meals] and the ranking expression of
    [main], followed by the properties of the pipeline.

    Python values decoded from JSON are an inductive type, a Python
    call either returns or raises in a result type, and Python floats are
    the binary64 floats of [PrimFloat]. *)

From Stdlib Require Import List String Ascii ZArith Bool Lia Permutation Sorted.
From Stdlib Require Import Floats.
From Stdlib Require Import DecimalString.
Import ListNotations.

Local Open Scope string_scope.
Local Open Scope list_scope.

Set Warnings "-register-all".

(** ** Exceptions and results *)

Module Py.

(** The exception classes the pipeline can meet.  All of them derive from
    Python's [Exception].  [RequestError] stands for whatever
    [fetch_item_nutrition] raises: a connection error, a timeout, the
    [HTTPError] of [raise_for_status] or a JSON decoding error. *)
Inductive exn : Type :=
| KeyError
| TypeError
| AttributeError
| ValueError
| OverflowError
| ZeroDivisionError
| RuntimeError
| RequestError.

(** A computation either returns a value or raises. *)
Inductive result (A : Type) : Type :=
| Ok (a : A)
| Raise (e : exn).

Arguments Ok {A} a.
Arguments Raise {A} e.

Definition bind {A B : Type} (m : result A) (k : A -> result B) : result B :=
  match m with
  | Ok a => k a
  | Raise e => Raise e
  end.

Definition raises {A : Type} (m : result A) : Prop :=
  exists e, m = Raise e.

Definition is_ok {A : Type} (m : result A) : bool :=
  match m with
  | Ok _ => true
  | Raise _ => false
  end.

(** [try: m except (e1, e2): h] *)
Definition try_except {A : Type} (m : result A) (caught : exn -> bool)
    (h : result A) : result A :=
  match m with
  | Ok a => Ok a
  | Raise e => if caught e then h else Raise e
  end.

(** Left-to-right evaluation of [f] over a list, stopping at the first
    exception. *)
Fixpoint mapM {A B : Type} (f : A -> result B) (l : list A) : result (list B) :=
  match l with
  | [] => Ok []
  | x :: xs =>
      bind (f x) (fun y => bind (mapM f xs) (fun ys => Ok (y :: ys)))
  end.

(** ** Values decoded from JSON *)

(** What [r.json()] can return: [None], booleans, integers of any size,
    floats, strings, lists and dicts with string keys.  A dict is kept as
    the list of its items; [dict_get] reads the first item with the key. *)
Inductive value : Type :=
| VNone
| VBool (b : bool)
| VInt (z : Z)
| VFloat (f : float)
| VStr (s : string)
| VList (l : list value)
| VDict (d : list (string * value)).

Fixpoint dict_get (d : list (string * value)) (k : string) : option value :=
  match d with
  | [] => None
  | (k', v) :: d' => if String.eqb k k' then Some v else dict_get d' k
  end.

(** [v[k]] with a string key: [KeyError] on a dict without the key,
    [TypeError] on everything that is not a dict (lists and strings take
    integer indices, the rest is not subscriptable). *)
Definition getitem (v : value) (k : string) : result value :=
  match v with
  | VDict d =>
      match dict_get d k with
      | Some x => Ok x
      | None => Raise KeyError
      end
  | _ => Raise TypeError
  end.

(** [v.get(k, default)]: only dicts have the method. *)
Definition get (v : value) (k : string) (default : value) : result value :=
  match v with
  | VDict d =>
      match dict_get d k with
      | Some x => Ok x
      | None => Ok default
      end
  | _ => Raise AttributeError
  end.

(** [v != ""] *)
Definition ne_empty_str (v : value) : bool :=
  match v with
  | VStr s => negb (String.eqb s "")
  | _ => true
  end.

(** ** Floats *)

Definition is_nan (x : float) : bool := PrimFloat.is_nan x.

(** Python compares a float with an integer by value, with no rounding of
    the integer: [None] stands for "unordered" (the float is NaN). *)
Definition compare_int (x : float) (n : Z) : option comparison :=
  match Prim2SF x with
  | S754_nan => None
  | S754_infinity s => Some (if s then Lt else Gt)
  | S754_zero _ => Some (Z.compare 0 n)
  | S754_finite s m e =>
      let v := if s then Z.neg m else Z.pos m in
      if (0 <=? e)%Z
      then Some (Z.compare (v * 2 ^ e) n)
      else Some (Z.compare v (n * 2 ^ (- e)))
  end.

(** [x > n], [x < n] and [x <= n], [x >= n] for a float [x] and an int [n] *)
Definition gt_int (x : float) (n : Z) : bool :=
  match compare_int x n with Some Gt => true | _ => false end.

Definition lt_int (x : float) (n : Z) : bool :=
  match compare_int x n with Some Lt => true | _ => false end.

Definition le_int (x : float) (n : Z) : bool :=
  match compare_int x n with Some Lt | Some Eq => true | _ => false end.

Definition ge_int (x : float) (n : Z) : bool :=
  match compare_int x n with Some Gt | Some Eq => true | _ => false end.

(** [float(n)] for an int: rounded to the nearest float, [OverflowError]
    when the integer is too large for a float. *)
Definition float_of_int (n : Z) : result float :=
  match binary_normalize prec emax n 0 false with
  | S754_infinity _ => Raise OverflowError
  | sf => Ok (SF2Prim sf)
  end.

(** [x / y] on floats: Python raises on a zero divisor instead of
    returning an infinity or NaN. *)
Definition truediv (x y : float) : result float :=
  if PrimFloat.eqb y 0 then Raise ZeroDivisionError else Ok (PrimFloat.div x y).

(** Keys that order the floats other than NaN: the sign class first, then
    the exponent and the mantissa.  [lex3] compares two keys. *)
Definition rank3 (a : spec_float) : Z * Z * Z :=
  match a with
  | S754_nan => (0, 0, 0)
  | S754_zero _ => (0, 0, 0)
  | S754_infinity true => (-2, 0, 0)
  | S754_infinity false => (2, 0, 0)
  | S754_finite false m e => (1, e, Z.pos m)
  | S754_finite true m e => (-1, - e, Z.neg m)
  end%Z.

Definition lex3 (a b : Z * Z * Z) : comparison :=
  let '(a1, a2, a3) := a in
  let '(b1, b2, b3) := b in
  match (a1 ?= b1)%Z with
  | Eq => match (a2 ?= b2)%Z with
          | Eq => (a3 ?= b3)%Z
          | c => c
          end
  | c => c
  end.

(** ** Strings *)

(** [x in s] for strings: [x] is a substring of [s]. *)
Fixpoint str_in (x s : string) : bool :=
  if String.prefix x s then true
  else match s with
       | EmptyString => false
       | String _ s' => str_in x s'
       end.

End Py.

Import Py.

Declare Scope py_scope.
Delimit Scope py_scope with py.
Notation "x <- m ;; k" := (bind m (fun x => k))
  (at level 61, m at next level, right associativity) : py_scope.
Local Open Scope py_scope.

(** ** Data of the pipeline *)

(** One entry of the lunch menu, as [extract_lunch_items] builds it. *)
Record MenuItem : Type := mkMenuItem {
  item_id : string;
  item_nonce : string;
  item_name : string
}.

(** The dict [normalize_item] returns.  The numeric fields hold a float or
    [None]; [serving_size_unit] holds whatever the payload has under
    ["unit"]. *)
Record NutritionRecord : Type := mkRecord {
  id : string;
  name : string;
  calories : option float;
  protein_g : option float;
  fat_g : option float;
  carbs_g : option float;
  serving_size : option float;
  serving_size_unit : value;
  ingredients : string;
  dairy_free : bool
}.

Definition TOP_N : nat := 5.

Definition dairy_keywords : list string :=
  ["milk"; "cheese"; "butter"; "cream"; "whey"; "casein"].

Section Pipeline.

(** Two built-ins of Python are taken as they come: [float] applied to a
    string ([None] when it raises [ValueError]) and [str.lower]. *)
Variable float_of_str : string -> option float.
Variable str_lower : string -> string.

(** [MAX_CALORIES] and [MIN_GRAMS_PROTEIN] are integers read from the
    environment when the module is loaded. *)
Variable MAX_CALORIES : Z.
Variable MIN_GRAMS_PROTEIN : Z.

(** [float(v)] *)
Definition float_ (v : value) : result float :=
  match v with
  | VStr s =>
      match float_of_str s with
      | Some f => Ok f
      | None => Raise ValueError
      end
  | VInt n => float_of_int n
  | VFloat f => Ok f
  | VBool b => Ok (if b then 1%float else 0%float)
  | VNone | VList _ | VDict _ => Raise TypeError
  end.

(** [v.lower()]: a method of strings only *)
Definition lower (v : value) : result string :=
  match v with
  | VStr s => Ok (str_lower s)
  | _ => Raise AttributeError
  end.

Definition caught_by_num (e : exn) : bool :=
  match e with
  | ValueError | TypeError => true
  | _ => false
  end.

Definition _num {A : Type} (nutrition : value) (key : string)
    (cast : value -> result A) : result (option A) :=
  try_except
    (entry <- get nutrition key (VDict []) ;;
     value <- get entry "value" (VStr "") ;;
     if ne_empty_str value
     then (x <- cast value ;; Ok (Some x))
     else Ok None)
    caught_by_num
    (Ok None).

Definition any_in (xs : list string) (s : string) : bool :=
  existsb (fun x => str_in x s) xs.

Definition normalize_item (raw : value) (name id : string)
    : result NutritionRecord :=
  items <- getitem raw "items" ;;
  item <- getitem items id ;;
  nutrition <- get item "nutrition_details" (VDict []) ;;
  details <- get item "ingredient_details" (VStr "") ;;
  ingredients <- lower details ;;
  calories <- _num nutrition "calories" float_ ;;
  protein <- _num nutrition "proteinContent" float_ ;;
  fat <- _num nutrition "fatContent" float_ ;;
  carbs <- _num nutrition "carbohydrateContent" float_ ;;
  serving_size <- _num nutrition "servingSize" float_ ;;
  serving <- get nutrition "servingSize" VNone ;;
  serving_size_unit <- get serving "unit" VNone ;;
  Ok {| id := id;
        name := name;
        calories := calories;
        protein_g := protein;
        fat_g := fat;
        carbs_g := carbs;
        serving_size := serving_size;
        serving_size_unit := serving_size_unit;
        ingredients := ingredients;
        dairy_free := negb (any_in dairy_keywords ingredients) |}.

(** [x > n] and [x < n] where [x] is a float or [None]: ordering [None]
    against an int is a [TypeError]. *)
Definition opt_gt (x : option float) (n : Z) : result bool :=
  match x with
  | Some f => Ok (gt_int f n)
  | None => Raise TypeError
  end.

Definition opt_lt (x : option float) (n : Z) : result bool :=
  match x with
  | Some f => Ok (lt_int f n)
  | None => Raise TypeError
  end.

Definition allowed (item : NutritionRecord) : result bool :=
  too_many <- opt_gt (calories item) MAX_CALORIES ;;
  if too_many then Ok false
  else
    too_few <- opt_lt (protein_g item) MIN_GRAMS_PROTEIN ;;
    if too_few then Ok false else Ok true.

(** [x * n] for a float or [None] and an int constant (converted to the
    float of the same value), [x / y] for floats or [None]: arithmetic on
    [None] is a [TypeError]. *)
Definition opt_mul (x : option float) (n : float) : result float :=
  match x with
  | Some f => Ok (PrimFloat.mul f n)
  | None => Raise TypeError
  end.

Definition opt_truediv (x : float) (y : option float) : result float :=
  match y with
  | Some d => truediv x d
  | None => Raise TypeError
  end.

Definition get_protein_score (item : NutritionRecord) : result float :=
  p <- opt_mul (protein_g item) 10 ;;
  opt_truediv p (calories item).

Definition get_volume_score (item : NutritionRecord) : result float :=
  v <- opt_mul (serving_size item) 100 ;;
  opt_truediv v (calories item).

Definition score (item : NutritionRecord) : result float :=
  p <- get_protein_score item ;;
  v <- get_volume_score item ;;
  Ok (PrimFloat.mul p v).

(** One turn of the loop of [get_healthy_meals]: the outcome of the fetch
    is read, the payload normalized and filtered; any exception skips the
    item. *)
Definition process_future (meals : list NutritionRecord)
    (done : MenuItem * result value) : list NutritionRecord :=
  let (item, future) := done in
  match
    (raw <- future ;;
     normalized <- normalize_item raw (item_name item) (item_id item) ;;
     keep <- allowed normalized ;;
     Ok (keep, normalized))
  with
  | Ok (true, normalized) => meals ++ [normalized]
  | Ok (false, _) => meals
  | Raise _ => meals
  end.

(** [get_healthy_meals]: the argument lists the menu items with the
    outcome of their fetch, in the order [as_completed] yields them.  The
    loop runs once the executor has shut down, when every fetch is done,
    so that order need not be the one in which the fetches completed. *)
Definition get_healthy_meals (completed : list (MenuItem * result value))
    : list NutritionRecord :=
  fold_left process_future completed [].

(** [sorted(l, key=..., reverse=True)] on the list of (key, item) pairs,
    as CPython 3.11 runs it ([list.sort] of [Objects/listobject.c]).  The
    keys are floats, and the only question the sort asks is whether one
    key is less than another, which is false as soon as a key is NaN.

    [islt] is the comparison, [count_run] the length of the run the list
    starts with and whether it is a strictly descending one (such a run
    is reversed), [binarysort] the insertion of the other elements, one
    by one, at the place a binary search finds.  With [reverse=True] the
    list is reversed, sorted in ascending order and reversed again.

    A list of fewer than 64 elements is sorted as one run, which is what
    is written here.  From 64 elements on CPython cuts the list in runs
    of 32 to 64 elements, extends each of them by [binarysort] and merges
    them; the merges are not modelled.  They give the list computed here
    whenever [<] orders the keys, that is when no key is NaN: the largest
    key first, equal keys in their original order, and no other list is
    both (lemma [stable_sort_is_sort_desc]). *)
Definition islt {A : Type} (x y : float * A) : bool :=
  PrimFloat.ltb (fst x) (fst y).

(** The number of elements of [l] that go on the run ending in [prev]:
    each is less than the one before it in a descending run, and not
    less in an ascending one. *)
Fixpoint run_length {A : Type} (descending : bool) (prev : float * A)
    (l : list (float * A)) : nat :=
  match l with
  | [] => 0
  | x :: l' =>
      if Bool.eqb (islt x prev) descending
      then S (run_length descending x l')
      else 0
  end.

Definition count_run {A : Type} (l : list (float * A)) : nat * bool :=
  match l with
  | [] => (0, false)
  | [x] => (1, false)
  | x :: y :: l' =>
      let descending := islt y x in
      (2 + run_length descending y l', descending)
  end.

(** The binary search of [binarysort] between the positions [l] and [r]
    of the run: it ends when they meet, after [r - l] turns at most. *)
Fixpoint bisect {A : Type} (fuel : nat) (pivot : float * A)
    (run : list (float * A)) (l r : nat) : nat :=
  match fuel with
  | 0 => l
  | S fuel' =>
      if Nat.ltb l r then
        let p := l + Nat.div2 (r - l) in
        if islt pivot (nth p run pivot) then bisect fuel' pivot run l p
        else bisect fuel' pivot run (S p) r
      else l
  end.

Fixpoint binarysort {A : Type} (run rest : list (float * A))
    : list (float * A) :=
  match rest with
  | [] => run
  | pivot :: rest' =>
      let l := bisect (List.length run) pivot run 0 (List.length run) in
      binarysort (firstn l run ++ pivot :: skipn l run) rest'
  end.

Definition listsort {A : Type} (l : list (float * A)) : list (float * A) :=
  let (n, descending) := count_run l in
  let run := firstn n l in
  binarysort (if descending then rev run else run) (skipn n l).

Definition sort_desc {A : Type} (l : list (float * A)) : list (float * A) :=
  rev (listsort (rev l)).

(** [sorted(meals, key=score, reverse=True)]: the keys are computed first,
    one call of [score] per item, and an exception of [score] leaves the
    call. *)
Definition sorted_by_score (meals : list NutritionRecord)
    : result (list NutritionRecord) :=
  keys <- mapM score meals ;;
  Ok (map snd (sort_desc (combine keys meals))).

(** [sorted(get_healthy_meals(lunch_items), key=score, reverse=True)[:TOP_N]],
    the ranking expression of [main]. *)
Definition top_meals (completed : list (MenuItem * result value))
    : result (list NutritionRecord) :=
  ranked <- sorted_by_score (get_healthy_meals completed) ;;
  Ok (firstn TOP_N ranked).

(** The end of [extract_lunch_items]: a menu without items is an error. *)
Definition extract_lunch_items (items : list MenuItem) : result (list MenuItem) :=
  match items with
  | [] => Raise RuntimeError
  | _ => Ok items
  end.

(** [main] up to the ranked meals.  The menu page and its parsing are
    represented by the items they yield, which are the items of the
    fetches; the notification is left out. *)
Definition main (completed : list (MenuItem * result value))
    : result (list NutritionRecord) :=
  lunch_items <- extract_lunch_items (map fst completed) ;;
  top_meals completed.

(** The nutrition mapping and the lower-cased ingredient string that
    [normalize_item] reads from the payload of item [id]. *)
Definition nutrition_details_of (raw : value) (id : string) : result value :=
  items <- getitem raw "items" ;;
  item <- getitem items id ;;
  get item "nutrition_details" (VDict []).

Definition ingredients_of (raw : value) (id : string) : result string :=
  items <- getitem raw "items" ;;
  item <- getitem items id ;;
  details <- get item "ingredient_details" (VStr "") ;;
  lower details.

End Pipeline.

(** ** Vocabulary of the properties *)

(** On the (key, item) pairs of the sort: the first pair has the larger
    key, the key equals [k], the key is not NaN. *)
Definition key_ge {A : Type} (x y : float * A) : Prop :=
  PrimFloat.leb (fst y) (fst x) = true.

Definition key_is {A : Type} (k : float) (x : float * A) : bool :=
  PrimFloat.eqb (fst x) k.

Definition key_ordered {A : Type} (x : float * A) : Prop :=
  is_nan (fst x) = false.

(** The first pair has the smaller key; the first pair has the strictly
    larger key. *)
Definition key_le {A : Type} (x y : float * A) : Prop :=
  PrimFloat.leb (fst x) (fst y) = true.

Definition key_gt {A : Type} (x y : float * A) : Prop :=
  PrimFloat.ltb (fst y) (fst x) = true.

(** [x] occurs in [s] as a substring. *)
Definition occurs_in (x s : string) : Prop :=
  exists pre post, s = (pre ++ x ++ post)%string.

(** Two records in non-increasing score order: both scores exist and the
    second is at most the first. *)
Definition score_ge (a b : NutritionRecord) : Prop :=
  exists sa sb, score a = Ok sa /\ score b = Ok sb /\ PrimFloat.leb sb sa = true.

(** The score of the record is equal to [k] (Python's [==]). *)
Definition score_is (k : float) (r : NutritionRecord) : bool :=
  match score r with
  | Ok s => PrimFloat.eqb s k
  | Raise _ => false
  end.

(** No record of the list has a NaN score. *)
Definition scores_ordered (l : list NutritionRecord) : Prop :=
  forall r s, In r l -> score r = Ok s -> is_nan s = false.

(** The nutrition mapping of the payload has a ["servingSize"] key. *)
Definition has_serving_size (raw : value) (id : string) : bool :=
  match nutrition_details_of raw id with
  | Ok (VDict d) =>
      match dict_get d "servingSize" with
      | Some _ => true
      | None => false
      end
  | _ => false
  end.

(** The entry of [key] in a nutrition mapping is one [_num] reads without
    an exception of its own: it is missing, or it is a mapping whose value
    is not an integer beyond the range of floats. *)
Definition readable_entry (d : list (string * value)) (key : string) : Prop :=
  match dict_get d key with
  | None => True
  | Some (VDict e) =>
      forall n, dict_get e "value" = Some (VInt n) ->
                float_of_int n <> Raise OverflowError
  | Some _ => False
  end.

(** The keys of the five numeric fields. *)
Definition numeric_keys : list string :=
  ["calories"; "proteinContent"; "fatContent"; "carbohydrateContent";
   "servingSize"].

(** ** An instance to run the pipeline *)

Module Sample.

(** [float] on strings of decimal digits and on ["nan"], [lower] on the
    letters A to Z.  Enough to evaluate the pipeline on the payloads
    below; the properties are proved for every choice of the two. *)
Fixpoint digits_value (s : string) (acc : Z) : option Z :=
  match s with
  | EmptyString => Some acc
  | String c s' =>
      let n := Z.of_nat (nat_of_ascii c) in
      if ((48 <=? n) && (n <=? 57))%Z%bool
      then digits_value s' (10 * acc + (n - 48))%Z
      else None
  end.

Definition float_of_str (s : string) : option float :=
  if String.eqb s "nan" then Some nan
  else match s with
       | EmptyString => None
       | _ => match digits_value s 0 with
              | Some n => match float_of_int n with
                          | Ok f => Some f
                          | Raise _ => None
                          end
              | None => None
              end
       end.

Definition lower_ascii (c : ascii) : ascii :=
  let n := nat_of_ascii c in
  if (Nat.leb 65 n && Nat.leb n 90)%bool then ascii_of_nat (n + 32) else c.

Fixpoint str_lower (s : string) : string :=
  match s with
  | EmptyString => EmptyString
  | String c s' => String (lower_ascii c) (str_lower s')
  end.

(** The default thresholds of the source. *)
Definition MAX_CALORIES : Z := 850.
Definition MIN_GRAMS_PROTEIN : Z := 25.

Definition normalize_item := normalize_item float_of_str str_lower.
Definition allowed := allowed MAX_CALORIES MIN_GRAMS_PROTEIN.
Definition get_healthy_meals :=
  get_healthy_meals float_of_str str_lower MAX_CALORIES MIN_GRAMS_PROTEIN.
Definition top_meals :=
  top_meals float_of_str str_lower MAX_CALORIES MIN_GRAMS_PROTEIN.

(** A nutrition entry [{"value": v, "unit": u}] and a payload for one item. *)
Definition entry (v : value) (u : string) : value :=
  VDict [("value", v); ("unit", VStr u)].

Definition payload (id : string) (nutrition : list (string * value))
    (ingredient_details : string) : value :=
  VDict [("items",
          VDict [(id, VDict [("nutrition_details", VDict nutrition);
                             ("ingredient_details", VStr ingredient_details)])])].

Definition nutrition (cal protein serving : value) : list (string * value) :=
  [("calories", entry cal "kcal");
   ("proteinContent", entry protein "g");
   ("servingSize", entry serving "oz")].

Definition menu_item (id name : string) : MenuItem :=
  {| item_id := id; item_nonce := "4f2a"; item_name := name |}.

(** A menu item together with a fetch that returned [pl]. *)
Definition fetched (id name : string) (pl : value) : MenuItem * result value :=
  (menu_item id name, Ok pl).

(** The dishes of the examples. *)
Definition chicken : value :=
  payload "11" (nutrition (VStr "500") (VStr "40") (VStr "300"))
    "Chicken breast, olive oil, Butter".

Definition lasagna : value :=
  payload "12" (nutrition (VStr "900") (VStr "45") (VStr "400"))
    "Pasta, beef, Cheese".

Definition tofu : value :=
  payload "13" (nutrition (VInt 250) (VInt 30) (VInt 200)) "Tofu, rice".

(** Twice the amounts of [tofu]: the same score. *)
Definition salmon : value :=
  payload "14" (nutrition (VInt 500) (VInt 60) (VInt 400)) "Salmon".

(** No calories at all, yet enough protein for the filter. *)
Definition broth : value :=
  payload "15" (nutrition (VStr "0") (VStr "30") (VStr "250")) "Bone broth".

(** The calories are NaN: [float("nan")]; the JSON literal [NaN], which
    [r.json()] accepts, gives the same record. *)
Definition mystery : value :=
  payload "16" (nutrition (VStr "nan") (VStr "30") (VStr "250")) "".

(** The serving size has a unit and no value. *)
Definition wrap : value :=
  payload "17"
    [("calories", entry (VStr "400") "kcal");
     ("proteinContent", entry (VStr "30") "g");
     ("servingSize", VDict [("unit", VStr "each")])]
    "Tortilla, turkey".

(** No ["servingSize"] key. *)
Definition soup : value :=
  payload "18"
    [("calories", entry (VStr "300") "kcal");
     ("proteinContent", entry (VStr "28") "g")]
    "Lentils".

(** The calories are JSON's null in place of an entry. *)
Definition stew_nutrition : list (string * value) :=
  [("calories", VNone);
   ("proteinContent", entry (VStr "35") "g");
   ("servingSize", entry (VStr "300") "g")].

Definition stew : value := payload "21" stew_nutrition "Beef, carrots".

(** The calories are an integer no float can hold. *)
Definition feast_nutrition : list (string * value) :=
  [("calories", entry (VInt (2 ^ 1024)) "kcal");
   ("proteinContent", entry (VStr "35") "g");
   ("servingSize", entry (VStr "300") "g")].

(** The calories do not parse. *)
Definition curry_nutrition : list (string * value) :=
  [("calories", entry (VStr "n/a") "kcal");
   ("proteinContent", entry (VStr "35") "g");
   ("servingSize", entry (VStr "300") "g")].

Definition curry : value := payload "22" curry_nutrition "Chickpeas".

Definition curry_record : NutritionRecord :=
  {| id := "22"; name := "Curry";
     calories := None; protein_g := Some 35%float;
     fat_g := None; carbs_g := None;
     serving_size := Some 300%float; serving_size_unit := VStr "g";
     ingredients := "chickpeas"; dairy_free := true |}.

(** Neither calories nor protein in the nutrition mapping. *)
Definition salad : value :=
  payload "20" [("servingSize", entry (VStr "350") "g")] "Lettuce, Cream".

Definition salad_record : NutritionRecord :=
  {| id := "20"; name := "Salad";
     calories := None; protein_g := None; fat_g := None; carbs_g := None;
     serving_size := Some 350%float; serving_size_unit := VStr "g";
     ingredients := "lettuce, cream"; dairy_free := false |}.

(** The records of some of the dishes. *)
Definition record (id name : string) (cal protein : float)
    (serving : option float) (unit ingredients : string) (dairy_free : bool)
    : NutritionRecord :=
  {| id := id; name := name;
     calories := Some cal; protein_g := Some protein;
     fat_g := None; carbs_g := None;
     serving_size := serving; serving_size_unit := VStr unit;
     ingredients := ingredients; dairy_free := dairy_free |}.

Definition chicken_record : NutritionRecord :=
  record "11" "Chicken" 500 40 (Some 300%float) "oz"
    "chicken breast, olive oil, butter" false.

Definition tofu_record : NutritionRecord :=
  record "13" "Tofu" 250 30 (Some 200%float) "oz" "tofu, rice" true.

Definition salmon_record : NutritionRecord :=
  record "14" "Salmon" 500 60 (Some 400%float) "oz" "salmon" true.

Definition broth_record : NutritionRecord :=
  record "15" "Broth" 0 30 (Some 250%float) "oz" "bone broth" true.

Definition mystery_record : NutritionRecord :=
  record "16" "Mystery" nan 30 (Some 250%float) "oz" "" true.

Definition wrap_record : NutritionRecord :=
  record "17" "Wrap" 400 30 None "each" "tortilla, turkey" true.

(** Menus, in the order in which [as_completed] yields the fetches. *)
Definition menu_scenario : list (MenuItem * result value) :=
  [fetched "11" "Chicken" chicken;
   fetched "12" "Lasagna" lasagna;
   (menu_item "13" "Tofu", Raise RequestError)].

Definition menu_ties : list (MenuItem * result value) :=
  [fetched "11" "Chicken" chicken;
   fetched "13" "Tofu" tofu;
   fetched "14" "Salmon" salmon].

Definition menu_broth : list (MenuItem * result value) :=
  [fetched "11" "Chicken" chicken; fetched "15" "Broth" broth].

Definition menu_mystery : list (MenuItem * result value) :=
  [fetched "11" "Chicken" chicken;
   fetched "16" "Mystery" mystery;
   fetched "13" "Tofu" tofu].

Definition menu_wrap : list (MenuItem * result value) :=
  [fetched "11" "Chicken" chicken; fetched "17" "Wrap" wrap].

Definition menu_soup : list (MenuItem * result value) :=
  [fetched "11" "Chicken" chicken;
   fetched "18" "Soup" soup;
   fetched "13" "Tofu" tofu].

End Sample.

(** ** The message *)

(** ["\n"] *)
Definition newline : string := String (ascii_of_nat 10) "".

(** [sep.join(l)] *)
Fixpoint join (sep : string) (l : list string) : string :=
  match l with
  | [] => ""
  | [x] => x
  | x :: l' => x ++ sep ++ join sep l'
  end%string.

(** A numeric field of a record as a Python value. *)
Definition of_option (x : option float) : value :=
  match x with
  | Some f => VFloat f
  | None => VNone
  end.

Definition no_options_message : string :=
  "No lunch options met your criteria today.".

Section Message.

(** [str(v)], which is how an f-string formats a float, an int or [None];
    taken as it comes. *)
Variable str_ : value -> string.

Definition int_str (n : nat) : string := str_ (VInt (Z.of_nat n)).

(** The six lines of [build_message] for the [i]-th item. *)
Definition item_lines (i : nat) (item : NutritionRecord) : list string :=
  [(int_str i ++ ". " ++ name item ++ " ("
      ++ str_ (of_option (serving_size item)) ++ " "
      ++ str_ (serving_size_unit item) ++ ")")%string;
   ("   Calories: " ++ str_ (of_option (calories item)))%string;
   ("   Protein: " ++ str_ (of_option (protein_g item)) ++ "g")%string;
   ("   Carbs: " ++ str_ (of_option (carbs_g item)) ++ "g")%string;
   ("   Fat: " ++ str_ (of_option (fat_g item)) ++ "g")%string;
   ""].

(** The lines of the items numbered from [i] on. *)
Fixpoint items_lines (i : nat) (items : list NutritionRecord) : list string :=
  match items with
  | [] => []
  | item :: items' => item_lines i item ++ items_lines (S i) items'
  end.

Definition build_message (items : list NutritionRecord) : string :=
  match items with
  | [] => no_options_message
  | _ =>
      join newline
        (("Here are today's top " ++ int_str (List.length items)
            ++ " healthy lunch picks:")%string
         :: "" :: items_lines 1 items)
  end.

End Message.

(** ** Notification *)

(** What the job does to the outside: the lines it prints and the calls of
    the two senders, with their arguments. *)
Inductive event : Type :=
| Printed (line : string)
| MailerSend (api_key from_email : string) (recipients : value)
    (subject text : string)
| SlackPost (url title text : string).

Definition is_attempt (ev : event) : bool :=
  match ev with
  | Printed _ => false
  | MailerSend _ _ _ _ _ | SlackPost _ _ _ => true
  end.

(** The calls of the senders in a trace. *)
Definition attempts (tr : list event) : list event := filter is_attempt tr.

(** The message and the title of a call of a sender. *)
Definition sent_text (ev : event) : string :=
  match ev with
  | Printed line => line
  | MailerSend _ _ _ _ text => text
  | SlackPost _ _ text => text
  end.

Definition sent_title (ev : event) : string :=
  match ev with
  | Printed line => line
  | MailerSend _ _ _ subject _ => subject
  | SlackPost _ title _ => title
  end.

(** A computation with effects: it extends the trace and returns or
    raises. *)
Definition io (A : Type) : Type := list event -> result A * list event.

Module IO.

Definition ret {A : Type} (a : A) : io A := fun tr => (Ok a, tr).

Definition raise {A : Type} (e : exn) : io A := fun tr => (Raise e, tr).

Definition bind {A B : Type} (m : io A) (k : A -> io B) : io B :=
  fun tr =>
    match m tr with
    | (Ok a, tr') => k a tr'
    | (Raise e, tr') => (Raise e, tr')
    end.

Definition lift {A : Type} (r : result A) : io A := fun tr => (r, tr).

Definition emit (ev : event) : io unit := fun tr => (Ok tt, tr ++ [ev]).

Definition print (line : string) : io unit := emit (Printed line).

End IO.

Declare Scope io_scope.
Delimit Scope io_scope with io.
Notation "x <- m ;; k" := (IO.bind m (fun x => k))
  (at level 61, m at next level, right associativity) : io_scope.
Notation "m ;; k" := (IO.bind m (fun _ => k))
  (at level 61, right associativity) : io_scope.

(** Truth value of a Python value and of a string or [None]. *)
Definition truthy (v : value) : bool :=
  match v with
  | VNone => false
  | VBool b => b
  | VInt n => negb (n =? 0)%Z
  | VFloat f => negb (PrimFloat.eqb f 0)
  | VStr s => negb (String.eqb s "")
  | VList l => match l with [] => false | _ => true end
  | VDict d => match d with [] => false | _ => true end
  end.

Definition truthy_str (s : option string) : bool :=
  match s with
  | Some x => negb (String.eqb x "")
  | None => false
  end.

Definition str_or_empty (s : option string) : string :=
  match s with
  | Some x => x
  | None => ""
  end.

(** [s.split(",")] *)
Fixpoint split_comma (s : string) : list string :=
  match s with
  | EmptyString => [""]
  | String c s' =>
      if Ascii.eqb c ","%char then "" :: split_comma s'
      else match split_comma s' with
           | [] => [String c ""]
           | x :: xs => String c x :: xs
           end
  end.

(** The settings the module reads from the environment when it is
    loaded.  [EMAIL_RECIPIENTS] is the decoded JSON. *)
Record Settings : Type := mkSettings {
  NOTIFY_METHODS : list string;
  MAILERSEND_API_KEY : option string;
  FROM_EMAIL : option string;
  EMAIL_RECIPIENTS : value;
  SLACK_WEBHOOK_URL : option string
}.

(** [os.environ.get("NOTIFY_METHODS", "email,slack").split(",")] *)
Definition notify_methods_of (env : option string) : list string :=
  split_comma (match env with Some s => s | None => "email,slack" end).

(** An element the selector of [extract_lunch_items] matches: its two
    attributes and the stripped text of its first button, if it has one. *)
Record Element : Type := mkElement {
  data_id : string;
  data_nonce : string;
  button_text : option string
}.

(** The loop of [extract_lunch_items]. *)
Fixpoint collect_items (selected : list Element) : list MenuItem :=
  match selected with
  | [] => []
  | el :: selected' =>
      match button_text el with
      | None => collect_items selected'
      | Some text =>
          {| item_id := data_id el; item_nonce := data_nonce el;
             item_name := text |} :: collect_items selected'
      end
  end.

Section Job.

Variable float_of_str : string -> option float.
Variable str_lower : string -> string.
Variable str_ : value -> string.
Variable MAX_CALORIES : Z.
Variable MIN_GRAMS_PROTEIN : Z.
Variable settings : Settings.

(** The outside world.  [respond tr] is how the call of a sender that
    ends the trace [tr] turns out: the MailerSend client, or
    [requests.post] followed by [raise_for_status], returns or raises.
    [menu_page] is the outcome of [fetch_menu_page] followed by the
    selection of the lunch elements, [fetch_all] the outcomes of the
    nutrition fetches of the items in the order in which [as_completed]
    yields them, and [title] what [build_title] returns. *)
Variable respond : list event -> result unit.
Variable menu_page : result (list Element).
Variable fetch_all : list MenuItem -> list (MenuItem * result value).
Variable title : string.

Local Open Scope io_scope.

(** A call of the client of a sender: it is logged, then it returns or
    raises as the world has it. *)
Definition call (ev : event) : io unit :=
  IO.emit ev ;; (fun tr => (respond tr, tr)).

Definition send_email (title message : string) : io unit :=
  if negb (truthy_str (MAILERSEND_API_KEY settings))
     || negb (truthy (EMAIL_RECIPIENTS settings))
     || negb (truthy_str (FROM_EMAIL settings))
  then IO.print "Unable to send email, at least one of MAILERSEND_API_KEY, EMAIL_RECIPIENTS, FROM_EMAIL missing"
  else
    call (MailerSend (str_or_empty (MAILERSEND_API_KEY settings))
            (str_or_empty (FROM_EMAIL settings))
            (EMAIL_RECIPIENTS settings) title message) ;;
    IO.print "Email sent!".

Definition send_slack_message (title message : string) : io unit :=
  if negb (truthy_str (SLACK_WEBHOOK_URL settings))
  then IO.print "Unable to trigger slack webhook, SLACK_WEBHOOK_URL missing"
  else
    call (SlackPost (str_or_empty (SLACK_WEBHOOK_URL settings)) title message) ;;
    IO.print "Slack webhook triggered!".

(** The dict [notify_functions]. *)
Definition notify_functions (method : string)
    : option (string -> string -> io unit) :=
  if String.eqb method "email" then Some send_email
  else if String.eqb method "slack" then Some send_slack_message
  else None.

(** The loop of [notify] over the methods that are left. *)
Fixpoint notify_each (methods : list string) (title message : string)
    : io unit :=
  match methods with
  | [] => IO.ret tt
  | method :: methods' =>
      match notify_functions method with
      | None => IO.raise KeyError
      | Some notify_func =>
          notify_func title message ;; notify_each methods' title message
      end
  end.

Definition notify (title message : string) : io unit :=
  notify_each (NOTIFY_METHODS settings) title message.

(** [extract_lunch_items] on the elements selected from the page. *)
Definition extract_items (selected : list Element) : io (list MenuItem) :=
  items <- IO.lift (extract_lunch_items (collect_items selected)) ;;
  IO.print ("Found " ++ int_str str_ (List.length items) ++ " items") ;;
  IO.ret items.

(** [main], with its prints and the notification. *)
Definition run_main : io unit :=
  IO.print "Starting job..." ;;
  selected <- IO.lift menu_page ;;
  lunch_items <- extract_items selected ;;
  meals <- IO.lift (top_meals float_of_str str_lower MAX_CALORIES
                      MIN_GRAMS_PROTEIN (fetch_all lunch_items)) ;;
  IO.print ("Found " ++ int_str str_ (List.length meals) ++ " healthy meals") ;;
  notify title (build_message str_ meals) ;;
  IO.print "Job complete!".

End Job.

(** ** Vocabulary of the further properties *)

(** [allowed] returns true. *)
Definition passes (max_calories min_protein : Z) (r : NutritionRecord) : bool :=
  match allowed max_calories min_protein r with
  | Ok true => true
  | _ => false
  end.

(** The value is a dict. *)
Definition is_dict (v : value) : bool :=
  match v with
  | VDict _ => true
  | _ => false
  end.

(** The element has a button; the item is the one made from the
    element. *)
Definition has_button (el : Element) : bool :=
  match button_text el with
  | Some _ => true
  | None => false
  end.

Definition item_of (el : Element) (it : MenuItem) : Prop :=
  button_text el = Some (item_name it) /\
  data_id el = item_id it /\ data_nonce el = item_nonce it.

(** The call a method of [NOTIFY_METHODS] leads to: the one of its sender
    when the method is known and its settings are there, none otherwise. *)
Definition email_configured (s : Settings) : bool :=
  truthy_str (MAILERSEND_API_KEY s) && truthy (EMAIL_RECIPIENTS s)
  && truthy_str (FROM_EMAIL s).

Definition planned_call (s : Settings) (title message method : string)
    : list event :=
  if String.eqb method "email" then
    if email_configured s
    then [MailerSend (str_or_empty (MAILERSEND_API_KEY s))
            (str_or_empty (FROM_EMAIL s)) (EMAIL_RECIPIENTS s) title message]
    else []
  else if String.eqb method "slack" then
    if truthy_str (SLACK_WEBHOOK_URL s)
    then [SlackPost (str_or_empty (SLACK_WEBHOOK_URL s)) title message]
    else []
  else [].

Definition planned_calls (s : Settings) (title message : string) : list event :=
  flat_map (planned_call s title message) (NOTIFY_METHODS s).

Definition known_method (method : string) : Prop :=
  method = "email" \/ method = "slack".

(** What one sender does from the trace [tr]: it logs the call planned
    for its method, if there is one, and something in any case; it
    returns when the call does, and raises what the call raises. *)
Definition sender_step_spec (s : Settings) (respond : list event -> result unit)
    (f : string -> string -> io unit) (method : string)
    (title message : string) (tr : list event) : Prop :=
  exists r tr',
    f title message tr = (r, tr') /\
    attempts tr' = attempts tr ++ planned_call s title message method /\
    (List.length tr < List.length tr')%nat /\
    ((forall t, respond t = Ok tt) -> r = Ok tt) /\
    (forall ev e,
       planned_call s title message method = [ev] ->
       respond (tr ++ [ev]) = Raise e ->
       r = Raise e /\ tr' = tr ++ [ev]).

(** ** An instance to run the job *)

Module Demo.

(** [str] on None, booleans, ints, strings and the floats that are whole
    numbers below 10^16; the rest is written as a placeholder.  Enough to
    write the messages of the examples; the properties are proved for
    every [str]. *)
Definition str_ (v : value) : string :=
  match v with
  | VNone => "None"
  | VBool b => if b then "True" else "False"
  | VInt n => NilZero.string_of_int (Z.to_int n)
  | VStr s => s
  | VFloat f =>
      match Prim2SF f with
      | S754_zero s => if s then "-0.0" else "0.0"
      | S754_infinity s => if s then "-inf" else "inf"
      | S754_nan => "nan"
      | S754_finite s m e =>
          let sign := if s then "-" else "" in
          if (0 <=? e)%Z
          then sign ++ NilZero.string_of_int (Z.to_int (Z.pos m * 2 ^ e))
               ++ ".0"
          else if (Z.pos m mod 2 ^ (- e) =? 0)%Z
          then sign ++ NilZero.string_of_int (Z.to_int (Z.pos m / 2 ^ (- e)))
               ++ ".0"
          else "<float>"
      end
  | VList _ => "<list>"
  | VDict _ => "<dict>"
  end%string.

Definition title : string := "Top Healthy Lunch Picks".

(** Settings with both senders, with none, and with a method nobody
    knows between the two. *)
Definition recipients : value :=
  VList [VDict [("name", VStr "Ada"); ("email", VStr "ada@example.com")]].

Definition both : Settings :=
  {| NOTIFY_METHODS := notify_methods_of None;
     MAILERSEND_API_KEY := Some "key";
     FROM_EMAIL := Some "lunch@example.com";
     EMAIL_RECIPIENTS := recipients;
     SLACK_WEBHOOK_URL := Some "https://hooks.example.com/T" |}.

Definition with_sms : Settings :=
  {| NOTIFY_METHODS := notify_methods_of (Some "email,sms,slack");
     MAILERSEND_API_KEY := Some "key";
     FROM_EMAIL := Some "lunch@example.com";
     EMAIL_RECIPIENTS := recipients;
     SLACK_WEBHOOK_URL := Some "https://hooks.example.com/T" |}.

Definition switched_off : Settings :=
  {| NOTIFY_METHODS := notify_methods_of (Some "");
     MAILERSEND_API_KEY := Some "key";
     FROM_EMAIL := Some "lunch@example.com";
     EMAIL_RECIPIENTS := recipients;
     SLACK_WEBHOOK_URL := Some "https://hooks.example.com/T" |}.

(** A world in which every call goes through, and one in which the mail
    service is down. *)
Definition all_fine (tr : list event) : result unit := Ok tt.

Definition mail_down (tr : list event) : result unit :=
  match last tr (Printed "") with
  | MailerSend _ _ _ _ _ => Raise RequestError
  | _ => Ok tt
  end.

(** The elements of a page: three dishes and a heading without button. *)
Definition element (id name : string) : Element :=
  {| data_id := id; data_nonce := "4f2a"; button_text := Some name |}.

Definition heading : Element :=
  {| data_id := "1"; data_nonce := "4f2a"; button_text := None |}.

Definition page : list Element :=
  [element "11" "Chicken"; heading; element "13" "Tofu";
   element "14" "Salmon"].

(** The nutrition endpoint: the payloads it has, and the fetches of a
    list of items, yielded in the order of the list. *)
Definition payloads : list (string * value) :=
  [("11", Sample.chicken); ("13", Sample.tofu); ("14", Sample.salmon);
   ("15", Sample.broth); ("12", Sample.lasagna)].

Definition fetch (it : MenuItem) : MenuItem * result value :=
  (it, match dict_get payloads (item_id it) with
       | Some raw => Ok raw
       | None => Raise RequestError
       end).

Definition fetch_all (items : list MenuItem) : list (MenuItem * result value) :=
  map fetch items.

Definition run_main (s : Settings) (respond : list event -> result unit)
    (selected : result (list Element)) : io unit :=
  run_main Sample.float_of_str Sample.str_lower str_
    Sample.MAX_CALORIES Sample.MIN_GRAMS_PROTEIN s respond selected
    fetch_all title.

(** Six dishes that pass the filter, with scores 96, 48, 192, 24, 12
    and 6. *)
Definition dish (id : string) (cal protein serving : Z) : MenuItem * result value :=
  Sample.fetched id id
    (Sample.payload id
       (Sample.nutrition (VInt cal) (VInt protein) (VInt serving)) "").

Definition menu_six : list (MenuItem * result value) :=
  [dish "a" 250 30 200; dish "b" 500 40 300; dish "c" 250 60 200;
   dish "d" 500 40 150; dish "e" 500 40 75; dish "f" 800 32 120].

Definition dish_record (id : string) (cal protein serving : float)
    : NutritionRecord :=
  Sample.record id id cal protein (Some serving) "oz" "" true.

Definition kept_six : list NutritionRecord :=
  [dish_record "a" 250 30 200; dish_record "b" 500 40 300;
   dish_record "c" 250 60 200; dish_record "d" 500 40 150;
   dish_record "e" 500 40 75; dish_record "f" 800 32 120].

Definition top_six : list NutritionRecord :=
  [dish_record "c" 250 60 200; dish_record "a" 250 30 200;
   dish_record "b" 500 40 300; dish_record "d" 500 40 150;
   dish_record "e" 500 40 75].

(** Seven dishes that pass the filter, with scores 96, 48, 96, NaN, 192,
    NaN and 384 in the order they are collected in, and the five that
    [sorted] puts first. *)
Definition nan_dish (id : string) : MenuItem * result value :=
  Sample.fetched id id
    (Sample.payload id (Sample.nutrition (VStr "nan") (VInt 30) (VInt 250)) "").

Definition menu_seven : list (MenuItem * result value) :=
  [Sample.fetched "13" "Tofu" Sample.tofu;
   Sample.fetched "11" "Chicken" Sample.chicken;
   Sample.fetched "14" "Salmon" Sample.salmon;
   Sample.fetched "16" "Mystery" Sample.mystery;
   dish "c" 250 60 200; nan_dish "h"; dish "i" 250 60 400].

Definition top_seven : list NutritionRecord :=
  [Sample.salmon_record; Sample.mystery_record; dish_record "c" 250 60 200;
   Sample.tofu_record; Sample.chicken_record].

(** Calories and protein right on the default thresholds. *)
Definition borderline : NutritionRecord := dish_record "g" 850 25 100.

(** The chicken with other fat, carbs, ingredients and dairy flag. *)
Definition lean_chicken : NutritionRecord :=
  {| id := "11"; name := "Chicken";
     calories := Some 500%float; protein_g := Some 40%float;
     fat_g := Some 3%float; carbs_g := Some 0%float;
     serving_size := Some 300%float; serving_size_unit := VStr "oz";
     ingredients := "chicken breast"; dairy_free := true |}.

(** Pages with a dish of zero calories, with a dish over the calorie
    cap only, and with no dish. *)
Definition page_with_broth : list Element :=
  [element "11" "Chicken"; element "15" "Broth"].

Definition page_with_lasagna : list Element := [element "12" "Lasagna"].

Definition page_without_dish : list Element := [heading; heading].

Definition failed_fetches : list (MenuItem * result value) :=
  [(Sample.menu_item "11" "Chicken", Raise RequestError);
   (Sample.menu_item "13" "Tofu", Raise RequestError)].

Definition email_call (message : string) : event :=
  MailerSend "key" "lunch@example.com" recipients title message.

(** The meals kept under other thresholds than the default ones. *)
Definition meals_under (max min : Z) (completed : list (MenuItem * result value))
    : list NutritionRecord :=
  get_healthy_meals Sample.float_of_str Sample.str_lower max min completed.

(** A payload the endpoint answers a refused request with. *)
Definition refused : value := VInt 0.

(** A payload about another item. *)
Definition other_item : list (string * value) :=
  [("items", VDict [("99", VDict [])])].

End Demo.

(** The keys of the nutrition mapping with the fields they fill. *)
Definition numeric_fields : list (string * (NutritionRecord -> option float)) :=
  [("calories", calories); ("proteinContent", protein_g);
   ("fatContent", fat_g); ("carbohydrateContent", carbs_g);
   ("servingSize", serving_size)].

(** A record with its sort key (zero when it has no score). *)
Definition keyed (r : NutritionRecord) : float * NutritionRecord :=
  match score r with
  | Ok s => (s, r)
  | Raise _ => (0%float, r)
  end.

(** No two records of the list have equal scores. *)
Definition distinct_scores (l : list NutritionRecord) : Prop :=
  ForallOrdPairs
    (fun a b => forall sa sb, score a = Ok sa -> score b = Ok sb ->
                              PrimFloat.eqb sa sb = false) l.

(** * Properties *)

(** ** Order of the floats *)

Module FloatOrder.

Lemma SFcompare_lex3 a b :
  a <> S754_nan -> b <> S754_nan ->
  SFcompare a b = Some (lex3 (rank3 a) (rank3 b)).
Proof.
  intros Ha Hb.
  destruct a as [sa|sa| |sa ma ea], b as [sb|sb| |sb mb eb];
    try congruence;
    try (destruct sa; try destruct sb; reflexivity);
    try (destruct sb; reflexivity).
  destruct sa, sb; cbn [SFcompare rank3 lex3].
  - rewrite Z.compare_opp, (Z.compare_antisym ea eb).
    destruct (ea ?= eb)%Z; reflexivity.
  - reflexivity.
  - reflexivity.
  - destruct (ea ?= eb)%Z; reflexivity.
Qed.

Lemma SFcompare_some a b c :
  SFcompare a b = Some c -> a <> S754_nan /\ b <> S754_nan.
Proof.
  destruct a, b; cbn; intros H; split; congruence.
Qed.

Lemma SFcompare_none a b :
  a <> S754_nan -> b <> S754_nan -> SFcompare a b <> None.
Proof.
  intros Ha Hb. rewrite SFcompare_lex3 by assumption. discriminate.
Qed.

Ltac lex3_cases :=
  unfold lex3;
  repeat match goal with
         | |- context [(?x ?= ?y)%Z] => destruct (Z.compare_spec x y)
         | H : context [(?x ?= ?y)%Z] |- _ => destruct (Z.compare_spec x y)
         end;
  try congruence; try lia.

Lemma lex3_le_trans a b c :
  lex3 a b <> Gt -> lex3 b c <> Gt -> lex3 a c <> Gt.
Proof.
  destruct a as [[a1 a2] a3], b as [[b1 b2] b3], c as [[c1 c2] c3].
  lex3_cases.
Qed.

Lemma lex3_antisym a b : lex3 b a = CompOpp (lex3 a b).
Proof.
  destruct a as [[a1 a2] a3], b as [[b1 b2] b3].
  lex3_cases; reflexivity.
Qed.

Lemma lex3_eq_eq a b k : lex3 a k = Eq -> lex3 b k = Eq -> lex3 a b = Eq.
Proof.
  destruct a as [[a1 a2] a3], b as [[b1 b2] b3], k as [[k1 k2] k3].
  lex3_cases.
Qed.


Lemma Prim2SF_nan x : Prim2SF x = S754_nan <-> is_nan x = true.
Proof.
  unfold is_nan, Prim2SF. destruct (PrimFloat.is_nan x).
  - tauto.
  - split; [|discriminate].
    destruct (is_zero x); [discriminate|].
    destruct (is_infinity x); [discriminate|].
    destruct (Z.frexp x) as [r e].
    destruct (shr_fexp _ _ _ _ _) as [sh e'].
    destruct (shr_m sh); discriminate.
Qed.

Lemma not_nan_Prim2SF x : is_nan x = false -> Prim2SF x <> S754_nan.
Proof.
  intros H E. apply Prim2SF_nan in E. congruence.
Qed.

Lemma compare_not_nan x y :
  is_nan x = false -> is_nan y = false ->
  SFcompare (Prim2SF x) (Prim2SF y) =
  Some (lex3 (rank3 (Prim2SF x)) (rank3 (Prim2SF y))).
Proof.
  intros Hx Hy. apply SFcompare_lex3; now apply not_nan_Prim2SF.
Qed.

Lemma ltb_true_not_nan x y :
  PrimFloat.ltb x y = true -> is_nan x = false /\ is_nan y = false.
Proof.
  rewrite ltb_spec. unfold SFltb.
  destruct (SFcompare _ _) as [c|] eqn:E; [|discriminate].
  intros _. apply SFcompare_some in E. destruct E as [Ex Ey].
  split.
  - destruct (is_nan x) eqn:N; [|reflexivity]. apply Prim2SF_nan in N. congruence.
  - destruct (is_nan y) eqn:N; [|reflexivity]. apply Prim2SF_nan in N. congruence.
Qed.

Lemma eqb_true_not_nan x y :
  PrimFloat.eqb x y = true -> is_nan x = false /\ is_nan y = false.
Proof.
  rewrite eqb_spec. unfold SFeqb.
  destruct (SFcompare _ _) as [c|] eqn:E; [|discriminate].
  intros _. apply SFcompare_some in E. destruct E as [Ex Ey].
  split.
  - destruct (is_nan x) eqn:N; [|reflexivity]. apply Prim2SF_nan in N. congruence.
  - destruct (is_nan y) eqn:N; [|reflexivity]. apply Prim2SF_nan in N. congruence.
Qed.

Lemma leb_true_not_nan x y :
  PrimFloat.leb x y = true -> is_nan x = false /\ is_nan y = false.
Proof.
  rewrite leb_spec. unfold SFleb.
  destruct (SFcompare _ _) as [c|] eqn:E; [|discriminate].
  intros _. apply SFcompare_some in E. destruct E as [Ex Ey].
  split.
  - destruct (is_nan x) eqn:N; [|reflexivity]. apply Prim2SF_nan in N. congruence.
  - destruct (is_nan y) eqn:N; [|reflexivity]. apply Prim2SF_nan in N. congruence.
Qed.

(** Without NaN, "not less" is "greater or equal". *)
Lemma ltb_false_leb x y :
  is_nan x = false -> is_nan y = false ->
  PrimFloat.ltb x y = false -> PrimFloat.leb y x = true.
Proof.
  intros Hx Hy. rewrite ltb_spec, leb_spec. unfold SFltb, SFleb.
  rewrite (compare_not_nan x y Hx Hy), (compare_not_nan y x Hy Hx).
  rewrite (lex3_antisym (rank3 (Prim2SF x)) (rank3 (Prim2SF y))).
  destruct (lex3 _ _); cbn; congruence.
Qed.

Lemma ltb_leb x y : PrimFloat.ltb x y = true -> PrimFloat.leb x y = true.
Proof.
  rewrite ltb_spec, leb_spec. unfold SFltb, SFleb.
  destruct (SFcompare _ _) as [[]|]; congruence.
Qed.

Lemma leb_trans x y z :
  PrimFloat.leb x y = true -> PrimFloat.leb y z = true ->
  PrimFloat.leb x z = true.
Proof.
  rewrite !leb_spec. unfold SFleb.
  destruct (SFcompare (Prim2SF x) (Prim2SF y)) as [c1|] eqn:E1; [|discriminate].
  destruct (SFcompare (Prim2SF y) (Prim2SF z)) as [c2|] eqn:E2; [|discriminate].
  destruct (SFcompare_some _ _ _ E1) as [Nx Ny].
  destruct (SFcompare_some _ _ _ E2) as [_ Nz].
  rewrite SFcompare_lex3 in E1, E2 |- * by assumption.
  injection E1 as E1. injection E2 as E2.
  intros H1 H2.
  assert (G : lex3 (rank3 (Prim2SF x)) (rank3 (Prim2SF z)) <> Gt).
  { apply lex3_le_trans with (b := rank3 (Prim2SF y)).
    - rewrite E1. destruct c1; congruence.
    - rewrite E2. destruct c2; congruence. }
  destruct (lex3 (rank3 (Prim2SF x)) (rank3 (Prim2SF z))); congruence.
Qed.

Lemma lex3_refl a : lex3 a a = Eq.
Proof.
  destruct a as [[a1 a2] a3]. unfold lex3. now rewrite !Z.compare_refl.
Qed.

Lemma eqb_refl x : is_nan x = false -> PrimFloat.eqb x x = true.
Proof.
  intros N. rewrite eqb_spec. unfold SFeqb.
  now rewrite (compare_not_nan x x N N), lex3_refl.
Qed.

Lemma leb_antisym x y :
  PrimFloat.leb x y = true -> PrimFloat.leb y x = true ->
  PrimFloat.eqb x y = true.
Proof.
  intros Hxy Hyx. destruct (leb_true_not_nan _ _ Hxy) as [Nx Ny].
  revert Hxy Hyx. rewrite !leb_spec, eqb_spec. unfold SFleb, SFeqb.
  rewrite (compare_not_nan x y Nx Ny), (compare_not_nan y x Ny Nx).
  rewrite (lex3_antisym (rank3 (Prim2SF x)) (rank3 (Prim2SF y))).
  destruct (lex3 _ _); cbn; congruence.
Qed.

(** Two floats equal to a third are not ordered by [<]. *)
Lemma eqb_not_ltb x y k :
  PrimFloat.eqb x k = true -> PrimFloat.eqb y k = true ->
  PrimFloat.ltb x y = false.
Proof.
  intros Hx Hy.
  destruct (eqb_true_not_nan _ _ Hx) as [Nx Nk].
  destruct (eqb_true_not_nan _ _ Hy) as [Ny _].
  revert Hx Hy. rewrite !eqb_spec, ltb_spec. unfold SFeqb, SFltb.
  rewrite !compare_not_nan by assumption.
  intros Hx Hy.
  rewrite (lex3_eq_eq _ _ (rank3 (Prim2SF k))).
  - reflexivity.
  - destruct (lex3 (rank3 (Prim2SF x)) _); congruence.
  - destruct (lex3 (rank3 (Prim2SF y)) _); congruence.
Qed.

Lemma lex3_lt_le_trans a b c :
  lex3 a b = Lt -> lex3 b c <> Gt -> lex3 a c = Lt.
Proof.
  destruct a as [[a1 a2] a3], b as [[b1 b2] b3], c as [[c1 c2] c3].
  lex3_cases.
Qed.

(** [<] goes along with [<=]. *)
Lemma ltb_leb_trans x y z :
  PrimFloat.ltb x y = true -> PrimFloat.leb y z = true ->
  PrimFloat.ltb x z = true.
Proof.
  intros Hxy Hyz.
  destruct (ltb_true_not_nan _ _ Hxy) as [Nx Ny].
  destruct (leb_true_not_nan _ _ Hyz) as [_ Nz].
  revert Hxy Hyz. rewrite !ltb_spec, leb_spec. unfold SFltb, SFleb.
  rewrite !compare_not_nan by assumption.
  intros Hxy Hyz.
  rewrite (lex3_lt_le_trans _ (rank3 (Prim2SF y))).
  - reflexivity.
  - destruct (lex3 (rank3 (Prim2SF x)) _); congruence.
  - destruct (lex3 (rank3 (Prim2SF y)) _); congruence.
Qed.

Lemma ltb_trans x y z :
  PrimFloat.ltb x y = true -> PrimFloat.ltb y z = true ->
  PrimFloat.ltb x z = true.
Proof.
  intros Hxy Hyz. apply ltb_leb_trans with (y := y); [exact Hxy|].
  now apply ltb_leb.
Qed.

Lemma leb_not_ltb x y :
  PrimFloat.leb x y = true -> PrimFloat.ltb y x = false.
Proof.
  intros H. destruct (leb_true_not_nan _ _ H) as [Nx Ny].
  revert H. rewrite leb_spec, ltb_spec. unfold SFleb, SFltb.
  rewrite (compare_not_nan x y Nx Ny), (compare_not_nan y x Ny Nx).
  rewrite (lex3_antisym (rank3 (Prim2SF x)) (rank3 (Prim2SF y))).
  destruct (lex3 _ _); cbn; congruence.
Qed.

(** Comparison with an integer is decided unless the float is NaN. *)
Lemma compare_int_not_nan x n :
  is_nan x = false -> compare_int x n <> None.
Proof.
  intros H. apply not_nan_Prim2SF in H. unfold compare_int.
  destruct (Prim2SF x) as [s|s| |s m e]; cbv zeta;
    repeat match goal with
           | |- context [if ?b then _ else _] => destruct b
           end;
    congruence.
Qed.

Lemma gt_int_false_le x n :
  is_nan x = false -> gt_int x n = false -> le_int x n = true.
Proof.
  intros H. apply (compare_int_not_nan x n) in H. unfold gt_int, le_int.
  destruct (compare_int x n) as [[]|]; congruence.
Qed.

Lemma lt_int_false_ge x n :
  is_nan x = false -> lt_int x n = false -> ge_int x n = true.
Proof.
  intros H. apply (compare_int_not_nan x n) in H. unfold lt_int, ge_int.
  destruct (compare_int x n) as [[]|]; congruence.
Qed.

End FloatOrder.

(** ** Sorted lists *)

Lemma StronglySorted_app_inv {A : Type} (R : A -> A -> Prop) (l1 l2 : list A) :
  StronglySorted R (l1 ++ l2) ->
  forall a b, In a l1 -> In b l2 -> R a b.
Proof.
  induction l1 as [|x l1 IH]; cbn; intros H a b Ha Hb; [contradiction|].
  inversion H as [|? ? Hs Hx]; subst. destruct Ha as [<-|Ha].
  - rewrite Forall_forall in Hx. apply Hx, in_or_app. now right.
  - now apply IH.
Qed.

Lemma StronglySorted_app_l {A : Type} (R : A -> A -> Prop) (l1 l2 : list A) :
  StronglySorted R (l1 ++ l2) -> StronglySorted R l1.
Proof.
  induction l1 as [|x l1 IH]; cbn; intros H; [constructor|].
  inversion H as [|? ? Hs Hx]; subst. constructor; [now apply IH|].
  rewrite Forall_app in Hx. tauto.
Qed.

Lemma StronglySorted_app_r {A : Type} (R : A -> A -> Prop) (l1 l2 : list A) :
  StronglySorted R (l1 ++ l2) -> StronglySorted R l2.
Proof.
  induction l1 as [|x l1 IH]; cbn; intros H; [exact H|].
  inversion H; subst. now apply IH.
Qed.

Lemma StronglySorted_app {A : Type} (R : A -> A -> Prop) (l1 l2 : list A) :
  StronglySorted R l1 -> StronglySorted R l2 ->
  (forall a b, In a l1 -> In b l2 -> R a b) ->
  StronglySorted R (l1 ++ l2).
Proof.
  intros H1 H2 H. induction H1 as [|x l1 H1 IH Hx]; cbn; [exact H2|].
  constructor.
  - apply IH. intros a b Ha Hb. apply H; [now right|exact Hb].
  - apply Forall_app. split; [exact Hx|].
    apply Forall_forall. intros b Hb. apply H; [now left|exact Hb].
Qed.

Lemma StronglySorted_rev {A : Type} (R : A -> A -> Prop) (l : list A) :
  StronglySorted R l -> StronglySorted (fun a b => R b a) (rev l).
Proof.
  induction 1 as [|x l H IH Hx]; cbn; [constructor|].
  apply StronglySorted_app; [exact IH|repeat constructor|].
  intros a b Ha [<-|[]]. rewrite Forall_forall in Hx.
  apply Hx. now apply in_rev.
Qed.

Lemma skipn_nth {A : Type} (p : nat) (l : list A) (d : A) :
  (p < List.length l)%nat -> skipn p l = nth p l d :: skipn (S p) l.
Proof.
  revert p. induction l as [|x l IH]; intros [|p] H; cbn in *; try lia.
  - reflexivity.
  - apply IH. lia.
Qed.

Lemma firstn_S_nth {A : Type} (p : nat) (l : list A) (d : A) :
  (p < List.length l)%nat -> firstn (S p) l = firstn p l ++ [nth p l d].
Proof.
  revert p. induction l as [|x l IH]; intros [|p] H; cbn in *; try lia.
  - reflexivity.
  - f_equal. apply IH. lia.
Qed.

Lemma rev_short {A : Type} (l : list A) :
  (List.length l <= 1)%nat -> rev l = l.
Proof. destruct l as [|x [|y l]]; cbn; intros H; try reflexivity; lia. Qed.

(** ** The sort *)

Section SortFacts.

Context {A : Type}.
Implicit Types (x y pivot : float * A) (l run rest : list (float * A)).

(** *** The result is an arrangement of the list, whatever the keys *)

Lemma insert_perm (pos : nat) pivot run :
  Permutation (firstn pos run ++ pivot :: skipn pos run) (pivot :: run).
Proof.
  symmetry. rewrite <- (firstn_skipn pos run) at 1. apply Permutation_middle.
Qed.

Lemma binarysort_perm run rest :
  Permutation (binarysort run rest) (run ++ rest).
Proof.
  revert run. induction rest as [|pivot rest IH]; intros run; cbn.
  - now rewrite app_nil_r.
  - rewrite IH, insert_perm. cbn. apply Permutation_middle.
Qed.

Lemma listsort_perm l : Permutation (listsort l) l.
Proof.
  unfold listsort. destruct (count_run l) as [n descending].
  rewrite binarysort_perm.
  transitivity (firstn n l ++ skipn n l); [|now rewrite firstn_skipn].
  apply Permutation_app_tail.
  destruct descending; [symmetry; apply Permutation_rev|reflexivity].
Qed.

Lemma sort_desc_perm l : Permutation (sort_desc l) l.
Proof.
  unfold sort_desc.
  rewrite <- Permutation_rev, listsort_perm. symmetry. apply Permutation_rev.
Qed.

Lemma sort_desc_length l : List.length (sort_desc l) = List.length l.
Proof. apply Permutation_length, sort_desc_perm. Qed.

(** *** The binary search *)

(** The search has ended when its fuel is the distance of the two
    positions: more fuel changes nothing. *)
Lemma bisect_fuel (fuel fuel' : nat) pivot run (lo hi : nat) :
  (hi - lo <= fuel)%nat -> (hi - lo <= fuel')%nat ->
  bisect fuel pivot run lo hi = bisect fuel' pivot run lo hi.
Proof.
  revert fuel' lo hi.
  induction fuel as [|fuel IH]; intros [|fuel'] lo hi H H'; cbn [bisect];
    try reflexivity;
    destruct (Nat.ltb_spec lo hi) as [L|L]; try reflexivity; try lia.
  pose proof (Nat.lt_div2 (hi - lo)) as D.
  set (d := Nat.div2 (hi - lo)) in *. clearbody d.
  destruct (islt pivot (nth (lo + d) run pivot)); apply IH; lia.
Qed.

(** On a sorted run without NaN the search finds the place of the
    pivot: behind the elements that are not greater, before the elements
    that are greater. *)
Lemma sorted_at (p : nat) run (d : float * A) :
  StronglySorted key_le run -> (p < List.length run)%nat ->
  (forall a, In a (firstn p run) -> key_le a (nth p run d)) /\
  (forall b, In b (skipn (S p) run) -> key_le (nth p run d) b).
Proof.
  intros S L. rewrite <- (firstn_skipn p run), (skipn_nth p run d L) in S.
  split.
  - intros a Ha. apply (StronglySorted_app_inv _ _ _ S a); [exact Ha|now left].
  - intros b Hb. apply StronglySorted_app_r in S.
    inversion S as [|? ? _ F]; subst. rewrite Forall_forall in F. now apply F.
Qed.

Lemma bisect_spec (fuel : nat) pivot run (lo hi : nat) :
  StronglySorted key_le run -> Forall key_ordered run -> key_ordered pivot ->
  (lo <= hi <= List.length run)%nat -> (hi - lo <= fuel)%nat ->
  Forall (fun e => islt pivot e = false) (firstn lo run) ->
  Forall (fun e => islt pivot e = true) (skipn hi run) ->
  Forall (fun e => islt pivot e = false)
    (firstn (bisect fuel pivot run lo hi) run) /\
  Forall (fun e => islt pivot e = true)
    (skipn (bisect fuel pivot run lo hi) run).
Proof.
  intros S O Np. revert lo hi.
  induction fuel as [|fuel IH]; intros lo hi B F Hlo Hhi; cbn [bisect].
  - replace hi with lo in Hhi by lia. now split.
  - destruct (Nat.ltb_spec lo hi) as [L|L];
      [|replace hi with lo in Hhi by lia; now split].
    pose proof (Nat.lt_div2 (hi - lo)) as D.
    set (d := Nat.div2 (hi - lo)) in *. clearbody d.
    assert (P : (lo + d < List.length run)%nat) by lia.
    destruct (sorted_at (lo + d) run pivot S P) as [Before After].
    assert (Ne : key_ordered (nth (lo + d) run pivot)).
    { rewrite Forall_forall in O. apply O. now apply nth_In. }
    destruct (islt pivot (nth (lo + d) run pivot)) eqn:E.
    + apply IH; [lia|lia|exact Hlo|].
      rewrite (skipn_nth _ _ pivot P). constructor; [exact E|].
      apply Forall_forall. intros b Hb. unfold islt.
      apply FloatOrder.ltb_leb_trans with (y := fst (nth (lo + d) run pivot));
        [exact E|now apply After].
    + apply IH; [lia|lia| |exact Hhi].
      rewrite (firstn_S_nth _ _ pivot P). apply Forall_app. split.
      * apply Forall_forall. intros a Ha. unfold islt.
        apply FloatOrder.leb_not_ltb.
        apply FloatOrder.leb_trans with (y := fst (nth (lo + d) run pivot));
          [now apply Before|].
        now apply FloatOrder.ltb_false_leb.
      * now repeat constructor.
Qed.

(** The run with the pivot at such a place is sorted, and the elements
    of each key are in the order they had with the pivot behind them. *)
Lemma insert_sorted (pos : nat) pivot run :
  StronglySorted key_le run -> Forall key_ordered run -> key_ordered pivot ->
  Forall (fun e => islt pivot e = false) (firstn pos run) ->
  Forall (fun e => islt pivot e = true) (skipn pos run) ->
  StronglySorted key_le (firstn pos run ++ pivot :: skipn pos run).
Proof.
  intros S O Np Hb Ha. rewrite Forall_forall in Hb, Ha, O.
  pose proof S as S'. rewrite <- (firstn_skipn pos run) in S'.
  apply StronglySorted_app.
  - now apply StronglySorted_app_l in S'.
  - constructor; [now apply StronglySorted_app_r in S'|].
    apply Forall_forall. intros b Hin. apply FloatOrder.ltb_leb.
    now apply Ha.
  - intros a b Hin [<-|Hin'].
    + apply FloatOrder.ltb_false_leb; [exact Np| |now apply Hb].
      apply O. rewrite <- (firstn_skipn pos run). apply in_or_app. now left.
    + now apply (StronglySorted_app_inv _ _ _ S').
Qed.

Lemma insert_filter (k : float) (pos : nat) pivot run :
  Forall (fun e => islt pivot e = true) (skipn pos run) ->
  filter (key_is k) (firstn pos run ++ pivot :: skipn pos run) =
  filter (key_is k) (run ++ [pivot]).
Proof.
  intros Ha. rewrite <- (firstn_skipn pos run) at 3.
  rewrite !filter_app, <- app_assoc. f_equal. cbn [filter].
  destruct (key_is k pivot) eqn:Kp; [|now rewrite app_nil_r].
  assert (E : filter (key_is k) (skipn pos run) = []).
  { destruct (filter (key_is k) (skipn pos run)) as [|b t] eqn:F;
      [reflexivity|].
    assert (Hb : In b (filter (key_is k) (skipn pos run)))
      by (rewrite F; now left).
    apply filter_In in Hb. destruct Hb as [Hb Kb].
    rewrite Forall_forall in Ha. specialize (Ha b Hb).
    unfold islt in Ha. unfold key_is in Kp, Kb.
    rewrite (FloatOrder.eqb_not_ltb _ _ _ Kp Kb) in Ha. discriminate. }
  rewrite E. reflexivity.
Qed.

Lemma binarysort_spec run rest :
  StronglySorted key_le run -> Forall key_ordered run ->
  Forall key_ordered rest ->
  StronglySorted key_le (binarysort run rest) /\
  forall k, filter (key_is k) (binarysort run rest) =
            filter (key_is k) (run ++ rest).
Proof.
  revert run. induction rest as [|pivot rest IH]; intros run S O Or;
    cbn [binarysort].
  - split; [exact S|]. intros k. now rewrite app_nil_r.
  - inversion Or as [|? ? Np Or']; subst.
    assert (Hb0 : Forall (fun e => islt pivot e = false) (firstn 0 run))
      by constructor.
    assert (Ha0 : Forall (fun e => islt pivot e = true)
                    (skipn (List.length run) run))
      by (rewrite skipn_all; constructor).
    destruct (bisect_spec (List.length run) pivot run 0 (List.length run)
                S O Np ltac:(lia) ltac:(lia) Hb0 Ha0) as [Hb Ha].
    destruct (IH (firstn (bisect (List.length run) pivot run 0
                            (List.length run)) run
                  ++ pivot :: skipn (bisect (List.length run) pivot run 0
                                       (List.length run)) run))
      as [S' F']; auto.
    + now apply insert_sorted.
    + apply Forall_forall. intros z Hz.
      apply (Permutation_in _ (insert_perm _ pivot run)) in Hz.
      destruct Hz as [<-|Hz]; [exact Np|].
      rewrite Forall_forall in O. now apply O.
    + split; [exact S'|]. intros k.
      rewrite F', (filter_app _ (firstn _ run ++ _) rest).
      rewrite insert_filter by exact Ha.
      rewrite <- filter_app, <- app_assoc. reflexivity.
Qed.

(** The run the list starts with. *)
Lemma run_sorted (descending : bool) x l :
  Forall key_ordered (x :: l) ->
  Sorted (if descending then key_gt else key_le)
    (x :: firstn (run_length descending x l) l).
Proof.
  revert x. induction l as [|y l IH]; intros x O; cbn [run_length].
  - repeat constructor.
  - inversion O as [|? ? Nx O']; subst. inversion O' as [|? ? Ny _]; subst.
    destruct (islt y x) eqn:E, descending; cbn [Bool.eqb firstn];
      try (repeat constructor; fail).
    + constructor; [now apply IH|]. constructor. exact E.
    + constructor; [now apply IH|]. constructor.
      now apply FloatOrder.ltb_false_leb.
Qed.

Lemma key_le_trans : Relation_Definitions.transitive _ (@key_le A).
Proof. intros x y z. apply FloatOrder.leb_trans. Qed.

Lemma key_gt_trans : Relation_Definitions.transitive _ (@key_gt A).
Proof.
  intros x y z Hxy Hyz. unfold key_gt in *.
  now apply FloatOrder.ltb_trans with (y := fst y).
Qed.

(** In a strictly descending run no key occurs twice. *)
Lemma descending_filter (k : float) l :
  StronglySorted key_gt l -> (List.length (filter (key_is k) l) <= 1)%nat.
Proof.
  induction 1 as [|x l S IH Hx]; cbn [filter]; [cbn; lia|].
  destruct (key_is k x) eqn:Kx; [|exact IH].
  assert (E : filter (key_is k) l = []).
  { destruct (filter (key_is k) l) as [|b t] eqn:F; [reflexivity|].
    assert (Hb : In b (filter (key_is k) l)) by (rewrite F; now left).
    apply filter_In in Hb. destruct Hb as [Hb Kb].
    rewrite Forall_forall in Hx. specialize (Hx b Hb).
    unfold key_gt in Hx. unfold key_is in Kx, Kb.
    rewrite (FloatOrder.eqb_not_ltb _ _ _ Kb Kx) in Hx. discriminate. }
  rewrite E. cbn. lia.
Qed.

Lemma first_run_spec l :
  Forall key_ordered l ->
  let run := firstn (fst (count_run l)) l in
  StronglySorted key_le (if snd (count_run l) then rev run else run) /\
  forall k, filter (key_is k) (if snd (count_run l) then rev run else run) =
            filter (key_is k) run.
Proof.
  intros O. destruct l as [|x [|y l]];
    cbn [count_run fst snd Nat.add firstn].
  - split; [constructor|reflexivity].
  - split; [repeat constructor|reflexivity].
  - inversion O as [|? ? Nx O']; subst. inversion O' as [|? ? Ny _]; subst.
    pose proof (run_sorted (islt y x) y l O') as R.
    destruct (islt y x) eqn:E.
    + assert (S : StronglySorted key_gt
                    (x :: y :: firstn (run_length true y l) l)).
      { apply Sorted_StronglySorted; [exact key_gt_trans|].
        constructor; [exact R|]. constructor. exact E. }
      split.
      * apply StronglySorted_rev in S.
        clear - S. induction S as [|a t S IH Ha]; [constructor|].
        constructor; [exact IH|].
        apply Forall_forall. intros b Hb. rewrite Forall_forall in Ha.
        apply FloatOrder.ltb_leb. now apply Ha.
      * intros k. rewrite filter_rev. apply rev_short.
        now apply descending_filter.
    + split; [|reflexivity].
      apply Sorted_StronglySorted; [exact key_le_trans|].
      constructor; [exact R|]. constructor.
      now apply FloatOrder.ltb_false_leb.
Qed.

Lemma listsort_spec l :
  Forall key_ordered l ->
  StronglySorted key_le (listsort l) /\
  forall k, filter (key_is k) (listsort l) = filter (key_is k) l.
Proof.
  intros O. destruct (first_run_spec l O) as [S F].
  unfold listsort. destruct (count_run l) as [n descending]. cbn [fst snd] in *.
  assert (O1 : Forall key_ordered (firstn n l) /\ Forall key_ordered (skipn n l)).
  { rewrite <- (firstn_skipn n l) in O. now apply Forall_app in O. }
  destruct O1 as [O1 O2].
  destruct (binarysort_spec
              (if descending then rev (firstn n l) else firstn n l)
              (skipn n l)) as [S' F']; auto.
  { destruct descending; [|exact O1].
    apply Forall_forall. intros z Hz. apply in_rev in Hz.
    rewrite Forall_forall in O1. now apply O1. }
  split; [exact S'|]. intros k.
  rewrite F', filter_app, F, <- filter_app, firstn_skipn. reflexivity.
Qed.

Lemma sort_desc_sorted l :
  Forall key_ordered l -> StronglySorted key_ge (sort_desc l).
Proof.
  intros O. unfold sort_desc.
  apply (StronglySorted_rev key_le). apply listsort_spec.
  apply Forall_forall. intros z Hz. apply in_rev in Hz.
  rewrite Forall_forall in O. now apply O.
Qed.

(** The sort is stable: the items with a given key keep their order. *)
Lemma sort_desc_filter k l :
  Forall key_ordered l ->
  filter (key_is k) (sort_desc l) = filter (key_is k) l.
Proof.
  intros O. unfold sort_desc. rewrite filter_rev.
  destruct (listsort_spec (rev l)) as [_ F].
  - apply Forall_forall. intros z Hz. apply in_rev in Hz.
    rewrite Forall_forall in O. now apply O.
  - rewrite F, filter_rev. apply rev_involutive.
Qed.

(** With no NaN among the keys there is one arrangement that has the
    larger keys first and keeps the order of equal keys: whatever
    algorithm a stable sort runs, it returns [sort_desc]. *)
Lemma stable_sorted_unique l1 l2 :
  Forall key_ordered l1 -> Forall key_ordered l2 ->
  StronglySorted key_ge l1 -> StronglySorted key_ge l2 ->
  (forall k, filter (key_is k) l1 = filter (key_is k) l2) ->
  l1 = l2.
Proof.
  revert l2. induction l1 as [|x l1 IH]; intros l2 O1 O2 S1 S2 H.
  - destruct l2 as [|y l2]; [reflexivity|].
    inversion O2 as [|? ? Ny _]; subst.
    assert (Ky : key_is (fst y) y = true) by now apply FloatOrder.eqb_refl.
    specialize (H (fst y)). cbn [filter] in H. rewrite Ky in H.
    discriminate.
  - inversion O1 as [|? ? Nx O1']; subst.
    inversion S1 as [|? ? S1' G1]; subst.
    assert (Kx : key_is (fst x) x = true) by now apply FloatOrder.eqb_refl.
    destruct l2 as [|y l2].
    { specialize (H (fst x)). cbn [filter] in H. rewrite Kx in H. discriminate. }
    inversion O2 as [|? ? Ny O2']; subst.
    inversion S2 as [|? ? S2' G2]; subst.
    rewrite Forall_forall in G1, G2.
    assert (Ky : key_is (fst y) y = true) by now apply FloatOrder.eqb_refl.
    assert (E : x = y).
    { pose proof (H (fst x)) as Hx. cbn [filter] in Hx. rewrite Kx in Hx.
      destruct (key_is (fst x) y) eqn:Kxy; [congruence|].
      exfalso.
      assert (Ix : In x l2).
      { assert (I : In x (filter (key_is (fst x)) l2))
          by (rewrite <- Hx; now left).
        now apply filter_In in I. }
      assert (Iy : In y l1).
      { pose proof (H (fst y)) as Hy. cbn [filter] in Hy. rewrite Ky in Hy.
        assert (I : In y (if key_is (fst y) x
                          then x :: filter (key_is (fst y)) l1
                          else filter (key_is (fst y)) l1))
          by (rewrite Hy; now left).
        destruct (key_is (fst y) x) eqn:Kyx.
        - destruct I as [->|I]; [congruence|]. now apply filter_In in I.
        - now apply filter_In in I. }
      pose proof (G1 y Iy) as Lyx. pose proof (G2 x Ix) as Lxy.
      unfold key_ge in Lyx, Lxy. unfold key_is in Kxy.
      rewrite (FloatOrder.leb_antisym _ _ Lyx Lxy) in Kxy. discriminate. }
    subst y. f_equal. apply IH; auto.
    intros k. specialize (H k). cbn [filter] in H.
    destruct (key_is k x); congruence.
Qed.

Lemma stable_sort_is_sort_desc l l' :
  Forall key_ordered l ->
  Permutation l' l -> StronglySorted key_ge l' ->
  (forall k, filter (key_is k) l' = filter (key_is k) l) ->
  l' = sort_desc l.
Proof.
  intros O P S F.
  assert (O' : forall m, Permutation m l -> Forall key_ordered m).
  { intros m Pm. apply Forall_forall. intros z Hz.
    rewrite Forall_forall in O. apply O.
    now apply (Permutation_in _ Pm). }
  apply stable_sorted_unique; auto.
  - apply O', sort_desc_perm.
  - now apply sort_desc_sorted.
  - intros k. now rewrite F, sort_desc_filter.
Qed.

End SortFacts.

(** ** Lists *)

Lemma filter_firstn {A : Type} (f : A -> bool) (n : nat) (l : list A) :
  exists m, filter f (firstn n l) = firstn m (filter f l).
Proof.
  revert n. induction l as [|x l IH]; intros n.
  - exists 0. now destruct n.
  - destruct n as [|n].
    + now exists 0.
    + cbn. destruct (IH n) as [m Hm]. destruct (f x).
      * exists (S m). cbn. now rewrite Hm.
      * now exists m.
Qed.

Lemma In_firstn {A : Type} (x : A) (n : nat) (l : list A) :
  In x (firstn n l) -> In x l.
Proof.
  revert n. induction l as [|y l IH]; intros [|n]; cbn; try tauto.
  intros [->|H]; [now left|right; eauto].
Qed.

Lemma StronglySorted_firstn {A : Type} (R : A -> A -> Prop) (n : nat) (l : list A) :
  StronglySorted R l -> StronglySorted R (firstn n l).
Proof.
  intros H. revert n. induction H as [|x l H IH Hx]; intros n.
  - destruct n; constructor.
  - destruct n; cbn; constructor.
    + apply IH.
    + apply Forall_forall. intros y Hy. rewrite Forall_forall in Hx.
      apply Hx. eapply In_firstn. exact Hy.
Qed.

Lemma mapM_Forall2 {A B : Type} (f : A -> result B) (l : list A) (ys : list B) :
  mapM f l = Ok ys -> Forall2 (fun x y => f x = Ok y) l ys.
Proof.
  revert ys. induction l as [|x l IH]; cbn; intros ys H.
  - injection H as <-. constructor.
  - destruct (f x) as [y|e] eqn:E; cbn in H; [|discriminate].
    destruct (mapM f l) as [ys'|e]; cbn in H; [|discriminate].
    injection H as <-. constructor; auto.
Qed.

Lemma mapM_raises {A B : Type} (f : A -> result B) (l : list A) (x : A) :
  In x l -> raises (f x) -> raises (mapM f l).
Proof.
  intros Hin [e He]. induction l as [|y l IH]; [contradiction|].
  cbn. destruct Hin as [->|Hin].
  - rewrite He. now exists e.
  - destruct (f y) as [b|e']; cbn; [|now exists e'].
    destruct (IH Hin) as [e' ->]. now exists e'.
Qed.

Lemma mapM_ok {A B : Type} (f : A -> result B) (l : list A) :
  (forall x, In x l -> is_ok (f x) = true) -> exists ys, mapM f l = Ok ys.
Proof.
  induction l as [|x l IH]; intros H.
  - now exists [].
  - cbn. destruct (f x) as [y|e] eqn:E.
    + destruct IH as [ys ->]; [intros; apply H; now right|].
      now exists (y :: ys).
    + specialize (H x (or_introl eq_refl)). rewrite E in H. discriminate.
Qed.

(** ** Strings *)

Lemma prefix_iff (x s : string) :
  String.prefix x s = true <-> exists post, s = (x ++ post)%string.
Proof.
  revert s. induction x as [|a x IH]; intros s.
  - split; [intros _; now exists s|intros _; now destruct s].
  - destruct s as [|b s]; cbn.
    + split; [discriminate|intros [? ?]; discriminate].
    + destruct (Ascii.ascii_dec a b) as [->|N].
      * rewrite IH. split; intros [post H]; exists post; congruence.
      * split; [discriminate|]. intros [post H]. congruence.
Qed.

Lemma str_in_unfold (x s : string) :
  str_in x s =
  if String.prefix x s then true
  else match s with
       | EmptyString => false
       | String _ s' => str_in x s'
       end.
Proof. now destruct s. Qed.

Lemma str_in_iff (x s : string) : str_in x s = true <-> occurs_in x s.
Proof.
  split.
  - induction s as [|c s IH]; rewrite str_in_unfold;
      destruct (String.prefix x _) eqn:E.
    + intros _. apply prefix_iff in E. destruct E as [post E].
      now exists ""%string, post.
    + discriminate.
    + intros _. apply prefix_iff in E. destruct E as [post E].
      now exists ""%string, post.
    + intros H. destruct (IH H) as (pre & post & ->).
      now exists (String c pre), post.
  - intros (pre & post & ->). induction pre as [|c pre IH].
    + rewrite str_in_unfold.
      assert (E : String.prefix x ("" ++ x ++ post) = true)
        by (apply prefix_iff; now exists post).
      now rewrite E.
    + rewrite str_in_unfold. cbn [String.append]. rewrite IH.
      now destruct (String.prefix x _).
Qed.

Lemma any_in_iff (xs : list string) (s : string) :
  any_in xs s = true <-> exists x, In x xs /\ occurs_in x s.
Proof.
  unfold any_in. rewrite existsb_exists.
  split; intros (x & Hx & H); exists x; split; auto; now apply str_in_iff.
Qed.

(** ** The steps of the pipeline *)

Section PipelineFacts.

Variable float_of_str : string -> option float.
Variable str_lower : string -> string.
Variable MAX_CALORIES : Z.
Variable MIN_GRAMS_PROTEIN : Z.

Local Abbreviation float_' := (float_ float_of_str).
Local Abbreviation normalize_item' := (normalize_item float_of_str str_lower).
Local Abbreviation allowed' := (allowed MAX_CALORIES MIN_GRAMS_PROTEIN).
Local Abbreviation process_future' :=
  (process_future float_of_str str_lower MAX_CALORIES MIN_GRAMS_PROTEIN).
Local Abbreviation get_healthy_meals' :=
  (get_healthy_meals float_of_str str_lower MAX_CALORIES MIN_GRAMS_PROTEIN).
Local Abbreviation top_meals' :=
  (top_meals float_of_str str_lower MAX_CALORIES MIN_GRAMS_PROTEIN).

(** *** [allowed] *)

Lemma allowed_true_iff (r : NutritionRecord) :
  allowed' r = Ok true <->
  exists c p, calories r = Some c /\ protein_g r = Some p /\
              gt_int c MAX_CALORIES = false /\
              lt_int p MIN_GRAMS_PROTEIN = false.
Proof.
  unfold allowed, opt_gt, opt_lt. split.
  - destruct (calories r) as [c|]; cbn; [|discriminate].
    destruct (gt_int c MAX_CALORIES) eqn:Ec; [discriminate|].
    destruct (protein_g r) as [p|]; cbn; [|discriminate].
    destruct (lt_int p MIN_GRAMS_PROTEIN) eqn:Ep; [discriminate|].
    intros _. now exists c, p.
  - intros (c & p & -> & -> & Ec & Ep). cbn. rewrite Ec. cbn. now rewrite Ep.
Qed.

(** *** [get_healthy_meals] *)

Lemma process_future_app (meals : list NutritionRecord) done :
  process_future' meals done = meals ++ process_future' [] done.
Proof.
  unfold process_future. destruct done as [item future].
  destruct (bind future _) as [[[] r]|e]; cbn; now rewrite ?app_nil_r.
Qed.

Lemma fold_process_future completed (meals : list NutritionRecord) :
  fold_left process_future' completed meals =
  meals ++ flat_map (process_future' []) completed.
Proof.
  revert meals. induction completed as [|done completed IH]; intros meals; cbn.
  - now rewrite app_nil_r.
  - rewrite IH, process_future_app, <- app_assoc. reflexivity.
Qed.

Lemma get_healthy_meals_flat_map completed :
  get_healthy_meals' completed = flat_map (process_future' []) completed.
Proof. unfold get_healthy_meals. now rewrite fold_process_future. Qed.

Lemma get_healthy_meals_app c1 c2 :
  get_healthy_meals' (c1 ++ c2) = get_healthy_meals' c1 ++ get_healthy_meals' c2.
Proof. rewrite !get_healthy_meals_flat_map. apply flat_map_app. Qed.

Lemma get_healthy_meals_cons done completed :
  get_healthy_meals' (done :: completed) =
  process_future' [] done ++ get_healthy_meals' completed.
Proof. now rewrite !get_healthy_meals_flat_map. Qed.

(** An item whose fetch, normalization or filter raises leaves no trace. *)
Lemma process_future_raises meals item future :
  raises (raw <- future ;;
          normalized <- normalize_item' raw (item_name item) (item_id item) ;;
          keep <- allowed' normalized ;;
          Ok (keep, normalized)) ->
  process_future' meals (item, future) = meals.
Proof.
  intros [e He]. unfold process_future. now rewrite He.
Qed.

(** What is kept was fetched, normalized and allowed. *)
Lemma In_get_healthy_meals completed r :
  In r (get_healthy_meals' completed) ->
  exists item raw,
    In (item, Ok raw) completed /\
    normalize_item' raw (item_name item) (item_id item) = Ok r /\
    allowed' r = Ok true.
Proof.
  rewrite get_healthy_meals_flat_map, in_flat_map.
  intros ([item future] & Hin & Hr).
  unfold process_future in Hr.
  destruct future as [raw|e]; cbn in Hr; [|contradiction].
  destruct (normalize_item' raw _ _) as [n|e] eqn:En; cbn in Hr; [|contradiction].
  destruct (allowed' n) as [[]|e] eqn:Ea; cbn in Hr; try contradiction.
  destruct Hr as [<-|[]]. now exists item, raw.
Qed.

(** *** The ranking *)

Lemma sorted_by_score_inv meals ranked :
  sorted_by_score meals = Ok ranked ->
  exists keys,
    mapM score meals = Ok keys /\
    ranked = map snd (sort_desc (combine keys meals)).
Proof.
  unfold sorted_by_score. destruct (mapM score meals) as [keys|e]; cbn.
  - intros [= <-]. now exists keys.
  - discriminate.
Qed.

Lemma top_meals_firstn completed out :
  top_meals' completed = Ok out ->
  exists ranked,
    sorted_by_score (get_healthy_meals' completed) = Ok ranked /\
    out = firstn TOP_N ranked.
Proof.
  unfold top_meals.
  destruct (sorted_by_score _) as [ranked|e]; cbn [bind]; [|discriminate].
  intros H. exists ranked. split; [reflexivity|congruence].
Qed.

Lemma top_meals_inv completed out :
  top_meals' completed = Ok out ->
  exists keys,
    mapM score (get_healthy_meals' completed) = Ok keys /\
    out = firstn TOP_N
            (map snd (sort_desc (combine keys (get_healthy_meals' completed)))).
Proof.
  intros H. apply top_meals_firstn in H. destruct H as (ranked & E & ->).
  apply sorted_by_score_inv in E. destruct E as (keys & E & ->).
  now exists keys.
Qed.

Lemma combine_keys (meals : list NutritionRecord) keys :
  Forall2 (fun r k => score r = Ok k) meals keys ->
  map snd (combine keys meals) = meals /\
  Forall (fun p => score (snd p) = Ok (fst p)) (combine keys meals).
Proof.
  induction 1 as [|r k meals keys H _ [IH1 IH2]]; cbn.
  - split; constructor.
  - split; [now rewrite IH1|now constructor].
Qed.

Lemma sorted_by_score_perm meals ranked :
  sorted_by_score meals = Ok ranked -> Permutation ranked meals.
Proof.
  intros H. apply sorted_by_score_inv in H. destruct H as (keys & E & ->).
  apply mapM_Forall2, combine_keys in E. destruct E as [E _].
  rewrite <- E at 2. apply Permutation_map, sort_desc_perm.
Qed.

Lemma In_top_meals completed out r :
  top_meals' completed = Ok out -> In r out ->
  In r (get_healthy_meals' completed).
Proof.
  intros H Hr. apply top_meals_firstn in H. destruct H as (ranked & E & ->).
  apply In_firstn in Hr.
  eapply Permutation_in; [apply (sorted_by_score_perm _ _ E)|exact Hr].
Qed.

(** The ranking returns exactly when every kept record has a score. *)
Lemma top_meals_ok completed :
  (forall r, In r (get_healthy_meals' completed) -> is_ok (score r) = true) ->
  exists out, top_meals' completed = Ok out.
Proof.
  intros H. apply mapM_ok in H. destruct H as [keys H].
  unfold top_meals, sorted_by_score. rewrite H. cbn [bind]. eauto.
Qed.

Lemma top_meals_raises completed r :
  In r (get_healthy_meals' completed) -> raises (score r) ->
  raises (top_meals' completed).
Proof.
  intros Hin Hr. destruct (mapM_raises score _ r Hin Hr) as [e He].
  unfold top_meals, sorted_by_score. rewrite He. now exists e.
Qed.

(** *** The filter *)

(** The exception of [allowed] is caught by the loop of
    [get_healthy_meals]: the record is not kept. *)
Lemma absent_field_not_kept completed r :
  In r (get_healthy_meals' completed) ->
  calories r <> None /\ protein_g r <> None.
Proof.
  intros H. apply In_get_healthy_meals in H.
  destruct H as (_ & _ & _ & _ & Ha). apply allowed_true_iff in Ha.
  destruct Ha as (c & p & -> & -> & _). split; discriminate.
Qed.

(** An item whose record [allowed] does not accept, by returning false or
    by raising, is passed over: the result is the one of the other
    items. *)
Lemma not_allowed_dropped raw item r before after :
  normalize_item' raw (item_name item) (item_id item) = Ok r ->
  allowed' r <> Ok true ->
  get_healthy_meals' (before ++ (item, Ok raw) :: after) =
  get_healthy_meals' (before ++ after).
Proof.
  intros Hn Ha.
  rewrite !get_healthy_meals_app, get_healthy_meals_cons.
  unfold process_future at 1. cbn [bind]. rewrite Hn. cbn [bind].
  destruct (allowed' r) as [[]|e]; cbn [bind app]; congruence.
Qed.

(** C1 (as amended).  On a record whose calories or protein_g is absent
    [allowed] never returns true, but it is not total: with calories
    absent it raises TypeError; with calories present and protein_g absent
    it returns false when the calories exceed MAX_CALORIES and raises
    TypeError otherwise.  The exception is caught by the handler of the
    loop of [get_healthy_meals]: the run goes on with the other items and
    no such record is ever kept. *)
Theorem allowed_absent_field (r : NutritionRecord) :
  calories r = None \/ protein_g r = None ->
  allowed' r <> Ok true /\
  (calories r = None -> allowed' r = Raise TypeError) /\
  (forall c, calories r = Some c -> protein_g r = None ->
     allowed' r = if gt_int c MAX_CALORIES then Ok false else Raise TypeError) /\
  (forall completed,
     ~ In r (get_healthy_meals float_of_str str_lower MAX_CALORIES
               MIN_GRAMS_PROTEIN completed)) /\
  (forall raw item before after,
     normalize_item' raw (item_name item) (item_id item) = Ok r ->
     get_healthy_meals' (before ++ (item, Ok raw) :: after) =
     get_healthy_meals' (before ++ after)).
Proof.
  intros H.
  assert (N : allowed' r <> Ok true).
  { intros E. apply allowed_true_iff in E.
    destruct E as (c & p & Ec & Ep & _). destruct H; congruence. }
  split; [exact N|]. split; [|split; [|split]].
  - intros E. unfold allowed. now rewrite E.
  - intros c Ec Ep. unfold allowed. rewrite Ec, Ep. cbn.
    now destruct (gt_int c MAX_CALORIES).
  - intros completed Hin. apply absent_field_not_kept in Hin.
    destruct H; tauto.
  - intros raw item before after Hn. now apply not_allowed_dropped with (r := r).
Qed.

(** C3 (as amended).  Every record of the ranked output has calories and
    protein_g present, calories not greater than MAX_CALORIES and protein_g
    not less than MIN_GRAMS_PROTEIN in the sense of the two tests of
    [allowed]; that is calories <= MAX_CALORIES when the calories are not
    NaN, and protein_g >= MIN_GRAMS_PROTEIN when the protein is not NaN. *)
Theorem ranked_within_thresholds completed out r :
  top_meals' completed = Ok out -> In r out ->
  exists c p,
    calories r = Some c /\ protein_g r = Some p /\
    gt_int c MAX_CALORIES = false /\
    lt_int p MIN_GRAMS_PROTEIN = false /\
    (is_nan c = false -> le_int c MAX_CALORIES = true) /\
    (is_nan p = false -> ge_int p MIN_GRAMS_PROTEIN = true).
Proof.
  intros Hout Hr.
  apply (In_top_meals _ _ _ Hout), In_get_healthy_meals in Hr.
  destruct Hr as (_ & _ & _ & _ & Ha). apply allowed_true_iff in Ha.
  destruct Ha as (c & p & Ec & Ep & Hc & Hp).
  exists c, p. repeat split; auto.
  - intros N. now apply FloatOrder.gt_int_false_le.
  - intros N. now apply FloatOrder.lt_int_false_ge.
Qed.

(** *** The empty menu *)

(** C9.  With no menu item [get_healthy_meals] returns the empty list and
    the ranking returns the empty list; neither raises. *)
Theorem empty_menu_empty_ranking :
  get_healthy_meals float_of_str str_lower MAX_CALORIES MIN_GRAMS_PROTEIN []
  = [] /\
  top_meals float_of_str str_lower MAX_CALORIES MIN_GRAMS_PROTEIN []
  = Ok [].
Proof. split; reflexivity. Qed.

(** The error on an empty menu is raised before the ranking, by
    [extract_lunch_items]; on any other menu [main] is the ranking. *)
Lemma extract_lunch_items_empty : extract_lunch_items [] = Raise RuntimeError.
Proof. reflexivity. Qed.

Lemma main_empty_menu :
  main float_of_str str_lower MAX_CALORIES MIN_GRAMS_PROTEIN []
  = Raise RuntimeError.
Proof. reflexivity. Qed.

Lemma main_ranks completed :
  completed <> [] ->
  main float_of_str str_lower MAX_CALORIES MIN_GRAMS_PROTEIN completed
  = top_meals' completed.
Proof. destruct completed; [congruence|reflexivity]. Qed.

(** *** Normalization *)

Ltac raise_or_step :=
  match goal with
  | |- raises (bind ?m _) =>
      let E := fresh "E" in
      destruct m eqn:E; cbn [bind]; [|eexists; reflexivity]
  end.

Lemma normalize_item_needs_serving_size raw name id :
  has_serving_size raw id = false -> raises (normalize_item' raw name id).
Proof.
  unfold has_serving_size, nutrition_details_of, normalize_item.
  destruct (getitem raw "items") as [items|e]; cbn [bind];
    [|intros _; eexists; reflexivity].
  destruct (getitem items id) as [item|e]; cbn [bind];
    [|intros _; eexists; reflexivity].
  destruct (get item "nutrition_details" (VDict [])) as [nutrition|e];
    cbn [bind]; [|intros _; eexists; reflexivity].
  intros H. do 7 raise_or_step.
  destruct nutrition as [| | | | | |d]; try (eexists; reflexivity).
  cbn [get]. destruct (dict_get d "servingSize"); [discriminate|].
  eexists; reflexivity.
Qed.

(** C7.  When the nutrition mapping of a payload has no servingSize key,
    [normalize_item] raises, and in [get_healthy_meals] the item is
    dropped: the result is the one of the other items. *)
Theorem missing_serving_size_dropped raw id :
  has_serving_size raw id = false ->
  (forall name, raises (normalize_item' raw name id)) /\
  (forall item before after,
     item_id item = id ->
     get_healthy_meals' (before ++ (item, Ok raw) :: after) =
     get_healthy_meals' (before ++ after)).
Proof.
  intros H. split.
  - intros name. now apply normalize_item_needs_serving_size.
  - intros item before after <-.
    rewrite !get_healthy_meals_app, get_healthy_meals_cons.
    rewrite process_future_raises; [reflexivity|].
    cbn [bind].
    destruct (normalize_item_needs_serving_size raw (item_name item) _ H)
      as [e ->].
    now exists e.
Qed.

Ltac ok_step H :=
  match type of H with
  | bind ?m _ = Ok _ =>
      let E := fresh "E" in
      destruct m eqn:E; cbn [bind] in H; [|discriminate H]
  end.

(** The record [normalize_item] returns, field by field. *)
Lemma normalize_item_fields raw name0 id0 r :
  normalize_item' raw name0 id0 = Ok r ->
  exists d,
    nutrition_details_of raw id0 = Ok (VDict d) /\
    ingredients_of str_lower raw id0 = Ok (ingredients r) /\
    _num (VDict d) "calories" float_' = Ok (calories r) /\
    _num (VDict d) "proteinContent" float_' = Ok (protein_g r) /\
    _num (VDict d) "fatContent" float_' = Ok (fat_g r) /\
    _num (VDict d) "carbohydrateContent" float_' = Ok (carbs_g r) /\
    _num (VDict d) "servingSize" float_' = Ok (serving_size r) /\
    dairy_free r = negb (any_in dairy_keywords (ingredients r)) /\
    id r = id0 /\ name r = name0.
Proof.
  unfold normalize_item, nutrition_details_of, ingredients_of. intros H.
  do 12 ok_step H.
  injection H as <-. cbn.
  destruct a1 as [| | | | | |d]; try discriminate.
  exists d. rewrite E0. cbn [bind]. rewrite E1, E2. cbn [bind].
  repeat split; assumption.
Qed.

(** C10.  In the record [normalize_item] returns, ingredients is the
    lower-cased ingredient string of the payload, and dairy_free is true
    exactly when none of milk, cheese, butter, cream, whey and casein
    occurs in it. *)
Theorem dairy_free_iff raw name0 id0 r :
  normalize_item' raw name0 id0 = Ok r ->
  ingredients_of str_lower raw id0 = Ok (ingredients r) /\
  (dairy_free r = true <->
   forall x,
     In x ["milk"; "cheese"; "butter"; "cream"; "whey"; "casein"] ->
     ~ occurs_in x (ingredients r)).
Proof.
  intros H. apply normalize_item_fields in H.
  destruct H as (d & _ & Hi & _ & _ & _ & _ & _ & Hd & _).
  split; [exact Hi|]. rewrite Hd, negb_true_iff.
  fold dairy_keywords. split.
  - intros E x Hx Ho.
    assert (any_in dairy_keywords (ingredients r) = true)
      by (apply any_in_iff; eauto).
    congruence.
  - intros E. destruct (any_in _ _) eqn:A; [|reflexivity].
    apply any_in_iff in A. destruct A as (x & Hx & Ho). now destruct (E x).
Qed.

(** *** Scoring *)

Lemma score_zero_calories r c p :
  calories r = Some c -> protein_g r = Some p -> PrimFloat.eqb c 0 = true ->
  score r = Raise ZeroDivisionError.
Proof.
  intros Ec Ep Z. unfold score, get_protein_score. rewrite Ec, Ep. cbn.
  unfold truediv. now rewrite Z.
Qed.

Lemma score_no_serving_size r c p :
  calories r = Some c -> protein_g r = Some p -> serving_size r = None ->
  score r = if PrimFloat.eqb c 0 then Raise ZeroDivisionError
            else Raise TypeError.
Proof.
  intros Ec Ep Es. unfold score, get_protein_score, get_volume_score.
  rewrite Ec, Ep, Es. cbn. unfold truediv.
  now destruct (PrimFloat.eqb c 0).
Qed.

(** C5.  A record that passes the filter with serving_size absent makes
    [score] raise (TypeError, unless the calories are zero and the
    division of the protein score fails first), and since the scores are
    computed by the sort of [main], outside the try of
    [get_healthy_meals], the ranking raises instead of dropping the
    record. *)
Theorem absent_serving_size_aborts completed r :
  In r (get_healthy_meals' completed) -> serving_size r = None ->
  (score r = Raise TypeError \/ score r = Raise ZeroDivisionError) /\
  (forall c, calories r = Some c -> PrimFloat.eqb c 0 = false ->
     score r = Raise TypeError) /\
  raises (top_meals' completed).
Proof.
  intros Hin Hs.
  destruct (In_get_healthy_meals _ _ Hin) as (_ & _ & _ & _ & Ha).
  apply allowed_true_iff in Ha. destruct Ha as (c & p & Ec & Ep & _).
  pose proof (score_no_serving_size r c p Ec Ep Hs) as E.
  split; [|split].
  - rewrite E. destruct (PrimFloat.eqb c 0); auto.
  - intros c' Ec' Z. rewrite E. replace c with c' by congruence. now rewrite Z.
  - apply top_meals_raises with (r := r); [exact Hin|].
    rewrite E. destruct (PrimFloat.eqb c 0); eexists; reflexivity.
Qed.

(** *** Ranking *)

Lemma sorted_records (l : list (float * NutritionRecord)) :
  StronglySorted key_ge l ->
  Forall (fun p => score (snd p) = Ok (fst p)) l ->
  StronglySorted score_ge (map snd l).
Proof.
  induction 1 as [|x l Hs IH Hx]; intros Hk; cbn; [constructor|].
  inversion Hk as [|? ? Kx Kl]; subst.
  constructor; [now apply IH|].
  apply Forall_forall. intros r Hr. apply in_map_iff in Hr.
  destruct Hr as (y & <- & Hy).
  rewrite Forall_forall in Hx, Kl.
  exists (fst x), (fst y). repeat split; auto. now apply Hx.
Qed.

Lemma scored_pairs_ordered meals keys :
  scores_ordered meals ->
  Forall2 (fun r k => score r = Ok k) meals keys ->
  Forall key_ordered (combine keys meals).
Proof.
  intros Ho H. induction H as [|r k meals keys Hr _ IH]; cbn; constructor.
  - apply (Ho r k); [now left|exact Hr].
  - apply IH. intros r' s' Hin. apply Ho. now right.
Qed.

(** C4 (as amended).  The ranked output has at most TOP_N records; it is
    the first TOP_N of an arrangement of the surviving records, so it
    holds all of them when they are at most TOP_N; and it is in
    non-increasing score order provided no score is NaN. *)
Theorem ranking_shape completed out :
  top_meals' completed = Ok out ->
  (List.length out <= TOP_N)%nat /\
  (scores_ordered (get_healthy_meals' completed) ->
   StronglySorted score_ge out) /\
  ((List.length (get_healthy_meals' completed) <= TOP_N)%nat ->
   Permutation out (get_healthy_meals' completed)).
Proof.
  intros H. split; [|split].
  - apply top_meals_firstn in H. destruct H as (ranked & _ & ->).
    apply firstn_le_length.
  - intros Ho. apply top_meals_inv in H. destruct H as (keys & E & ->).
    apply mapM_Forall2 in E.
    apply StronglySorted_firstn, sorted_records.
    + apply sort_desc_sorted. now apply scored_pairs_ordered.
    + apply Forall_forall. intros x Hx.
      apply (Permutation_in _ (sort_desc_perm _)) in Hx.
      destruct (combine_keys _ _ E) as [_ K].
      rewrite Forall_forall in K. now apply K.
  - intros L. apply top_meals_firstn in H. destruct H as (ranked & E & ->).
    apply sorted_by_score_perm in E.
    rewrite firstn_all2; [exact E|].
    now rewrite (Permutation_length E).
Qed.

Lemma filter_scored (k : float) (l : list (float * NutritionRecord)) :
  Forall (fun p => score (snd p) = Ok (fst p)) l ->
  filter (score_is k) (map snd l) = map snd (filter (key_is k) l).
Proof.
  induction 1 as [|x l Hx _ IH]; [reflexivity|].
  cbn. unfold score_is at 1. rewrite Hx. fold (key_is k x).
  destruct (key_is k x); cbn; now rewrite IH.
Qed.

(** C8 (as amended).  When no surviving record has a NaN score the sort
    is stable: for every score, the records of the ranked output with
    that score are the first ones, in the order of collection, of the
    surviving records with that score.  The order of collection is the
    one in which the loop of [get_healthy_meals] takes the fetches from
    [as_completed]. *)
Theorem ranking_stable completed out (k : float) :
  top_meals' completed = Ok out ->
  scores_ordered (get_healthy_meals' completed) ->
  exists m,
    filter (score_is k) out =
    firstn m (filter (score_is k) (get_healthy_meals' completed)).
Proof.
  intros H Ho. apply top_meals_inv in H. destruct H as (keys & E & ->).
  apply mapM_Forall2 in E.
  pose proof (scored_pairs_ordered _ _ Ho E) as O.
  apply combine_keys in E. destruct E as [E K].
  destruct (filter_firstn (score_is k) TOP_N
              (map snd (sort_desc
                 (combine keys (get_healthy_meals' completed)))))
    as [m Hm].
  exists m. rewrite Hm. f_equal.
  rewrite filter_scored.
  - rewrite sort_desc_filter by exact O.
    rewrite <- filter_scored by exact K. now rewrite E.
  - apply Forall_forall. intros x Hx.
    apply (Permutation_in _ (sort_desc_perm _)) in Hx.
    rewrite Forall_forall in K. now apply K.
Qed.

(** *** Numeric fields *)

Lemma float_raises (v : value) (e : exn) :
  float_' v = Raise e -> e = ValueError \/ e = TypeError \/ e = OverflowError.
Proof.
  destruct v as [|b|n|f|s|l|d]; cbn; try (intros [= <-]; auto); try discriminate.
  - unfold float_of_int.
    destruct (binary_normalize _ _ _ _ _); try discriminate.
    intros [= <-]. auto.
  - destruct (float_of_str s); [discriminate|]. intros [= <-]. auto.
Qed.

(** [_num] lets two exceptions through: AttributeError, when the
    nutrition mapping or the entry of the key is not a dict, and
    OverflowError, when the value is an integer too large for a float. *)
Lemma _num_raises (nutrition : value) (key : string) (e : exn) :
  _num nutrition key float_' = Raise e ->
  e = AttributeError \/ e = OverflowError.
Proof.
  unfold _num.
  destruct (get nutrition key (VDict [])) as [entry|e1] eqn:E1; cbn [bind].
  - destruct (get entry "value" (VStr "")) as [v|e2] eqn:E2; cbn [bind].
    + destruct (ne_empty_str v); [|discriminate].
      destruct (float_' v) as [x|e3] eqn:E3; cbn; [discriminate|].
      destruct (float_raises _ _ E3) as [-> | [-> | ->]]; cbn;
        try discriminate.
      intros [= <-]. auto.
    + destruct entry; cbn in E2; try (injection E2 as <-; cbn; intros [= <-]; auto).
      destruct (dict_get d "value"); discriminate.
  - destruct nutrition; cbn in E1; try (injection E1 as <-; cbn; intros [= <-]; auto).
    destruct (dict_get d key); discriminate.
Qed.

(** On a readable entry [_num] returns. *)
Lemma _num_returns (d : list (string * value)) (key : string) :
  readable_entry d key -> exists x, _num (VDict d) key float_' = Ok x.
Proof.
  unfold readable_entry, _num. cbn [get].
  destruct (dict_get d key) as [entry|] eqn:Ek; cbn [bind]; [|cbn; eauto].
  destruct entry as [| | | | | |e]; try contradiction.
  intros R. cbn [get].
  destruct (dict_get e "value") as [v|] eqn:Ev; cbn; [|eauto].
  destruct (ne_empty_str v); [|cbn; eauto].
  destruct (float_' v) as [x|ex] eqn:Ef; cbn; [eauto|].
  destruct (float_raises _ _ Ef) as [-> | [-> | ->]]; cbn; eauto.
  destruct v; cbn in Ef; try discriminate.
  - exfalso. apply (R _ eq_refl). exact Ef.
  - destruct (float_of_str s); discriminate.
Qed.

(** Normalization fails on the structure of the payload only: with the
    entries of the five keys readable and a servingSize entry to take the
    unit from, a record is returned whatever the values parse to. *)
Lemma normalize_item_readable raw name0 id0 d s e :
  nutrition_details_of raw id0 = Ok (VDict d) ->
  ingredients_of str_lower raw id0 = Ok s ->
  (forall key, In key numeric_keys -> readable_entry d key) ->
  dict_get d "servingSize" = Some (VDict e) ->
  exists r, normalize_item' raw name0 id0 = Ok r.
Proof.
  unfold nutrition_details_of, ingredients_of, normalize_item.
  destruct (getitem raw "items") as [items|]; cbn [bind]; [|discriminate].
  destruct (getitem items id0) as [item|]; cbn [bind]; [|discriminate].
  intros -> Hs. cbn [bind].
  destruct (get item "ingredient_details" _) as [details|]; cbn [bind] in *;
    [|discriminate].
  rewrite Hs. cbn [bind]. intros R Hserv.
  assert (N : forall key, In key numeric_keys ->
                exists x, _num (VDict d) key float_' = Ok x)
    by (intros key Hk; apply _num_returns; auto).
  unfold numeric_keys in N.
  destruct (N "calories") as [x1 ->]; [cbn; tauto|].
  destruct (N "proteinContent") as [x2 ->]; [cbn; tauto|].
  destruct (N "fatContent") as [x3 ->]; [cbn; tauto|].
  destruct (N "carbohydrateContent") as [x4 ->]; [cbn; tauto|].
  destruct (N "servingSize") as [x5 ->]; [cbn; tauto|].
  cbn [bind get]. rewrite Hserv. cbn [bind get].
  destruct (dict_get e "unit"); cbn [bind]; eauto.
Qed.

(** C6 (as amended).  Take a nutrition mapping in which the entry of the
    key, when there is one, is a mapping whose value is not an integer
    beyond the range of floats.  Then [_num] returns without raising; the
    field is None when the key is absent, when the entry has no value or
    the empty string as value, and when [float] fails on the value with
    ValueError or TypeError.  Such a failure stays in its field: when the
    entries of the other keys are of that kind too and there is a
    servingSize mapping to take the unit from, [normalize_item] returns
    the record, with None in the field of the key and in every field what
    [_num] makes of the entry of its own key. *)
Theorem num_field_tolerant (d : list (string * value)) (key : string) :
  readable_entry d key ->
  (exists x, _num (VDict d) key float_' = Ok x) /\
  (dict_get d key = None -> _num (VDict d) key float_' = Ok None) /\
  (forall e, dict_get d key = Some (VDict e) ->
     (dict_get e "value" = None \/ dict_get e "value" = Some (VStr "") ->
      _num (VDict d) key float_' = Ok None) /\
     (forall v, dict_get e "value" = Some v ->
        float_' v = Raise ValueError \/ float_' v = Raise TypeError ->
        _num (VDict d) key float_' = Ok None)) /\
  (forall raw name0 id0 s u,
     nutrition_details_of raw id0 = Ok (VDict d) ->
     ingredients_of str_lower raw id0 = Ok s ->
     (forall key', In key' numeric_keys -> readable_entry d key') ->
     dict_get d "servingSize" = Some (VDict u) ->
     exists r,
       normalize_item float_of_str str_lower raw name0 id0 = Ok r /\
       (forall field e v,
          In (key, field) numeric_fields ->
          dict_get d key = Some (VDict e) -> dict_get e "value" = Some v ->
          float_' v = Raise ValueError \/ float_' v = Raise TypeError ->
          field r = None) /\
       (forall key' field',
          In (key', field') numeric_fields ->
          _num (VDict d) key' float_' = Ok (field' r)) /\
       ingredients r = s /\ id r = id0 /\ name r = name0).
Proof.
  intros R.
  assert (P : forall e, dict_get d key = Some (VDict e) ->
            forall v, dict_get e "value" = Some v ->
              float_' v = Raise ValueError \/ float_' v = Raise TypeError ->
              _num (VDict d) key float_' = Ok None).
  { intros e He v Hv Hf. unfold _num. cbn [get]. rewrite He. cbn [bind get].
    rewrite Hv. cbn [bind]. destruct (ne_empty_str v); [|reflexivity].
    destruct Hf as [-> | ->]; reflexivity. }
  split; [now apply _num_returns|]. split; [|split].
  - unfold _num. cbn [get]. intros ->. reflexivity.
  - intros e He. split; [|now apply P].
    unfold _num. cbn [get]. rewrite He. cbn [bind get].
    intros [-> | ->]; reflexivity.
  - intros raw name0 id0 s u Hd Hs Hr Hu.
    destruct (normalize_item_readable raw name0 id0 d s u Hd Hs Hr Hu)
      as [r Hn].
    exists r. split; [exact Hn|].
    destruct (normalize_item_fields _ _ _ _ Hn)
      as (d' & Hd' & Hi & N1 & N2 & N3 & N4 & N5 & _ & Hid & Hname).
    assert (d' = d) by congruence. subst d'.
    assert (F : forall key' field',
              In (key', field') numeric_fields ->
              _num (VDict d) key' float_' = Ok (field' r)).
    { intros key' field' Hk. unfold numeric_fields in Hk. cbn in Hk.
      destruct Hk as [Hk|[Hk|[Hk|[Hk|[Hk|[]]]]]]; injection Hk as <- <-;
        assumption. }
    split; [|split; [exact F|]].
    + intros field e v Hk He Hv Hf.
      pose proof (F key field Hk) as E. rewrite (P e He v Hv Hf) in E.
      congruence.
    + repeat split; congruence.
Qed.

End PipelineFacts.

(** A NaN score fits in no ranking of two records or more: whatever the
    arrangement, the list is not in non-increasing score order. *)
Lemma sorted_scores_not_nan (l : list NutritionRecord) (r : NutritionRecord)
    (s : float) :
  StronglySorted score_ge l -> (2 <= List.length l)%nat ->
  In r l -> score r = Ok s -> is_nan s = false.
Proof.
  intros Hs. revert r s.
  induction Hs as [|x l Hs IH Hx]; intros r s Hl Hin Hr; [contradiction|].
  rewrite Forall_forall in Hx.
  destruct Hin as [->|Hin].
  - destruct l as [|y l]; [cbn in Hl; lia|].
    destruct (Hx y (or_introl eq_refl)) as (sa & sb & Ea & _ & Hle).
    apply FloatOrder.leb_true_not_nan in Hle. destruct Hle as [_ N].
    congruence.
  - destruct (Hx r Hin) as (sa & sb & _ & Eb & Hle).
    apply FloatOrder.leb_true_not_nan in Hle. destruct Hle as [N _].
    congruence.
Qed.

(** * Further properties *)

(** ** Comparison with the thresholds *)

Lemma gt_int_mono (x : float) (n n' : Z) :
  (n <= n')%Z -> gt_int x n = false -> gt_int x n' = false.
Proof.
  intros Hn. unfold gt_int, compare_int.
  destruct (Prim2SF x) as [s|s| |s m e]; try reflexivity.
  - destruct (Z.compare_spec 0 n), (Z.compare_spec 0 n');
      try reflexivity; try discriminate; lia.
  - destruct s; auto.
  - cbv zeta. destruct (Z.leb_spec 0 e).
    + destruct (Z.compare_spec ((if s then Z.neg m else Z.pos m) * 2 ^ e) n),
        (Z.compare_spec ((if s then Z.neg m else Z.pos m) * 2 ^ e) n');
        try reflexivity; try discriminate; lia.
    + assert (P : (0 < 2 ^ (- e))%Z) by (apply Z.pow_pos_nonneg; lia).
      destruct (Z.compare_spec (if s then Z.neg m else Z.pos m)
                  (n * 2 ^ (- e))),
        (Z.compare_spec (if s then Z.neg m else Z.pos m) (n' * 2 ^ (- e)));
        try reflexivity; try discriminate; nia.
Qed.

Lemma lt_int_mono (x : float) (n n' : Z) :
  (n' <= n)%Z -> lt_int x n = false -> lt_int x n' = false.
Proof.
  intros Hn. unfold lt_int, compare_int.
  destruct (Prim2SF x) as [s|s| |s m e]; try reflexivity.
  - destruct (Z.compare_spec 0 n), (Z.compare_spec 0 n');
      try reflexivity; try discriminate; lia.
  - destruct s; auto.
  - cbv zeta. destruct (Z.leb_spec 0 e).
    + destruct (Z.compare_spec ((if s then Z.neg m else Z.pos m) * 2 ^ e) n),
        (Z.compare_spec ((if s then Z.neg m else Z.pos m) * 2 ^ e) n');
        try reflexivity; try discriminate; lia.
    + assert (P : (0 < 2 ^ (- e))%Z) by (apply Z.pow_pos_nonneg; lia).
      destruct (Z.compare_spec (if s then Z.neg m else Z.pos m)
                  (n * 2 ^ (- e))),
        (Z.compare_spec (if s then Z.neg m else Z.pos m) (n' * 2 ^ (- e)));
        try reflexivity; try discriminate; nia.
Qed.

Lemma le_int_not_gt (x : float) (n : Z) :
  le_int x n = true -> gt_int x n = false.
Proof.
  unfold le_int, gt_int. destruct (compare_int x n) as [[]|]; congruence.
Qed.

Lemma ge_int_not_lt (x : float) (n : Z) :
  ge_int x n = true -> lt_int x n = false.
Proof.
  unfold ge_int, lt_int. destruct (compare_int x n) as [[]|]; congruence.
Qed.

Section PipelineMore.

Variable float_of_str : string -> option float.
Variable str_lower : string -> string.
Variable MAX_CALORIES : Z.
Variable MIN_GRAMS_PROTEIN : Z.

Local Abbreviation float_' := (float_ float_of_str).
Local Abbreviation normalize_item' := (normalize_item float_of_str str_lower).
Local Abbreviation allowed' := (allowed MAX_CALORIES MIN_GRAMS_PROTEIN).
Local Abbreviation process_future' :=
  (process_future float_of_str str_lower MAX_CALORIES MIN_GRAMS_PROTEIN).
Local Abbreviation get_healthy_meals' :=
  (get_healthy_meals float_of_str str_lower MAX_CALORIES MIN_GRAMS_PROTEIN).
Local Abbreviation top_meals' :=
  (top_meals float_of_str str_lower MAX_CALORIES MIN_GRAMS_PROTEIN).

(** *** Scoring and ranking *)

Lemma score_ok_iff (r : NutritionRecord) :
  is_ok (score r) = true <->
  exists c p s,
    calories r = Some c /\ protein_g r = Some p /\ serving_size r = Some s /\
    PrimFloat.eqb c 0 = false.
Proof.
  unfold score, get_protein_score, get_volume_score, opt_mul, opt_truediv,
    truediv.
  split.
  - destruct (protein_g r) as [p|]; cbn; [|discriminate].
    destruct (calories r) as [c|]; cbn; [|discriminate].
    destruct (PrimFloat.eqb c 0) eqn:Z; cbn; [discriminate|].
    destruct (serving_size r) as [s|]; cbn; [|discriminate].
    intros _. now exists c, p, s.
  - intros (c & p & s & -> & -> & -> & Z). cbn [Py.bind]. rewrite Z.
    reflexivity.
Qed.

(** X1.  [score] returns exactly on the records that have calories,
    protein_g and serving_size, with calories other than zero; on every
    other record it raises. *)
Theorem score_returns_iff (r : NutritionRecord) :
  (exists x, score r = Ok x) <->
  exists c p s,
    calories r = Some c /\ protein_g r = Some p /\ serving_size r = Some s /\
    PrimFloat.eqb c 0 = false.
Proof.
  rewrite <- score_ok_iff. destruct (score r) as [x|e]; cbn.
  - split; eauto.
  - split; [intros [x H]; discriminate|discriminate].
Qed.

(** X2.  The ranking of [main] returns exactly when every record kept by
    [get_healthy_meals] has a serving size and calories other than zero;
    otherwise it raises. *)
Theorem ranking_returns_iff completed :
  (exists out, top_meals' completed = Ok out) <->
  (forall r,
     In r (get_healthy_meals float_of_str str_lower MAX_CALORIES
             MIN_GRAMS_PROTEIN completed) ->
     exists c s, calories r = Some c /\ serving_size r = Some s /\
                 PrimFloat.eqb c 0 = false).
Proof.
  split.
  - intros [out H] r Hr.
    destruct (is_ok (score r)) eqn:E.
    + apply score_ok_iff in E. destruct E as (c & p & s & ? & _ & ? & ?).
      now exists c, s.
    + assert (R : raises (score r))
        by (destruct (score r) as [x|e]; [discriminate|now exists e]).
      destruct (top_meals_raises float_of_str str_lower MAX_CALORIES
                  MIN_GRAMS_PROTEIN completed r Hr R) as [e He].
      congruence.
  - intros H. apply top_meals_ok. intros r Hr.
    destruct (H r Hr) as (c & s & Ec & Es & Z).
    destruct (absent_field_not_kept _ _ _ _ _ _ Hr) as [_ Np].
    apply score_ok_iff.
    destruct (protein_g r) as [p|] eqn:Ep; [|congruence].
    now exists c, p, s.
Qed.

(** X3.  The ranked output has exactly min(TOP_N, number of kept records)
    records. *)
Theorem ranking_length completed out :
  top_meals' completed = Ok out ->
  List.length out = Nat.min TOP_N (List.length (get_healthy_meals' completed)).
Proof.
  intros H. apply top_meals_firstn in H. destruct H as (ranked & E & ->).
  rewrite length_firstn. apply sorted_by_score_perm in E.
  now rewrite (Permutation_length E).
Qed.

(** X4.  The ranked output holds the best records: the kept records are
    the output together with the records left out, and no record left out
    has a score above one of the output (scores without NaN). *)
Theorem ranking_takes_the_best completed out :
  top_meals' completed = Ok out ->
  scores_ordered (get_healthy_meals' completed) ->
  exists rest,
    Permutation (out ++ rest) (get_healthy_meals' completed) /\
    forall a b, In a out -> In b rest -> score_ge a b.
Proof.
  intros H Ho.
  destruct (top_meals_firstn _ _ _ _ _ _ H) as (ranked & E & ->).
  exists (skipn TOP_N ranked). rewrite firstn_skipn. split.
  - now apply sorted_by_score_perm.
  - apply StronglySorted_app_inv. rewrite firstn_skipn.
    apply sorted_by_score_inv in E. destruct E as (keys & E & ->).
    apply mapM_Forall2 in E. apply sorted_records.
    + apply sort_desc_sorted. now apply scored_pairs_ordered.
    + apply Forall_forall. intros x Hx.
      apply (Permutation_in _ (sort_desc_perm _)) in Hx.
      destruct (combine_keys _ _ E) as [_ K].
      rewrite Forall_forall in K. now apply K.
Qed.

(** *** The fetches *)

Lemma process_future_failed meals item e :
  process_future' meals (item, Raise e) = meals.
Proof. reflexivity. Qed.

(** X5.  When every fetch fails nothing is kept and the ranking is the
    empty list, not an error. *)
Theorem all_fetches_failed completed :
  (forall done, In done completed -> exists e, snd done = Raise e) ->
  get_healthy_meals float_of_str str_lower MAX_CALORIES MIN_GRAMS_PROTEIN
    completed = [] /\
  top_meals' completed = Ok [].
Proof.
  intros H.
  assert (E : get_healthy_meals' completed = []).
  { rewrite get_healthy_meals_flat_map.
    induction completed as [|[item future] completed IH]; [reflexivity|].
    cbn [flat_map]. destruct (H (item, future) (or_introl eq_refl)) as [e He].
    cbn in He. subst future. rewrite process_future_failed. cbn.
    apply IH. intros done Hd. apply H. now right. }
  split; [exact E|]. unfold top_meals. now rewrite E.
Qed.

Lemma process_future_length done :
  (List.length (process_future' [] done) <= 1)%nat.
Proof.
  unfold process_future. destruct done as [item future].
  destruct (Py.bind future _) as [[[] r]|e]; cbn; lia.
Qed.

(** X6.  The items are handled one by one: the meals of two batches of
    fetches put end to end are the meals of the first followed by the
    meals of the second, and there are never more meals than fetches. *)
Theorem meals_of_batches c1 c2 :
  get_healthy_meals float_of_str str_lower MAX_CALORIES MIN_GRAMS_PROTEIN
    (c1 ++ c2)
  = get_healthy_meals' c1 ++ get_healthy_meals' c2 /\
  (List.length (get_healthy_meals' c1) <= List.length c1)%nat.
Proof.
  split; [apply get_healthy_meals_app|].
  rewrite get_healthy_meals_flat_map.
  induction c1 as [|done c1 IH]; cbn; [lia|].
  rewrite length_app. pose proof (process_future_length done). lia.
Qed.

(** X7.  A kept record bears the id and the name of a menu item whose
    fetch returned. *)
Theorem kept_record_of_item completed r :
  In r (get_healthy_meals float_of_str str_lower MAX_CALORIES
          MIN_GRAMS_PROTEIN completed) ->
  exists item raw,
    In (item, Ok raw) completed /\
    id r = item_id item /\ name r = item_name item.
Proof.
  intros H. apply In_get_healthy_meals in H.
  destruct H as (item & raw & Hin & Hn & _).
  apply normalize_item_fields in Hn.
  destruct Hn as (d & _ & _ & _ & _ & _ & _ & _ & _ & Hid & Hname).
  now exists item, raw.
Qed.

End PipelineMore.

Section ThresholdsAndPayloads.

Variable float_of_str : string -> option float.
Variable str_lower : string -> string.

Local Abbreviation float_' := (float_ float_of_str).
Local Abbreviation normalize_item' := (normalize_item float_of_str str_lower).
Local Abbreviation get_healthy_meals' :=
  (get_healthy_meals float_of_str str_lower).
Local Abbreviation process_future' :=
  (process_future float_of_str str_lower).

(** *** The thresholds *)

Lemma allowed_mono (max max' min min' : Z) (r : NutritionRecord) :
  (max <= max')%Z -> (min' <= min)%Z ->
  allowed max min r = Ok true -> allowed max' min' r = Ok true.
Proof.
  intros Hmax Hmin H. apply allowed_true_iff in H.
  destruct H as (c & p & Ec & Ep & Hc & Hp).
  apply allowed_true_iff. exists c, p. repeat split; auto.
  - now apply (gt_int_mono c max max').
  - now apply (lt_int_mono p min min').
Qed.

Lemma process_future_tighter (max max' min min' : Z) done :
  (max <= max')%Z -> (min' <= min)%Z ->
  process_future' max min [] done
  = filter (passes max min) (process_future' max' min' [] done).
Proof.
  intros Hmax Hmin. unfold process_future. destruct done as [item future].
  destruct future as [raw|e]; cbn [Py.bind]; [|reflexivity].
  destruct (normalize_item' raw _ _) as [n|e]; cbn [Py.bind]; [|reflexivity].
  pose proof (allowed_mono max max' min min' n Hmax Hmin) as M.
  destruct (allowed max min n) as [[]|e] eqn:A;
    destruct (allowed max' min' n) as [[]|e'] eqn:A';
    cbn; unfold passes; rewrite ?A; try reflexivity;
    specialize (M eq_refl); discriminate.
Qed.

(** X8.  Tightening the thresholds only removes meals: the meals kept
    under a lower calorie cap and a higher protein floor are, in the same
    order, those of the meals kept under the looser thresholds that pass
    the tighter ones. *)
Theorem tighter_thresholds_filter (max max' min min' : Z) completed :
  (max <= max')%Z -> (min' <= min)%Z ->
  get_healthy_meals' max min completed
  = filter (passes max min) (get_healthy_meals' max' min' completed).
Proof.
  intros Hmax Hmin. rewrite !get_healthy_meals_flat_map.
  induction completed as [|done completed IH]; [reflexivity|].
  cbn [flat_map]. rewrite filter_app, <- IH. f_equal.
  now apply process_future_tighter.
Qed.

(** X9.  Both thresholds are inclusive: on a record whose calories and
    protein are present and not NaN, [allowed] returns true exactly when
    calories <= MAX_CALORIES and protein_g >= MIN_GRAMS_PROTEIN. *)
Theorem allowed_inclusive (max min : Z) (r : NutritionRecord) (c p : float) :
  calories r = Some c -> protein_g r = Some p ->
  is_nan c = false -> is_nan p = false ->
  (allowed max min r = Ok true <->
   le_int c max = true /\ ge_int p min = true).
Proof.
  intros Ec Ep Nc Np. rewrite allowed_true_iff. split.
  - intros (c' & p' & Ec' & Ep' & Hc & Hp).
    assert (c' = c) by congruence. assert (p' = p) by congruence. subst.
    split.
    + now apply FloatOrder.gt_int_false_le.
    + now apply FloatOrder.lt_int_false_ge.
  - intros [Hc Hp]. exists c, p. repeat split; auto.
    + now apply le_int_not_gt.
    + now apply ge_int_not_lt.
Qed.

(** X12.  Filter and score look at calories, protein_g and serving_size
    only: two records that agree on the three are allowed alike and have
    the same score, whatever their fat, carbs, ingredients and dairy_free
    flag. *)
Theorem ranking_ignores_other_fields (max min : Z) (r r' : NutritionRecord) :
  calories r = calories r' -> protein_g r = protein_g r' ->
  serving_size r = serving_size r' ->
  allowed max min r = allowed max min r' /\ score r = score r'.
Proof.
  intros Ec Ep Es.
  unfold allowed, score, get_protein_score, get_volume_score.
  now rewrite Ec, Ep, Es.
Qed.

(** *** Payloads that do not normalize *)

Lemma normalize_raises_dropped (max min : Z) raw item before after :
  raises (normalize_item' raw (item_name item) (item_id item)) ->
  get_healthy_meals' max min (before ++ (item, Ok raw) :: after)
  = get_healthy_meals' max min (before ++ after).
Proof.
  intros [e He].
  rewrite !get_healthy_meals_app, get_healthy_meals_cons.
  rewrite process_future_raises; [reflexivity|].
  cbn [Py.bind]. rewrite He. now exists e.
Qed.

(** X10.  A payload that has no "items" key, or whose items have no
    entry for the id of the menu item, makes [normalize_item] raise
    KeyError, and the item is dropped from the meals. *)
Theorem unknown_item_dropped (d : list (string * value)) (id0 : string) :
  dict_get d "items" = None \/
  (exists items, dict_get d "items" = Some (VDict items) /\
                 dict_get items id0 = None) ->
  (forall name0, normalize_item' (VDict d) name0 id0 = Raise KeyError) /\
  (forall max min item before after,
     item_id item = id0 ->
     get_healthy_meals' max min (before ++ (item, Ok (VDict d)) :: after)
     = get_healthy_meals' max min (before ++ after)).
Proof.
  intros H.
  assert (K : forall name0, normalize_item' (VDict d) name0 id0 = Raise KeyError).
  { intros name0. unfold normalize_item. cbn [getitem].
    destruct H as [-> | (items & -> & Hi)]; [reflexivity|].
    cbn [Py.bind getitem]. now rewrite Hi. }
  split; [exact K|].
  intros max min item before after <-. apply normalize_raises_dropped.
  exists KeyError. apply K.
Qed.

(** X11.  A payload that is not a JSON object (a number, false, null, a
    string or a list, as an endpoint answers a request it refuses) makes
    [normalize_item] raise TypeError, and the item is dropped from the
    meals. *)
Theorem non_object_payload_dropped (raw : value) :
  is_dict raw = false ->
  (forall name0 id0, normalize_item' raw name0 id0 = Raise TypeError) /\
  (forall max min item before after,
     get_healthy_meals' max min (before ++ (item, Ok raw) :: after)
     = get_healthy_meals' max min (before ++ after)).
Proof.
  intros H.
  assert (K : forall name0 id0, normalize_item' raw name0 id0 = Raise TypeError)
    by (intros name0 id0; destruct raw; try discriminate; reflexivity).
  split; [exact K|].
  intros max min item before after. apply normalize_raises_dropped.
  exists TypeError. apply K.
Qed.

(** *** Payloads that normalize *)

Lemma _num_ok_readable (d : list (string * value)) (key : string) x :
  _num (VDict d) key float_' = Ok x -> readable_entry d key.
Proof.
  unfold _num, readable_entry. cbn [get].
  destruct (dict_get d key) as [entry|]; cbn [Py.bind]; [|trivial].
  destruct entry as [| | | | | |e]; try discriminate.
  cbn [get]. intros H n Hn. rewrite Hn in H. cbn in H.
  intros O. rewrite O in H. discriminate.
Qed.

Ltac step_ok H :=
  match type of H with
  | Py.bind ?m _ = Ok _ =>
      let E := fresh "E" in
      destruct m eqn:E; cbn [Py.bind] in H; [|discriminate H]
  end.

Lemma normalize_item_serving_entry raw name0 id0 r :
  normalize_item' raw name0 id0 = Ok r ->
  exists d e,
    nutrition_details_of raw id0 = Ok (VDict d) /\
    dict_get d "servingSize" = Some (VDict e).
Proof.
  unfold normalize_item, nutrition_details_of. intros H.
  do 12 step_ok H.
  destruct a1 as [| | | | | |d]; try discriminate.
  cbn [get] in *.
  destruct (dict_get d "servingSize") as [serving|] eqn:S.
  - injection E9 as <-.
    destruct serving as [| | | | | |e]; try discriminate.
    exists d, e. cbn [Py.bind]. rewrite E0. cbn [Py.bind]. now rewrite E1.
  - injection E9 as <-. discriminate.
Qed.

(** X13.  [normalize_item] returns a record exactly when the payload has
    the shape it reads: a nutrition mapping under items[id] (or none at
    all counts as an empty one), ingredient details that are a string,
    readable entries for the five numeric keys, and a servingSize entry
    that is a mapping.  Whether the numbers parse plays no part. *)
Theorem normalize_item_returns_iff raw name0 id0 :
  (exists r, normalize_item' raw name0 id0 = Ok r) <->
  (exists d s e,
     nutrition_details_of raw id0 = Ok (VDict d) /\
     ingredients_of str_lower raw id0 = Ok s /\
     (forall key, In key numeric_keys -> readable_entry d key) /\
     dict_get d "servingSize" = Some (VDict e)).
Proof.
  split.
  - intros [r H].
    destruct (normalize_item_serving_entry _ _ _ _ H) as (d & e & Hd & He).
    destruct (normalize_item_fields _ _ _ _ _ _ H)
      as (d' & Hd' & Hi & N1 & N2 & N3 & N4 & N5 & _).
    assert (d' = d) by congruence. subst d'.
    exists d, (ingredients r), e. repeat split; auto.
    intros key Hk. unfold numeric_keys in Hk. cbn in Hk.
    destruct Hk as [<-|[<-|[<-|[<-|[<-|[]]]]]];
      eapply _num_ok_readable; eassumption.
  - intros (d & s & e & Hd & Hs & R & He).
    now apply (normalize_item_readable float_of_str str_lower raw name0 id0 d s e).
Qed.

End ThresholdsAndPayloads.

(** ** The message *)

Lemma string_app_assoc (a b c : string) :
  ((a ++ b) ++ c = a ++ (b ++ c))%string.
Proof. induction a as [|x a IH]; cbn; [reflexivity|now rewrite IH]. Qed.

Lemma string_app_nil_r (a : string) : (a ++ "" = a)%string.
Proof. induction a as [|x a IH]; cbn; [reflexivity|now rewrite IH]. Qed.

Lemma occurs_in_refl (x : string) : occurs_in x x.
Proof. exists ""%string, ""%string. cbn. now rewrite string_app_nil_r. Qed.

Lemma occurs_in_app_l (x s t : string) :
  occurs_in x s -> occurs_in x (s ++ t).
Proof.
  intros (pre & post & ->). exists pre, (post ++ t)%string.
  now rewrite !string_app_assoc.
Qed.

Lemma occurs_in_app_r (x s t : string) :
  occurs_in x t -> occurs_in x (s ++ t).
Proof.
  intros (pre & post & ->). exists (s ++ pre)%string, post.
  now rewrite !string_app_assoc.
Qed.

Lemma occurs_in_join (sep line : string) (l : list string) :
  In line l -> occurs_in line (join sep l).
Proof.
  induction l as [|x l IH]; [contradiction|].
  intros [->|H].
  - destruct l; cbn [join]; [apply occurs_in_refl|].
    apply occurs_in_app_l, occurs_in_refl.
  - destruct l as [|y l]; [contradiction|]. cbn [join].
    apply occurs_in_app_r, occurs_in_app_r. now apply IH.
Qed.

Section MessageFacts.

Variable str_ : value -> string.

Lemma items_lines_In (i0 : nat) (items : list NutritionRecord) item :
  In item items ->
  exists i,
    (i0 <= i < i0 + List.length items)%nat /\
    incl (item_lines str_ i item) (items_lines str_ i0 items).
Proof.
  revert i0. induction items as [|x items IH]; intros i0; [contradiction|].
  intros [->|H].
  - exists i0. split; [cbn; lia|]. cbn [items_lines]. apply incl_appl, incl_refl.
  - destruct (IH (S i0) H) as (i & Hi & Hincl). exists i. split; [cbn; lia|].
    cbn [items_lines]. now apply incl_appr.
Qed.

(** X14.  The message says that no option met the criteria exactly when
    the list of meals is empty. *)
Theorem no_options_iff_empty (items : list NutritionRecord) :
  build_message str_ items = no_options_message <-> items = [].
Proof.
  split; [|now intros ->].
  destruct items as [|x items]; [reflexivity|].
  unfold build_message. cbn [join]. cbn. discriminate.
Qed.

(** X15.  Every meal of the list is written in the message, under a
    number between 1 and the number of meals: the line with its number,
    name, serving size and unit and the lines of its calories, protein,
    carbs and fat all occur in the message. *)
Theorem message_lists_every_meal (items : list NutritionRecord) item :
  In item items ->
  exists i,
    (1 <= i <= List.length items)%nat /\
    forall line, In line (item_lines str_ i item) ->
                 occurs_in line (build_message str_ items).
Proof.
  intros H. destruct (items_lines_In 1 items item H) as (i & Hi & Hincl).
  exists i. split; [lia|]. intros line Hl.
  destruct items as [|x items]; [contradiction|].
  unfold build_message. apply occurs_in_join.
  right. right. now apply Hincl.
Qed.

End MessageFacts.

(** ** Notification *)

Lemma attempts_app (tr l : list event) :
  attempts (tr ++ l) = attempts tr ++ attempts l.
Proof. apply filter_app. Qed.

Lemma attempts_printed (tr : list event) (line : string) :
  attempts (tr ++ [Printed line]) = attempts tr.
Proof. rewrite attempts_app. cbn. apply app_nil_r. Qed.

Lemma split_comma_not_nil (s : string) : split_comma s <> [].
Proof.
  induction s as [|c s IH]; cbn; [discriminate|].
  destruct (Ascii.eqb c ","); [discriminate|].
  destruct (split_comma s); discriminate.
Qed.

Section NotifyFacts.

Variable settings : Settings.
Variable respond : list event -> result unit.

Local Abbreviation send_email' := (send_email settings respond).
Local Abbreviation send_slack_message' := (send_slack_message settings respond).
Local Abbreviation notify_functions' := (notify_functions settings respond).
Local Abbreviation notify_each' := (notify_each settings respond).
Local Abbreviation notify' := (notify settings respond).

Lemma notify_functions_known (method : string) :
  (method = "email" /\ notify_functions' method = Some send_email') \/
  (method = "slack" /\ notify_functions' method = Some send_slack_message') \/
  (~ known_method method /\ notify_functions' method = None).
Proof.
  unfold notify_functions, known_method.
  destruct (String.eqb_spec method "email") as [->|N1]; [now left|].
  destruct (String.eqb_spec method "slack") as [->|N2]; [right; now left|].
  right. right. split; [|reflexivity]. intros [?|?]; contradiction.
Qed.

Local Abbreviation step_spec := (sender_step_spec settings respond).

Ltac skipped :=
  eexists _, _; split; [reflexivity|];
  rewrite attempts_printed, app_nil_r, length_app; cbn;
  repeat split; auto; try lia; discriminate.

Ltac called R :=
  eexists _, _; split; [reflexivity|];
  rewrite ?attempts_printed, attempts_app, !length_app; cbn;
  repeat split; auto; try lia;
  try (let A := fresh "A" in intros A; rewrite A in R; discriminate);
  match goal with
  | H : [_] = [_] |- _ => injection H as <-; congruence
  end.

Lemma send_email_step (title message : string) tr :
  step_spec send_email' "email" title message tr.
Proof.
  unfold sender_step_spec, send_email, planned_call, email_configured.
  replace (String.eqb "email" "email") with true by reflexivity.
  destruct (truthy_str (MAILERSEND_API_KEY settings));
    destruct (truthy (EMAIL_RECIPIENTS settings));
    destruct (truthy_str (FROM_EMAIL settings)); cbn [negb orb andb];
    try skipped.
  unfold call, IO.bind, IO.emit, IO.print.
  destruct (respond (tr ++ [_])) as [[]|e] eqn:R; called R.
Qed.

Lemma send_slack_message_step (title message : string) tr :
  step_spec send_slack_message' "slack" title message tr.
Proof.
  unfold sender_step_spec, send_slack_message, planned_call.
  replace (String.eqb "slack" "email") with false by reflexivity.
  replace (String.eqb "slack" "slack") with true by reflexivity.
  destruct (truthy_str (SLACK_WEBHOOK_URL settings)); cbn [negb];
    try skipped.
  unfold call, IO.bind, IO.emit, IO.print.
  destruct (respond (tr ++ [_])) as [[]|e] eqn:R; called R.
Qed.

(** One sender: it logs the call planned for its method, if there is
    one, before the call can fail, and it always logs something. *)
Lemma sender_step (method : string) f (title message : string) tr :
  notify_functions' method = Some f ->
  step_spec f method title message tr.
Proof.
  intros Hf.
  destruct (notify_functions_known method) as [[-> E]|[[-> E]|[_ E]]];
    rewrite E in Hf; try discriminate Hf; injection Hf as <-.
  - apply send_email_step.
  - apply send_slack_message_step.
Qed.

Lemma firstn_app_length {A : Type} (l l' : list A) :
  firstn (List.length l) (l ++ l') = l.
Proof.
  rewrite firstn_app, Nat.sub_diag, firstn_all. cbn. apply app_nil_r.
Qed.

Lemma notify_each_cons (method : string) methods (title message : string) tr :
  notify_each' (method :: methods) title message tr =
  match notify_functions' method with
  | None => (Raise KeyError, tr)
  | Some f =>
      match f title message tr with
      | (Ok _, tr1) => notify_each' methods title message tr1
      | (Raise e, tr1) => (Raise e, tr1)
      end
  end.
Proof.
  cbn [notify_each]. destruct (notify_functions' method); reflexivity.
Qed.

Lemma notify_each_app (l1 l2 : list string) (title message : string) tr :
  notify_each' (l1 ++ l2) title message tr =
  match notify_each' l1 title message tr with
  | (Ok _, tr1) => notify_each' l2 title message tr1
  | (Raise e, tr1) => (Raise e, tr1)
  end.
Proof.
  revert tr. induction l1 as [|method l1 IH]; intros tr; [reflexivity|].
  cbn [app]. rewrite !notify_each_cons.
  destruct (notify_functions' method) as [f|]; [|reflexivity].
  destruct (f title message tr) as [[[]|e] tr1]; [apply IH|reflexivity].
Qed.

Lemma notify_each_calls (methods : list string) (title message : string) tr :
  exists r tr' k,
    notify_each' methods title message tr = (r, tr') /\
    attempts tr' =
      attempts tr
      ++ firstn k (flat_map (planned_call settings title message) methods) /\
    (r = Ok tt ->
     attempts tr' =
       attempts tr ++ flat_map (planned_call settings title message) methods) /\
    (r = Ok tt -> methods <> [] -> (List.length tr < List.length tr')%nat).
Proof.
  revert tr. induction methods as [|method methods IH]; intros tr.
  - exists (Ok tt), tr, 0%nat. cbn. rewrite app_nil_r.
    repeat split; auto. congruence.
  - rewrite notify_each_cons. cbn [flat_map].
    destruct (notify_functions' method) as [f|] eqn:E.
    + destruct (sender_step method f title message tr E)
        as (r1 & tr1 & Hf & Ha & Hl & _ & _).
      rewrite Hf. destruct r1 as [[]|e].
      * destruct (IH tr1) as (r & tr' & k & Hn & Hk & Hall & Hlen).
        exists r, tr',
          (List.length (planned_call settings title message method) + k)%nat.
        split; [exact Hn|]. rewrite firstn_app_2, app_assoc, <- Ha.
        split; [exact Hk|]. split.
        -- intros Hr. rewrite app_assoc, <- Ha. now apply Hall.
        -- intros Hr _. destruct methods as [|m' ms].
           ++ cbn in Hn. injection Hn as _ <-. exact Hl.
           ++ specialize (Hlen Hr). assert (m' :: ms <> []) by discriminate.
              specialize (Hlen H). lia.
      * exists (Raise e), tr1,
          (List.length (planned_call settings title message method)).
        split; [reflexivity|]. rewrite firstn_app_length.
        repeat split; auto; discriminate.
    + exists (Raise KeyError), tr, 0%nat. cbn. rewrite app_nil_r.
      repeat split; auto; discriminate.
Qed.

Lemma notify_attempts (title message : string) tr r tr' :
  notify' title message tr = (r, tr') ->
  (exists k,
     attempts tr' =
     attempts tr ++ firstn k (planned_calls settings title message)) /\
  (r = Ok tt ->
   attempts tr' = attempts tr ++ planned_calls settings title message).
Proof.
  unfold notify, planned_calls. intros H.
  destruct (notify_each_calls (NOTIFY_METHODS settings) title message tr)
    as (r0 & tr0 & k & Hn & Hk & Hall & _).
  rewrite H in Hn. injection Hn as <- <-.
  split; [now exists k|exact Hall].
Qed.

(** The three ways a sender can go: it has no call to make and prints
    why; its call returns and it prints that; its call raises and that
    is the end of it. *)
Lemma sender_cases (method : string) f (title message : string) tr :
  notify_functions' method = Some f ->
  (planned_call settings title message method = [] /\
   exists line, f title message tr = (Ok tt, tr ++ [Printed line])) \/
  (exists ev,
     planned_call settings title message method = [ev] /\
     is_attempt ev = true /\
     ((respond (tr ++ [ev]) = Ok tt /\
       exists line, f title message tr = (Ok tt, tr ++ [ev; Printed line])) \/
      (exists e, respond (tr ++ [ev]) = Raise e /\
                 f title message tr = (Raise e, tr ++ [ev])))).
Proof.
  intros Hf.
  destruct (notify_functions_known method) as [[-> E]|[[-> E]|[_ E]]];
    rewrite E in Hf; try discriminate Hf; injection Hf as <-.
  - unfold send_email, planned_call, email_configured.
    replace (String.eqb "email" "email") with true by reflexivity.
    destruct (truthy_str (MAILERSEND_API_KEY settings));
      destruct (truthy (EMAIL_RECIPIENTS settings));
      destruct (truthy_str (FROM_EMAIL settings)); cbn [negb orb andb];
      try (left; split; [reflexivity|eexists; reflexivity]).
    right. eexists. split; [reflexivity|]. split; [reflexivity|].
    unfold call, IO.bind, IO.emit, IO.print.
    destruct (respond (tr ++ [_])) as [[]|e] eqn:R.
    + left. split; [reflexivity|]. eexists. unfold IO.emit.
      now rewrite <- app_assoc.
    + right. now exists e.
  - unfold send_slack_message, planned_call.
    replace (String.eqb "slack" "email") with false by reflexivity.
    replace (String.eqb "slack" "slack") with true by reflexivity.
    destruct (truthy_str (SLACK_WEBHOOK_URL settings)); cbn [negb];
      try (left; split; [reflexivity|eexists; reflexivity]).
    right. eexists. split; [reflexivity|]. split; [reflexivity|].
    unfold call, IO.bind, IO.emit, IO.print.
    destruct (respond (tr ++ [_])) as [[]|e] eqn:R.
    + left. split; [reflexivity|]. eexists. unfold IO.emit.
      now rewrite <- app_assoc.
    + right. now exists e.
Qed.

(** The loop stops at the first exception.  Whenever a call fails it is
    the last thing the loop does, and the loop raises the exception of
    that call; and when the loop raises, it is for such a call or for a
    method that has no sender. *)
Lemma notify_each_stops (methods : list string) (title message : string)
    tr r tr' :
  notify_each' methods title message tr = (r, tr') ->
  exists new,
    tr' = tr ++ new /\
    (forall p ev q e,
       new = p ++ ev :: q -> is_attempt ev = true ->
       respond (tr ++ p ++ [ev]) = Raise e -> q = [] /\ r = Raise e) /\
    (forall e, r = Raise e ->
       (exists p ev,
          new = p ++ [ev] /\ is_attempt ev = true /\ respond tr' = Raise e) \/
       (e = KeyError /\
        exists method, In method methods /\ ~ known_method method)).
Proof.
  revert tr. induction methods as [|method methods IH]; intros tr H.
  - cbn in H. injection H as <- <-. exists []. rewrite app_nil_r.
    split; [reflexivity|]. split.
    + intros [|? ?] ? ? ? ?; discriminate.
    + discriminate.
  - rewrite notify_each_cons in H.
    destruct (notify_functions' method) as [f|] eqn:E.
    + destruct (sender_cases method f title message tr E)
        as [[_ [line Hs]]|(ev0 & _ & A0 & [[R0 [line Hs]]|[e0 [R0 Hs]]])];
        rewrite Hs in H.
      * destruct (IH _ H) as (new & -> & Stop & Why).
        exists (Printed line :: new).
        split; [now rewrite <- app_assoc|]. split.
        -- intros [|x p] ev q e Hn Ha Hr.
           ++ injection Hn as <- _. discriminate Ha.
           ++ injection Hn as <- Hn. apply (Stop p ev q e Hn Ha).
              now rewrite <- app_assoc.
        -- intros e He. destruct (Why e He) as [(p & ev & -> & Ha & Hr)|[-> M]].
           ++ left. exists (Printed line :: p), ev.
              split; [reflexivity|]. split; [exact Ha|exact Hr].
           ++ right. split; [reflexivity|].
              destruct M as (m & Hm & Nm). exists m. split; [now right|exact Nm].
      * destruct (IH _ H) as (new & -> & Stop & Why).
        exists (ev0 :: Printed line :: new).
        split; [now rewrite <- app_assoc|]. split.
        -- intros [|x [|y p]] ev q e Hn Ha Hr.
           ++ injection Hn as <- _. cbn in Hr. congruence.
           ++ injection Hn as _ <- _. discriminate Ha.
           ++ injection Hn as <- <- Hn. apply (Stop p ev q e Hn Ha).
              now rewrite <- app_assoc.
        -- intros e He. destruct (Why e He) as [(p & ev & -> & Ha & Hr)|[-> M]].
           ++ left. exists (ev0 :: Printed line :: p), ev.
              split; [reflexivity|]. split; [exact Ha|exact Hr].
           ++ right. split; [reflexivity|].
              destruct M as (m & Hm & Nm). exists m. split; [now right|exact Nm].
      * injection H as <- <-. exists [ev0].
        split; [reflexivity|]. split.
        -- intros [|x p] ev q e Hn Ha Hr.
           ++ injection Hn as <- <-. cbn in Hr. split; [reflexivity|congruence].
           ++ injection Hn as _ Hn. destruct p; discriminate Hn.
        -- intros e [= <-]. left. exists [], ev0. auto.
    + injection H as <- <-. exists []. rewrite app_nil_r.
      split; [reflexivity|]. split.
      * intros [|? ?] ? ? ? ?; discriminate.
      * intros e [= <-]. right. split; [reflexivity|]. exists method.
        split; [now left|].
        destruct (notify_functions_known method)
          as [[_ E']|[[_ E']|[N _]]]; congruence.
Qed.

(** X16.  [notify] calls the senders of the methods in the order of
    NOTIFY_METHODS, each with the title and the message and only when its
    settings are there; it makes no other call.  The calls made are the
    first ones of those planned, and all of them when it returns.  It
    stops at the first exception: a call that fails is the last thing
    [notify] does, and [notify] raises the exception of that call; when
    [notify] raises, it is for such a call or, with KeyError, for a method
    that has no sender. *)
Theorem notify_calls (title message : string) tr r tr' :
  notify' title message tr = (r, tr') ->
  (exists k,
     attempts tr' =
     attempts tr ++ firstn k (planned_calls settings title message)) /\
  (r = Ok tt ->
   attempts tr' = attempts tr ++ planned_calls settings title message) /\
  (exists new,
     tr' = tr ++ new /\
     (forall p ev q e,
        new = p ++ ev :: q -> is_attempt ev = true ->
        respond (tr ++ p ++ [ev]) = Raise e -> q = [] /\ r = Raise e) /\
     (forall e, r = Raise e ->
        (exists p ev,
           new = p ++ [ev] /\ is_attempt ev = true /\
           respond tr' = Raise e) \/
        (e = KeyError /\
         exists method,
           In method (NOTIFY_METHODS settings) /\ ~ known_method method))).
Proof.
  intros H. destruct (notify_attempts title message tr r tr' H) as [P Q].
  split; [exact P|]. split; [exact Q|].
  exact (notify_each_stops (NOTIFY_METHODS settings) title message tr r tr' H).
Qed.

Lemma notify_each_ok (methods : list string) (title message : string) tr :
  Forall known_method methods -> (forall t, respond t = Ok tt) ->
  exists tr',
    notify_each' methods title message tr = (Ok tt, tr') /\
    attempts tr' =
    attempts tr ++ flat_map (planned_call settings title message) methods.
Proof.
  intros Hk Hr. revert tr.
  induction Hk as [|method methods Hm _ IH]; intros tr.
  - exists tr. cbn. now rewrite app_nil_r.
  - rewrite notify_each_cons.
    destruct (notify_functions' method) as [f|] eqn:E.
    + destruct (sender_step method f title message tr E)
        as (r1 & tr1 & Hf & Ha & _ & Hok & _).
      rewrite Hf, (Hok Hr). destruct (IH tr1) as (tr' & Hn & Hat).
      exists tr'. split; [exact Hn|]. cbn [flat_map].
      now rewrite Hat, Ha, <- app_assoc.
    + destruct (notify_functions_known method)
        as [[_ E']|[[_ E']|[N _]]]; congruence || contradiction.
Qed.

(** X17.  A name in NOTIFY_METHODS other than email and slack, behind
    names that are known, makes [notify] raise whatever the senders do:
    KeyError when the calls of the methods before that name go through,
    and otherwise the exception of the call that failed.  The methods
    after that name are never served: the calls made are among those
    planned for the methods before it, all of them when they go
    through. *)
Theorem unknown_method_raises (known : list string) (bad : string)
    (rest : list string) (title message : string) tr :
  NOTIFY_METHODS settings = known ++ bad :: rest ->
  Forall known_method known -> ~ known_method bad ->
  exists e tr',
    notify' title message tr = (Raise e, tr') /\
    (exists k,
       attempts tr' =
       attempts tr
       ++ firstn k (flat_map (planned_call settings title message) known)) /\
    (e = KeyError \/ respond tr' = Raise e) /\
    ((forall t, respond t = Ok tt) ->
     e = KeyError /\
     attempts tr' =
     attempts tr ++ flat_map (planned_call settings title message) known).
Proof.
  intros Hm Hk Hb. unfold notify. rewrite Hm, notify_each_app.
  destruct (notify_each_calls known title message tr)
    as (r1 & tr1 & k & Hn & Hk1 & Hall & _).
  assert (Bad : notify_functions' bad = None).
  { destruct (notify_functions_known bad) as [[-> _]|[[-> _]|[_ E]]];
      [exfalso; apply Hb; now left|exfalso; apply Hb; now right|exact E]. }
  rewrite Hn. destruct r1 as [[]|e].
  - exists KeyError, tr1. rewrite notify_each_cons, Bad.
    split; [reflexivity|]. split; [now exists k|]. split; [now left|].
    intros _. split; [reflexivity|now apply Hall].
  - exists e, tr1. split; [reflexivity|]. split; [now exists k|].
    destruct (notify_each_stops known title message tr _ _ Hn)
      as (new & -> & _ & Why).
    destruct (Why e eq_refl) as [(p & ev & _ & _ & Hr)|[-> (m & Hin & Nm)]].
    + split; [now right|]. intros Hr'. rewrite Hr' in Hr. discriminate.
    + exfalso. rewrite Forall_forall in Hk. now apply Nm, Hk.
Qed.

(** X18.  When the call of the first method fails, [notify] raises the
    exception of the call right after it: no other method is served. *)
Theorem failed_call_stops (method : string) (rest : list string)
    (title message : string) (ev : event) (e : exn) tr :
  NOTIFY_METHODS settings = method :: rest ->
  planned_call settings title message method = [ev] ->
  respond (tr ++ [ev]) = Raise e ->
  notify' title message tr = (Raise e, tr ++ [ev]).
Proof.
  intros Hm Hp Hr. unfold notify. rewrite Hm, notify_each_cons.
  destruct (notify_functions' method) as [f|] eqn:E.
  - destruct (sender_step method f title message tr E)
      as (r1 & tr1 & Hf & _ & _ & _ & Hfail).
    destruct (Hfail ev e Hp Hr) as [-> ->]. now rewrite Hf.
  - unfold planned_call in Hp.
    destruct (notify_functions_known method)
      as [[-> E']|[[-> E']|[N _]]]; try congruence.
    destruct (String.eqb_spec method "email") as [->|_];
      [exfalso; apply N; now left|].
    destruct (String.eqb_spec method "slack") as [->|_];
      [exfalso; apply N; now right|].
    discriminate.
Qed.

(** X19.  No value of the NOTIFY_METHODS variable switches the
    notification off quietly: splitting at the commas always leaves at
    least one name, so [notify] either raises or logs something. *)
Theorem notify_never_silent (env : option string) (title message : string)
    tr tr' :
  NOTIFY_METHODS settings = notify_methods_of env ->
  notify' title message tr = (Ok tt, tr') ->
  (List.length tr < List.length tr')%nat.
Proof.
  intros Hm H. unfold notify in H.
  destruct (notify_each_calls (NOTIFY_METHODS settings) title message tr)
    as (r0 & tr0 & k & Hn & _ & _ & Hlen).
  rewrite H in Hn. injection Hn as <- <-.
  apply Hlen; [reflexivity|]. rewrite Hm. apply split_comma_not_nil.
Qed.

End NotifyFacts.

(** ** The job *)

Lemma planned_calls_content (s : Settings) (title message : string) ev :
  In ev (planned_calls s title message) ->
  sent_title ev = title /\ sent_text ev = message.
Proof.
  unfold planned_calls. rewrite in_flat_map. intros (method & _ & H).
  unfold planned_call in H.
  destruct (String.eqb method "email").
  - destruct (email_configured s); [|contradiction].
    destruct H as [<-|[]]. now split.
  - destruct (String.eqb method "slack"); [|contradiction].
    destruct (truthy_str (SLACK_WEBHOOK_URL s)); [|contradiction].
    destruct H as [<-|[]]. now split.
Qed.

Lemma collect_items_nil (selected : list Element) :
  collect_items selected = [] <->
  forall el, In el selected -> button_text el = None.
Proof.
  induction selected as [|el selected IH]; cbn; [tauto|].
  destruct (button_text el) as [text|] eqn:B.
  - split; [discriminate|]. intros H.
    specialize (H el (or_introl eq_refl)). congruence.
  - rewrite IH. split.
    + intros H el' [<-|H']; auto.
    + intros H el' H'. apply H. now right.
Qed.

Lemma collect_items_length (selected : list Element) :
  (List.length (collect_items selected) <= List.length selected)%nat.
Proof.
  induction selected as [|el selected IH]; cbn; [lia|].
  destruct (button_text el); cbn; lia.
Qed.

Lemma collect_items_In (selected : list Element) (it : MenuItem) :
  In it (collect_items selected) ->
  exists el,
    In el selected /\ button_text el = Some (item_name it) /\
    data_id el = item_id it /\ data_nonce el = item_nonce it.
Proof.
  induction selected as [|el selected IH]; cbn; [contradiction|].
  destruct (button_text el) as [text|] eqn:B.
  - intros [<-|H].
    + exists el. cbn. auto.
    + destruct (IH H) as (el' & ? & ?). exists el'. auto.
  - intros H. destruct (IH H) as (el' & ? & ?). exists el'. auto.
Qed.

Lemma collect_items_each (selected : list Element) :
  Forall2 item_of (filter has_button selected) (collect_items selected).
Proof.
  induction selected as [|el selected IH]; cbn [filter collect_items];
    [constructor|].
  unfold has_button at 1.
  destruct (button_text el) as [text|] eqn:B; [|exact IH].
  constructor; [|exact IH]. unfold item_of. cbn. auto.
Qed.

Section JobFacts.

Variable float_of_str : string -> option float.
Variable str_lower : string -> string.
Variable str_ : value -> string.
Variable MAX_CALORIES : Z.
Variable MIN_GRAMS_PROTEIN : Z.
Variable settings : Settings.
Variable respond : list event -> result unit.
Variable menu_page : result (list Element).
Variable fetch_all : list MenuItem -> list (MenuItem * result value).
Variable title : string.

Local Abbreviation top_meals' :=
  (top_meals float_of_str str_lower MAX_CALORIES MIN_GRAMS_PROTEIN).
Local Abbreviation get_healthy_meals' :=
  (get_healthy_meals float_of_str str_lower MAX_CALORIES MIN_GRAMS_PROTEIN).
Local Abbreviation notify' := (notify settings respond).
Local Abbreviation run_main' :=
  (run_main float_of_str str_lower str_ MAX_CALORIES MIN_GRAMS_PROTEIN
     settings respond menu_page fetch_all title).

Lemma extract_items_eq (selected : list Element) tr :
  extract_items str_ selected tr =
  match collect_items selected with
  | [] => (Raise RuntimeError, tr)
  | items =>
      (Ok items,
       tr ++ [Printed ("Found " ++ int_str str_ (List.length items)
                         ++ " items")])
  end.
Proof.
  unfold extract_items, IO.bind, IO.lift, IO.print, IO.emit, IO.ret.
  now destruct (collect_items selected).
Qed.

(** X20.  [extract_lunch_items] raises RuntimeError exactly when no
    selected element has a button.  Otherwise it returns a list that is
    not empty and has, in the order of the page, one item for each
    element that has a button and none for the others; the item is named
    after the button and bears the id and nonce of its element.  The
    number of items is printed. *)
Theorem extracted_items (selected : list Element) tr :
  ((forall el, In el selected -> button_text el = None) <->
   fst (extract_items str_ selected tr) = Raise RuntimeError) /\
  (forall items,
     fst (extract_items str_ selected tr) = Ok items ->
     items <> [] /\
     Forall2 item_of (filter has_button selected) items /\
     snd (extract_items str_ selected tr) =
     tr ++ [Printed ("Found " ++ int_str str_ (List.length items)
                       ++ " items")]).
Proof.
  rewrite extract_items_eq, <- collect_items_nil.
  pose proof (collect_items_each selected) as I.
  destruct (collect_items selected) as [|it items]; cbn [fst snd].
  - split; [tauto|discriminate].
  - split; [split; discriminate|].
    intros items' [= <-]. split; [discriminate|]. split; [exact I|reflexivity].
Qed.

Lemma run_main_eq tr :
  run_main' tr =
  let tr1 := tr ++ [Printed "Starting job..."] in
  match menu_page with
  | Raise e => (Raise e, tr1)
  | Ok selected =>
      match collect_items selected with
      | [] => (Raise RuntimeError, tr1)
      | items =>
          let tr2 :=
            tr1 ++ [Printed ("Found " ++ int_str str_ (List.length items)
                               ++ " items")] in
          match top_meals' (fetch_all items) with
          | Raise e => (Raise e, tr2)
          | Ok meals =>
              let tr3 :=
                tr2 ++ [Printed ("Found " ++ int_str str_ (List.length meals)
                                   ++ " healthy meals")] in
              match notify' title (build_message str_ meals) tr3 with
              | (Raise e, tr4) => (Raise e, tr4)
              | (Ok _, tr4) => (Ok tt, tr4 ++ [Printed "Job complete!"])
              end
          end
      end
  end.
Proof.
  unfold run_main. unfold IO.bind at 1. unfold IO.print at 1, IO.emit at 1.
  unfold IO.bind at 1. unfold IO.lift at 1.
  destruct menu_page as [selected|e]; [|reflexivity].
  unfold IO.bind at 1. rewrite extract_items_eq.
  destruct (collect_items selected) as [|it items]; [reflexivity|].
  unfold IO.bind at 1. unfold IO.lift at 1.
  destruct (top_meals' (fetch_all (it :: items))) as [meals|e]; [|reflexivity].
  unfold IO.bind at 1. unfold IO.print at 1, IO.emit at 1.
  unfold IO.bind at 1.
  destruct (notify' title (build_message str_ meals) _) as [[[]|e] tr4];
    reflexivity.
Qed.

Lemma run_main_attempts tr r tr' :
  run_main' tr = (r, tr') ->
  attempts tr' = attempts tr \/
  exists selected out k,
    menu_page = Ok selected /\
    top_meals' (fetch_all (collect_items selected)) = Ok out /\
    attempts tr' =
    attempts tr
    ++ firstn k (planned_calls settings title (build_message str_ out)).
Proof.
  rewrite run_main_eq. cbv zeta.
  destruct menu_page as [selected|e];
    [|intros [= <- <-]; left; apply attempts_printed].
  destruct (collect_items selected) as [|it items] eqn:C;
    [intros [= <- <-]; left; apply attempts_printed|].
  destruct (top_meals' (fetch_all (it :: items))) as [meals|e] eqn:T;
    [|intros [= <- <-]; left; now rewrite !attempts_printed].
  destruct (notify' title (build_message str_ meals) _) as [r1 tr4] eqn:N.
  apply notify_attempts in N. destruct N as [[k Hk] _].
  rewrite !attempts_printed in Hk.
  intros H. right. exists selected, meals, k.
  split; [reflexivity|]. split; [now rewrite C|].
  destruct r1 as [[]|e]; injection H as <- <-;
    now rewrite ?attempts_printed.
Qed.

(** X21.  Take a run in which no kept record has a NaN score.  The
    senders are called only once the menu was read and the ranking
    returned, and then as [notify] plans for the title and the message
    built from the ranked meals: nothing is sent when the page cannot be
    fetched, when the menu has no item or when the ranking raises. *)
Theorem run_main_calls tr r tr' :
  (forall selected,
     menu_page = Ok selected ->
     scores_ordered (get_healthy_meals' (fetch_all (collect_items selected)))) ->
  run_main' tr = (r, tr') ->
  attempts tr' = attempts tr \/
  exists selected out k,
    menu_page = Ok selected /\
    top_meals' (fetch_all (collect_items selected)) = Ok out /\
    attempts tr' =
    attempts tr
    ++ firstn k (planned_calls settings title (build_message str_ out)).
Proof. intros _. apply run_main_attempts. Qed.

(** X22.  When the ranking raises, because a kept record has no serving
    size or zero calories, [main] raises the same exception and no
    sender is called. *)
Theorem ranking_failure_blocks_notification selected (e : exn) tr :
  menu_page = Ok selected ->
  collect_items selected <> [] ->
  top_meals' (fetch_all (collect_items selected)) = Raise e ->
  exists tr',
    run_main' tr = (Raise e, tr') /\ attempts tr' = attempts tr.
Proof.
  intros Hm Hc Ht. rewrite run_main_eq, Hm. cbv zeta.
  destruct (collect_items selected) as [|it items]; [congruence|].
  rewrite Ht. eexists. split; [reflexivity|]. now rewrite !attempts_printed.
Qed.

(** X23.  A menu page on which no element has a button makes [main]
    raise RuntimeError right after its first print: no nutrition is
    ranked and no sender is called. *)
Theorem empty_menu_aborts selected tr :
  menu_page = Ok selected ->
  (forall el, In el selected -> button_text el = None) ->
  run_main float_of_str str_lower str_ MAX_CALORIES MIN_GRAMS_PROTEIN
    settings respond menu_page fetch_all title tr
  = (Raise RuntimeError, tr ++ [Printed "Starting job..."]).
Proof.
  intros Hm Hb. apply collect_items_nil in Hb.
  rewrite run_main_eq, Hm. cbv zeta. now rewrite Hb.
Qed.

(** X24.  A run in which the menu has items, no kept record has a NaN
    score, the ranking returns, the methods are known and the calls go
    through returns, and the calls made are exactly those planned for the
    title and the message of the ranked meals. *)
Theorem complete_run selected out tr :
  menu_page = Ok selected ->
  collect_items selected <> [] ->
  scores_ordered (get_healthy_meals' (fetch_all (collect_items selected))) ->
  top_meals' (fetch_all (collect_items selected)) = Ok out ->
  Forall known_method (NOTIFY_METHODS settings) ->
  (forall t, respond t = Ok tt) ->
  exists tr',
    run_main' tr = (Ok tt, tr') /\
    attempts tr' =
    attempts tr ++ planned_calls settings title (build_message str_ out).
Proof.
  intros Hm Hc _ Ht Hk Hr. rewrite run_main_eq, Hm. cbv zeta.
  destruct (collect_items selected) as [|it items]; [congruence|].
  rewrite Ht. unfold notify.
  match goal with
  | |- context [notify_each settings respond ?ms ?t ?m ?tr3] =>
      destruct (notify_each_ok settings respond ms t m tr3 Hk Hr)
        as (tr4 & Hn & Ha)
  end.
  rewrite Hn. eexists. split; [reflexivity|].
  now rewrite attempts_printed, Ha, !attempts_printed.
Qed.

(** X25.  When no record is kept, whatever is sent carries the title and
    the message that no option met the criteria. *)
Theorem nothing_kept_message selected tr r tr' ev :
  menu_page = Ok selected ->
  get_healthy_meals' (fetch_all (collect_items selected)) = [] ->
  run_main' tr = (r, tr') ->
  In ev (attempts tr') ->
  In ev (attempts tr) \/
  (sent_title ev = title /\ sent_text ev = no_options_message).
Proof.
  intros Hm Hg H Hev.
  destruct (run_main_attempts tr r tr' H)
    as [E|(selected' & out & k & Hm' & Ht & Ha)].
  - left. now rewrite <- E.
  - assert (selected' = selected) by congruence. subst selected'.
    unfold top_meals in Ht. rewrite Hg in Ht. cbn in Ht.
    injection Ht as <-.
    rewrite Ha in Hev. apply in_app_or in Hev. destruct Hev as [Hev|Hev].
    + now left.
    + right. apply In_firstn in Hev.
      now apply planned_calls_content in Hev.
Qed.

End JobFacts.

(** ** The order of completion *)

Lemma eqb_same (x y k : float) :
  PrimFloat.eqb x k = true -> PrimFloat.eqb y k = true ->
  PrimFloat.eqb x y = true.
Proof.
  intros Hx Hy.
  destruct (FloatOrder.eqb_true_not_nan _ _ Hx) as [Nx Nk].
  destruct (FloatOrder.eqb_true_not_nan _ _ Hy) as [Ny _].
  revert Hx Hy. rewrite !eqb_spec. unfold SFeqb.
  rewrite !FloatOrder.compare_not_nan by assumption.
  intros Hx Hy.
  rewrite (FloatOrder.lex3_eq_eq _ _ (rank3 (Prim2SF k))).
  - reflexivity.
  - destruct (lex3 (rank3 (Prim2SF x)) _); congruence.
  - destruct (lex3 (rank3 (Prim2SF y)) _); congruence.
Qed.

Lemma Permutation_filter {A : Type} (f : A -> bool) (l l' : list A) :
  Permutation l l' -> Permutation (filter f l) (filter f l').
Proof.
  induction 1 as [|x l l' _ IH|x y l|l l' l'' _ IH1 _ IH2]; cbn.
  - constructor.
  - destruct (f x); [now constructor|exact IH].
  - destruct (f x), (f y); try reflexivity. apply perm_swap.
  - now transitivity (filter f l').
Qed.

Lemma Permutation_short {A : Type} (l l' : list A) :
  Permutation l l' -> (List.length l <= 1)%nat -> l = l'.
Proof.
  intros P L. destruct l as [|x [|y l]]; cbn in L; try lia.
  - symmetry. now apply Permutation_nil.
  - symmetry. now apply Permutation_length_1_inv.
Qed.

Lemma distinct_scores_filter (l : list NutritionRecord) (k : float) :
  distinct_scores l -> (List.length (filter (score_is k) l) <= 1)%nat.
Proof.
  induction 1 as [|a l Ha _ IH]; cbn; [lia|].
  destruct (score_is k a) eqn:Ka; [|exact IH].
  assert (E : filter (score_is k) l = []).
  { destruct (filter (score_is k) l) as [|b l'] eqn:F; [reflexivity|].
    assert (Hb : In b (filter (score_is k) l)) by (rewrite F; now left).
    apply filter_In in Hb. destruct Hb as [Hb Kb].
    rewrite Forall_forall in Ha. specialize (Ha b Hb).
    unfold score_is in Ka, Kb.
    destruct (score a) as [sa|] eqn:Sa; [|discriminate].
    destruct (score b) as [sb|] eqn:Sb; [|discriminate].
    specialize (Ha sa sb eq_refl eq_refl).
    rewrite (eqb_same sa sb k Ka Kb) in Ha. discriminate. }
  rewrite E. cbn. lia.
Qed.

Lemma combine_keyed (meals : list NutritionRecord) keys :
  Forall2 (fun r k => score r = Ok k) meals keys ->
  combine keys meals = map keyed meals.
Proof.
  induction 1 as [|r k meals keys H _ IH]; cbn; [reflexivity|].
  unfold keyed at 1. now rewrite H, IH.
Qed.

Section CompletionOrder.

Variable float_of_str : string -> option float.
Variable str_lower : string -> string.
Variable MAX_CALORIES : Z.
Variable MIN_GRAMS_PROTEIN : Z.

Local Abbreviation float_' := (float_ float_of_str).
Local Abbreviation normalize_item' := (normalize_item float_of_str str_lower).
Local Abbreviation get_healthy_meals' :=
  (get_healthy_meals float_of_str str_lower MAX_CALORIES MIN_GRAMS_PROTEIN).
Local Abbreviation top_meals' :=
  (top_meals float_of_str str_lower MAX_CALORIES MIN_GRAMS_PROTEIN).

Lemma get_healthy_meals_perm completed completed' :
  Permutation completed completed' ->
  Permutation (get_healthy_meals' completed) (get_healthy_meals' completed').
Proof.
  intros P. rewrite !get_healthy_meals_flat_map.
  now apply Permutation_flat_map.
Qed.

Lemma sorted_by_score_perm_eq meals meals' ranked :
  Permutation meals meals' ->
  sorted_by_score meals = Ok ranked ->
  scores_ordered meals -> distinct_scores meals ->
  sorted_by_score meals' = Ok ranked.
Proof.
  intros P H Ho Hd.
  apply sorted_by_score_inv in H. destruct H as (keys & E & ->).
  apply mapM_Forall2 in E.
  assert (Ok' : forall r, In r meals' -> is_ok (score r) = true).
  { intros r Hr. apply (Permutation_in _ (Permutation_sym P)) in Hr.
    clear - E Hr. induction E as [|x k meals keys H _ IH]; [contradiction|].
    destruct Hr as [<-|Hr]; [now rewrite H|now apply IH]. }
  apply mapM_ok in Ok'. destruct Ok' as [keys' E'].
  unfold sorted_by_score. rewrite E'. cbn [Py.bind]. do 2 f_equal.
  apply mapM_Forall2 in E'.
  pose proof (scored_pairs_ordered _ _ Ho E) as O.
  rewrite (combine_keyed _ _ E) in *. rewrite (combine_keyed _ _ E').
  assert (PK : Permutation (map keyed meals) (map keyed meals'))
    by now apply Permutation_map.
  symmetry. apply stable_sort_is_sort_desc.
  - apply Forall_forall. intros x Hx. rewrite Forall_forall in O. apply O.
    now apply (Permutation_in _ (Permutation_sym PK)).
  - rewrite sort_desc_perm. exact PK.
  - now apply sort_desc_sorted.
  - intros k. rewrite sort_desc_filter by exact O.
    apply Permutation_short; [now apply Permutation_filter|].
    pose proof (distinct_scores_filter meals k Hd) as L.
    assert (K : Forall (fun p => score (snd p) = Ok (fst p)) (map keyed meals)).
    { rewrite <- (combine_keyed _ _ E). now apply combine_keys. }
    pose proof (filter_scored k (map keyed meals) K) as F.
    rewrite <- (combine_keyed _ _ E) in F at 1.
    destruct (combine_keys _ _ E) as [M _]. rewrite M in F.
    rewrite F, length_map in L. exact L.
Qed.

(** X26.  The order in which the fetches complete does not change the
    ranking when the kept records have scores that differ from one
    another and are not NaN: any other order of completion of the same
    fetches gives the same ranked output. *)
Theorem completion_order_irrelevant completed completed' out :
  Permutation completed completed' ->
  top_meals' completed = Ok out ->
  scores_ordered (get_healthy_meals' completed) ->
  distinct_scores (get_healthy_meals' completed) ->
  top_meals' completed' = Ok out.
Proof.
  intros P H Ho Hd. apply top_meals_firstn in H.
  destruct H as (ranked & E & ->).
  unfold top_meals.
  rewrite (sorted_by_score_perm_eq _ _ ranked
             (get_healthy_meals_perm _ _ P) E Ho Hd).
  reflexivity.
Qed.

(** X27.  A numeric field of the record [normalize_item] returns holds
    the float its entry parses to: calories for "calories", protein_g
    for "proteinContent", fat_g for "fatContent", carbs_g for
    "carbohydrateContent" and serving_size for "servingSize". *)
Theorem fields_hold_parsed_values raw name0 id0 r d key field e v f :
  normalize_item' raw name0 id0 = Ok r ->
  nutrition_details_of raw id0 = Ok (VDict d) ->
  In (key, field) numeric_fields ->
  dict_get d key = Some (VDict e) ->
  dict_get e "value" = Some v ->
  ne_empty_str v = true ->
  float_' v = Ok f ->
  field r = Some f.
Proof.
  intros H Hd Hk He Hv Hne Hf.
  destruct (normalize_item_fields _ _ _ _ _ _ H)
    as (d' & Hd' & _ & N1 & N2 & N3 & N4 & N5 & _).
  assert (d' = d) by congruence. subst d'.
  assert (N : _num (VDict d) key float_' = Ok (Some f)).
  { unfold _num. cbn [get]. rewrite He. cbn [Py.bind get]. rewrite Hv.
    cbn [Py.bind]. rewrite Hne, Hf. reflexivity. }
  unfold numeric_fields in Hk. cbn in Hk.
  destruct Hk as [Hk|[Hk|[Hk|[Hk|[Hk|[]]]]]]; injection Hk as <- <-;
    congruence.
Qed.

End CompletionOrder.

(** ** The pipeline on sample menus *)

Import Sample.

Example scenario_ranking : Sample.top_meals menu_scenario = Ok [chicken_record].
Proof. vm_compute. reflexivity. Qed.

Example ties_ranking :
  Sample.top_meals menu_ties = Ok [tofu_record; salmon_record; chicken_record].
Proof. vm_compute. reflexivity. Qed.

Example ties_scores :
  mapM score [chicken_record; tofu_record; salmon_record]
  = Ok [48%float; 96%float; 96%float].
Proof. vm_compute. reflexivity. Qed.

Example soup_dropped :
  Sample.get_healthy_meals menu_soup = [chicken_record; tofu_record].
Proof. vm_compute. reflexivity. Qed.

Example wrap_ranking : Sample.top_meals menu_wrap = Raise TypeError.
Proof. vm_compute. reflexivity. Qed.

Example salad_normalized :
  Sample.normalize_item salad "Salad" "20" = Ok salad_record.
Proof. vm_compute. reflexivity. Qed.

Example curry_normalized :
  Sample.normalize_item curry "Curry" "22" = Ok curry_record.
Proof. vm_compute. reflexivity. Qed.

Example mystery_scores :
  mapM score [chicken_record; mystery_record; tofu_record]
  = Ok [48%float; nan; 96%float].
Proof. vm_compute. reflexivity. Qed.

(** ** The claims on sample menus *)

(** C1, as stated, fails: on the record of a payload without calories
    [allowed] raises TypeError instead of returning false. *)
Lemma allowed_raises_on_absent_calories :
  Sample.normalize_item salad "Salad" "20" = Ok salad_record /\
  calories salad_record = None /\
  Sample.allowed salad_record = Raise TypeError /\
  Sample.allowed salad_record <> Ok false.
Proof.
  split; [vm_compute; reflexivity|].
  split; [reflexivity|].
  split; [reflexivity|discriminate].
Qed.

Lemma allowed_absent_field_witness :
  (calories salad_record = None \/ protein_g salad_record = None) /\
  Sample.allowed salad_record <> Ok true /\
  ~ In salad_record
      (Sample.get_healthy_meals
         [fetched "11" "Chicken" chicken; fetched "20" "Salad" salad]) /\
  Sample.get_healthy_meals
    [fetched "11" "Chicken" chicken; fetched "20" "Salad" salad]
  = Sample.get_healthy_meals [fetched "11" "Chicken" chicken].
Proof.
  assert (H : calories salad_record = None \/ protein_g salad_record = None)
    by (left; reflexivity).
  destruct (allowed_absent_field Sample.float_of_str Sample.str_lower
              Sample.MAX_CALORIES Sample.MIN_GRAMS_PROTEIN salad_record H)
    as (N & _ & _ & K & D).
  split; [exact H|]. split; [exact N|]. split; [apply K|].
  apply (D salad (menu_item "20" "Salad") [fetched "11" "Chicken" chicken] []).
  vm_compute. reflexivity.
Defined.

(** C2 fails on the code.  A record with calories 0 and enough protein
    passes the filter, and computing its score in the sort of [main]
    divides by zero: the ranking raises ZeroDivisionError. *)
Theorem zero_calories_aborts :
  Sample.get_healthy_meals menu_broth = [chicken_record; broth_record] /\
  score broth_record = Raise ZeroDivisionError /\
  Sample.top_meals menu_broth = Raise ZeroDivisionError.
Proof.
  split; [vm_compute; reflexivity|].
  split; vm_compute; reflexivity.
Qed.

(** C3, as stated, fails: a record whose calories are NaN passes the
    filter and is ranked, and NaN is not at most MAX_CALORIES. *)
Lemma nan_calories_ranked :
  Sample.top_meals menu_mystery
  = Ok [chicken_record; mystery_record; tofu_record] /\
  In mystery_record [chicken_record; mystery_record; tofu_record] /\
  calories mystery_record = Some nan /\
  gt_int nan Sample.MAX_CALORIES = false /\
  le_int nan Sample.MAX_CALORIES = false.
Proof.
  split; [vm_compute; reflexivity|].
  split; [right; now left|].
  split; [reflexivity|].
  split; vm_compute; reflexivity.
Qed.

Lemma ranked_within_thresholds_witness :
  Sample.top_meals menu_scenario = Ok [chicken_record] /\
  exists c p,
    calories chicken_record = Some c /\ protein_g chicken_record = Some p /\
    gt_int c Sample.MAX_CALORIES = false /\
    lt_int p Sample.MIN_GRAMS_PROTEIN = false /\
    (is_nan c = false -> le_int c Sample.MAX_CALORIES = true) /\
    (is_nan p = false -> ge_int p Sample.MIN_GRAMS_PROTEIN = true).
Proof.
  assert (H : Sample.top_meals menu_scenario = Ok [chicken_record])
    by (vm_compute; reflexivity).
  split; [exact H|].
  apply (ranked_within_thresholds Sample.float_of_str Sample.str_lower
           Sample.MAX_CALORIES Sample.MIN_GRAMS_PROTEIN
           menu_scenario [chicken_record] chicken_record H).
  left. reflexivity.
Defined.

(** C4, as stated, fails: with a NaN score among the survivors the ranked
    output is not in non-increasing score order.  Here no comparison with
    NaN is true, the sort moves nothing, and the dish of score 48 stays
    ahead of the dish of score 96. *)
Lemma nan_score_unsorted :
  Sample.top_meals menu_mystery
  = Ok [chicken_record; mystery_record; tofu_record] /\
  score chicken_record = Ok 48%float /\
  score tofu_record = Ok 96%float /\
  PrimFloat.ltb 48 96 = true /\
  ~ StronglySorted score_ge [chicken_record; mystery_record; tofu_record].
Proof.
  split; [vm_compute; reflexivity|].
  split; [vm_compute; reflexivity|].
  split; [vm_compute; reflexivity|].
  split; [reflexivity|].
  intros H.
  assert (N : is_nan nan = false).
  { apply (sorted_scores_not_nan _ mystery_record nan H).
    - cbn. lia.
    - right. now left.
    - vm_compute. reflexivity. }
  vm_compute in N. discriminate.
Qed.

Lemma ties_scores_ordered :
  scores_ordered (Sample.get_healthy_meals menu_ties).
Proof.
  assert (E : Sample.get_healthy_meals menu_ties
              = [chicken_record; tofu_record; salmon_record])
    by (vm_compute; reflexivity).
  rewrite E. intros r s [<-|[<-|[<-|[]]]] Hs; vm_compute in Hs;
    injection Hs as <-; reflexivity.
Defined.

Lemma ranking_shape_witness :
  Sample.top_meals menu_ties
  = Ok [tofu_record; salmon_record; chicken_record] /\
  (List.length [tofu_record; salmon_record; chicken_record] <= TOP_N)%nat /\
  StronglySorted score_ge [tofu_record; salmon_record; chicken_record] /\
  Permutation [tofu_record; salmon_record; chicken_record]
    (Sample.get_healthy_meals menu_ties).
Proof.
  assert (H : Sample.top_meals menu_ties
              = Ok [tofu_record; salmon_record; chicken_record])
    by (vm_compute; reflexivity).
  destruct (ranking_shape Sample.float_of_str Sample.str_lower
              Sample.MAX_CALORIES Sample.MIN_GRAMS_PROTEIN menu_ties _ H)
    as (L & S & P).
  split; [exact H|]. split; [exact L|]. split.
  - apply S. exact ties_scores_ordered.
  - apply P. vm_compute. lia.
Defined.

Lemma absent_serving_size_aborts_witness :
  In wrap_record (Sample.get_healthy_meals menu_wrap) /\
  serving_size wrap_record = None /\
  score wrap_record = Raise TypeError /\
  raises (Sample.top_meals menu_wrap).
Proof.
  assert (Hin : In wrap_record (Sample.get_healthy_meals menu_wrap))
    by (vm_compute; auto).
  destruct (absent_serving_size_aborts Sample.float_of_str Sample.str_lower
              Sample.MAX_CALORIES Sample.MIN_GRAMS_PROTEIN
              menu_wrap wrap_record Hin eq_refl)
    as (_ & T & R).
  split; [exact Hin|]. split; [reflexivity|]. split; [|exact R].
  apply (T 400%float); reflexivity.
Defined.

(** C6, as stated, fails: [_num] raises AttributeError when the entry of
    the key is null, and normalization of the payload fails as a whole;
    it raises OverflowError when the value is an integer too large for a
    float. *)
Lemma num_raises_on_null_entry :
  _num (VDict stew_nutrition) "calories" (float_ Sample.float_of_str)
  = Raise AttributeError /\
  Sample.normalize_item stew "Stew" "21" = Raise AttributeError /\
  _num (VDict feast_nutrition) "calories" (float_ Sample.float_of_str)
  = Raise OverflowError.
Proof.
  split; [reflexivity|]. split; vm_compute; reflexivity.
Qed.

Lemma num_field_tolerant_witness :
  readable_entry curry_nutrition "calories" /\
  _num (VDict curry_nutrition) "calories" (float_ Sample.float_of_str)
  = Ok None /\
  exists r,
    Sample.normalize_item curry "Curry" "22" = Ok r /\
    calories r = None /\
    _num (VDict curry_nutrition) "proteinContent" (float_ Sample.float_of_str)
    = Ok (protein_g r).
Proof.
  assert (R : forall key, In key numeric_keys ->
                readable_entry curry_nutrition key).
  { intros key [<-|[<-|[<-|[<-|[<-|[]]]]]]; cbn; trivial;
      intros n; discriminate. }
  assert (R1 : readable_entry curry_nutrition "calories")
    by (apply R; left; reflexivity).
  split; [exact R1|].
  destruct (num_field_tolerant Sample.float_of_str Sample.str_lower
              curry_nutrition "calories" R1)
    as (_ & _ & H & N).
  split.
  - destruct (H _ eq_refl) as [_ P].
    apply (P (VStr "n/a")); [reflexivity|left; reflexivity].
  - destruct (N curry "Curry" "22" "chickpeas"
                [("value", VStr "300"); ("unit", VStr "g")]
                eq_refl eq_refl R eq_refl)
      as (r & Hn & Hf & Hk & _).
    exists r. split; [exact Hn|]. split.
    + apply (Hf calories [("value", VStr "n/a"); ("unit", VStr "kcal")]
               (VStr "n/a")).
      * left. reflexivity.
      * reflexivity.
      * reflexivity.
      * left. reflexivity.
    + apply (Hk "proteinContent" protein_g). right. left. reflexivity.
Defined.

Lemma missing_serving_size_dropped_witness :
  has_serving_size soup "18" = false /\
  raises (Sample.normalize_item soup "Soup" "18") /\
  Sample.get_healthy_meals menu_soup
  = Sample.get_healthy_meals
      [fetched "11" "Chicken" chicken; fetched "13" "Tofu" tofu].
Proof.
  assert (H : has_serving_size soup "18" = false) by reflexivity.
  destruct (missing_serving_size_dropped Sample.float_of_str Sample.str_lower
              Sample.MAX_CALORIES Sample.MIN_GRAMS_PROTEIN soup "18" H)
    as [N D].
  split; [exact H|]. split; [apply N|].
  apply (D (menu_item "18" "Soup") [fetched "11" "Chicken" chicken]
           [fetched "13" "Tofu" tofu]).
  reflexivity.
Defined.

Lemma ranking_stable_witness :
  Sample.top_meals menu_ties
  = Ok [tofu_record; salmon_record; chicken_record] /\
  exists m,
    filter (score_is 96) [tofu_record; salmon_record; chicken_record]
    = firstn m (filter (score_is 96) (Sample.get_healthy_meals menu_ties)).
Proof.
  assert (H : Sample.top_meals menu_ties
              = Ok [tofu_record; salmon_record; chicken_record])
    by (vm_compute; reflexivity).
  split; [exact H|].
  apply (ranking_stable Sample.float_of_str Sample.str_lower
           Sample.MAX_CALORIES Sample.MIN_GRAMS_PROTEIN menu_ties _ 96 H).
  exact ties_scores_ordered.
Defined.

(** C8, as stated, fails: with a NaN score among the survivors the sort
    does not keep the order of equal scores.  Tofu is collected first
    and Salmon third, both have the score 96, and Salmon is ranked ahead
    of Tofu. *)
Lemma nan_breaks_ties :
  mapM score (Sample.get_healthy_meals Demo.menu_seven)
  = Ok [96%float; 48%float; 96%float; nan; 192%float; nan; 384%float] /\
  Sample.top_meals Demo.menu_seven = Ok Demo.top_seven /\
  filter (score_is 96) (Sample.get_healthy_meals Demo.menu_seven)
  = [tofu_record; salmon_record] /\
  filter (score_is 96) Demo.top_seven = [salmon_record; tofu_record] /\
  ~ exists m,
      filter (score_is 96) Demo.top_seven
      = firstn m (filter (score_is 96)
                    (Sample.get_healthy_meals Demo.menu_seven)).
Proof.
  assert (K : filter (score_is 96) (Sample.get_healthy_meals Demo.menu_seven)
              = [tofu_record; salmon_record]) by (vm_compute; reflexivity).
  assert (T : filter (score_is 96) Demo.top_seven
              = [salmon_record; tofu_record]) by (vm_compute; reflexivity).
  split; [vm_compute; reflexivity|].
  split; [vm_compute; reflexivity|].
  split; [exact K|]. split; [exact T|].
  rewrite K, T. intros [[|[|[|m]]] H]; cbn in H; discriminate H.
Qed.

Example ties_keep_order :
  filter (score_is 96) [tofu_record; salmon_record; chicken_record]
  = [tofu_record; salmon_record] /\
  filter (score_is 96) (Sample.get_healthy_meals menu_ties)
  = [tofu_record; salmon_record].
Proof. split; vm_compute; reflexivity. Qed.

Lemma dairy_free_iff_witness :
  Sample.normalize_item chicken "Chicken" "11" = Ok chicken_record /\
  (dairy_free chicken_record = true <->
   forall x,
     In x ["milk"; "cheese"; "butter"; "cream"; "whey"; "casein"] ->
     ~ occurs_in x (ingredients chicken_record)).
Proof.
  assert (H : Sample.normalize_item chicken "Chicken" "11" = Ok chicken_record)
    by (vm_compute; reflexivity).
  split; [exact H|].
  apply (dairy_free_iff Sample.float_of_str Sample.str_lower
           chicken "Chicken" "11" chicken_record H).
Defined.

Example butter_is_dairy :
  dairy_free chicken_record = false /\
  occurs_in "butter" (ingredients chicken_record).
Proof.
  split; [reflexivity|].
  now exists "chicken breast, olive oil, "%string, ""%string.
Qed.

(** ** The further properties on sample menus *)

Example six_ranking : Sample.top_meals Demo.menu_six = Ok Demo.top_six.
Proof. vm_compute. reflexivity. Qed.

Example six_kept : Sample.get_healthy_meals Demo.menu_six = Demo.kept_six.
Proof. vm_compute. reflexivity. Qed.

Example six_scores :
  mapM score Demo.kept_six
  = Ok [96%float; 48%float; 192%float; 24%float; 12%float; 6%float].
Proof. vm_compute. reflexivity. Qed.

Lemma six_scores_ordered :
  scores_ordered (Sample.get_healthy_meals Demo.menu_six).
Proof.
  assert (E : Sample.get_healthy_meals Demo.menu_six = Demo.kept_six)
    by (vm_compute; reflexivity).
  rewrite E. intros r s [<-|[<-|[<-|[<-|[<-|[<-|[]]]]]]] Hs;
    vm_compute in Hs; injection Hs as <-; reflexivity.
Defined.

Lemma ranking_length_witness :
  Sample.top_meals Demo.menu_six = Ok Demo.top_six /\
  List.length Demo.top_six
  = Nat.min TOP_N (List.length (Sample.get_healthy_meals Demo.menu_six)).
Proof.
  assert (H : Sample.top_meals Demo.menu_six = Ok Demo.top_six)
    by (vm_compute; reflexivity).
  split; [exact H|].
  apply (ranking_length Sample.float_of_str Sample.str_lower
           Sample.MAX_CALORIES Sample.MIN_GRAMS_PROTEIN _ _ H).
Defined.

Lemma ranking_takes_the_best_witness :
  exists rest,
    Permutation (Demo.top_six ++ rest) (Sample.get_healthy_meals Demo.menu_six) /\
    forall a b, In a Demo.top_six -> In b rest -> score_ge a b.
Proof.
  assert (H : Sample.top_meals Demo.menu_six = Ok Demo.top_six)
    by (vm_compute; reflexivity).
  apply (ranking_takes_the_best Sample.float_of_str Sample.str_lower
           Sample.MAX_CALORIES Sample.MIN_GRAMS_PROTEIN _ _ H).
  exact six_scores_ordered.
Defined.

Lemma all_fetches_failed_witness :
  Sample.get_healthy_meals Demo.failed_fetches = [] /\
  Sample.top_meals Demo.failed_fetches = Ok [].
Proof.
  apply (all_fetches_failed Sample.float_of_str Sample.str_lower
           Sample.MAX_CALORIES Sample.MIN_GRAMS_PROTEIN Demo.failed_fetches).
  intros done [<-|[<-|[]]]; exists RequestError; reflexivity.
Defined.

Lemma kept_record_of_item_witness :
  In chicken_record (Sample.get_healthy_meals menu_scenario) /\
  exists item raw,
    In (item, Ok raw) menu_scenario /\
    id chicken_record = item_id item /\ name chicken_record = item_name item.
Proof.
  assert (H : In chicken_record (Sample.get_healthy_meals menu_scenario))
    by (vm_compute; auto).
  split; [exact H|].
  apply (kept_record_of_item Sample.float_of_str Sample.str_lower
           Sample.MAX_CALORIES Sample.MIN_GRAMS_PROTEIN _ _ H).
Defined.

Lemma tighter_thresholds_filter_witness :
  Demo.meals_under 400 30 menu_ties
  = filter (passes 400 30) (Demo.meals_under 850 25 menu_ties).
Proof.
  apply (tighter_thresholds_filter Sample.float_of_str Sample.str_lower
           400 850 30 25 menu_ties); lia.
Defined.

Example tighter_thresholds_keep_tofu :
  Demo.meals_under 400 30 menu_ties = [tofu_record].
Proof. vm_compute. reflexivity. Qed.

Lemma allowed_inclusive_witness :
  Sample.allowed Demo.borderline = Ok true <->
  le_int 850 850 = true /\ ge_int 25 25 = true.
Proof.
  apply (allowed_inclusive 850 25 Demo.borderline 850 25); reflexivity.
Defined.

Example borderline_allowed : Sample.allowed Demo.borderline = Ok true.
Proof. vm_compute. reflexivity. Qed.

Lemma unknown_item_dropped_witness :
  Sample.normalize_item (VDict Demo.other_item) "Chicken" "11"
  = Raise KeyError.
Proof.
  apply (unknown_item_dropped Sample.float_of_str Sample.str_lower
           Demo.other_item "11").
  right. exists [("99", VDict [])]. split; reflexivity.
Defined.

Lemma non_object_payload_dropped_witness :
  is_dict Demo.refused = false /\
  Sample.normalize_item Demo.refused "Chicken" "11" = Raise TypeError.
Proof.
  split; [reflexivity|].
  apply (non_object_payload_dropped Sample.float_of_str Sample.str_lower
           Demo.refused eq_refl).
Defined.

Lemma ranking_ignores_other_fields_witness :
  Sample.allowed chicken_record = Sample.allowed Demo.lean_chicken /\
  score chicken_record = score Demo.lean_chicken.
Proof.
  apply (ranking_ignores_other_fields Sample.MAX_CALORIES
           Sample.MIN_GRAMS_PROTEIN chicken_record Demo.lean_chicken);
    reflexivity.
Defined.

Lemma message_lists_every_meal_witness :
  exists i,
    (1 <= i <= List.length [tofu_record; salmon_record])%nat /\
    forall line, In line (item_lines Demo.str_ i salmon_record) ->
      occurs_in line (build_message Demo.str_ [tofu_record; salmon_record]).
Proof.
  apply (message_lists_every_meal Demo.str_ [tofu_record; salmon_record]
           salmon_record).
  right. now left.
Defined.

Example salmon_lines :
  item_lines Demo.str_ 2 salmon_record
  = ["2. Salmon (400.0 oz)"; "   Calories: 500.0"; "   Protein: 60.0g";
     "   Carbs: Noneg"; "   Fat: Noneg"; ""]%string.
Proof. vm_compute. reflexivity. Qed.

(** ** The job on sample settings *)

Example default_methods : notify_methods_of None = ["email"; "slack"]%string.
Proof. reflexivity. Qed.

Example empty_methods : notify_methods_of (Some "") = [""]%string.
Proof. reflexivity. Qed.

Example spaced_methods :
  notify_methods_of (Some "email, slack") = ["email"; " slack"]%string.
Proof. reflexivity. Qed.

Lemma notify_calls_witness :
  notify Demo.both Demo.mail_down Demo.title "Lunch" []
  = (Raise RequestError, [Demo.email_call "Lunch"]) /\
  List.length (planned_calls Demo.both Demo.title "Lunch") = 2%nat /\
  (exists k,
     attempts [Demo.email_call "Lunch"]
     = attempts [] ++ firstn k (planned_calls Demo.both Demo.title "Lunch")) /\
  (exists new p ev,
     [Demo.email_call "Lunch"] = [] ++ new /\ new = p ++ [ev] /\
     is_attempt ev = true /\
     Demo.mail_down [Demo.email_call "Lunch"] = Raise RequestError).
Proof.
  assert (H : notify Demo.both Demo.mail_down Demo.title "Lunch" []
              = (Raise RequestError, [Demo.email_call "Lunch"]))
    by (vm_compute; reflexivity).
  split; [exact H|]. split; [reflexivity|].
  destruct (notify_calls Demo.both Demo.mail_down Demo.title "Lunch" [] _ _ H)
    as (P & _ & new & Hnew & _ & Why).
  split; [exact P|].
  destruct (Why RequestError eq_refl) as [(p & ev & Hp & Ha & Hr)|[E _]];
    [|discriminate E].
  exists new, p, ev. auto.
Defined.

Lemma unknown_method_raises_witness :
  exists tr',
    notify Demo.with_sms Demo.all_fine Demo.title "Lunch" []
    = (Raise KeyError, tr') /\
    attempts tr'
    = attempts []
      ++ flat_map (planned_call Demo.with_sms Demo.title "Lunch") ["email"%string].
Proof.
  destruct (unknown_method_raises Demo.with_sms Demo.all_fine
              ["email"%string] "sms" ["slack"%string] Demo.title "Lunch" [])
    as (e & tr' & Hn & _ & _ & Hall).
  - reflexivity.
  - constructor; [left; reflexivity|constructor].
  - intros [H|H]; discriminate H.
  - destruct (Hall (fun t => eq_refl)) as [-> Ha].
    exists tr'. split; [exact Hn|exact Ha].
Defined.

Example unknown_method_after_failure :
  notify Demo.with_sms Demo.mail_down Demo.title "Lunch" []
  = (Raise RequestError, [Demo.email_call "Lunch"]).
Proof. vm_compute. reflexivity. Qed.

Lemma failed_call_stops_witness :
  notify Demo.both Demo.mail_down Demo.title "Lunch" []
  = (Raise RequestError, [] ++ [Demo.email_call "Lunch"]).
Proof.
  apply (failed_call_stops Demo.both Demo.mail_down "email"
           ["slack"%string] Demo.title "Lunch" (Demo.email_call "Lunch")
           RequestError []); reflexivity.
Defined.

Lemma notify_never_silent_witness :
  (List.length (@nil event)
   < List.length (snd (notify Demo.both Demo.all_fine Demo.title "Lunch" [])))%nat.
Proof.
  apply (notify_never_silent Demo.both Demo.all_fine None Demo.title "Lunch"
           [] _).
  - reflexivity.
  - vm_compute. reflexivity.
Defined.

Example switched_off_raises :
  notify Demo.switched_off Demo.all_fine Demo.title "Lunch" []
  = (Raise KeyError, []).
Proof. vm_compute. reflexivity. Qed.

Lemma page_scores_ordered :
  scores_ordered
    (Sample.get_healthy_meals (Demo.fetch_all (collect_items Demo.page))).
Proof.
  assert (E : Sample.get_healthy_meals
                (Demo.fetch_all (collect_items Demo.page))
              = [chicken_record; tofu_record; salmon_record])
    by (vm_compute; reflexivity).
  rewrite E. intros r s [<-|[<-|[<-|[]]]] Hs; vm_compute in Hs;
    injection Hs as <-; reflexivity.
Defined.

Example page_items :
  extract_items Demo.str_ Demo.page []
  = (Ok [Sample.menu_item "11" "Chicken"; Sample.menu_item "13" "Tofu";
         Sample.menu_item "14" "Salmon"],
     [Printed "Found 3 items"]).
Proof. vm_compute. reflexivity. Qed.

Lemma run_main_calls_witness :
  attempts (snd (Demo.run_main Demo.both Demo.mail_down (Ok Demo.page) []))
  = attempts [] \/
  exists selected out k,
    Ok Demo.page = Ok selected /\
    Sample.top_meals (Demo.fetch_all (collect_items selected)) = Ok out /\
    attempts (snd (Demo.run_main Demo.both Demo.mail_down (Ok Demo.page) []))
    = attempts []
      ++ firstn k (planned_calls Demo.both Demo.title
                     (build_message Demo.str_ out)).
Proof.
  apply (run_main_calls Sample.float_of_str Sample.str_lower Demo.str_
           Sample.MAX_CALORIES Sample.MIN_GRAMS_PROTEIN Demo.both
           Demo.mail_down (Ok Demo.page) Demo.fetch_all Demo.title []
           (fst (Demo.run_main Demo.both Demo.mail_down (Ok Demo.page) []))).
  - intros selected [= <-]. exact page_scores_ordered.
  - vm_compute. reflexivity.
Defined.

Lemma ranking_failure_blocks_notification_witness :
  Sample.top_meals (Demo.fetch_all (collect_items Demo.page_with_broth))
  = Raise ZeroDivisionError /\
  exists tr',
    Demo.run_main Demo.both Demo.all_fine (Ok Demo.page_with_broth) []
    = (Raise ZeroDivisionError, tr') /\
    attempts tr' = attempts [].
Proof.
  assert (H : Sample.top_meals
                (Demo.fetch_all (collect_items Demo.page_with_broth))
              = Raise ZeroDivisionError) by (vm_compute; reflexivity).
  split; [exact H|].
  apply (ranking_failure_blocks_notification Sample.float_of_str
           Sample.str_lower Demo.str_ Sample.MAX_CALORIES
           Sample.MIN_GRAMS_PROTEIN Demo.both Demo.all_fine
           (Ok Demo.page_with_broth) Demo.fetch_all Demo.title
           Demo.page_with_broth ZeroDivisionError []).
  - reflexivity.
  - discriminate.
  - exact H.
Defined.

Lemma empty_menu_aborts_witness :
  Demo.run_main Demo.both Demo.all_fine (Ok Demo.page_without_dish) []
  = (Raise RuntimeError, [] ++ [Printed "Starting job..."]).
Proof.
  apply (empty_menu_aborts Sample.float_of_str Sample.str_lower Demo.str_
           Sample.MAX_CALORIES Sample.MIN_GRAMS_PROTEIN Demo.both
           Demo.all_fine (Ok Demo.page_without_dish) Demo.fetch_all
           Demo.title Demo.page_without_dish []).
  - reflexivity.
  - intros el [<-|[<-|[]]]; reflexivity.
Defined.

Lemma complete_run_witness :
  exists tr',
    Demo.run_main Demo.both Demo.all_fine (Ok Demo.page) [] = (Ok tt, tr') /\
    attempts tr'
    = attempts []
      ++ planned_calls Demo.both Demo.title
           (build_message Demo.str_
              [tofu_record; salmon_record; chicken_record]).
Proof.
  apply (complete_run Sample.float_of_str Sample.str_lower Demo.str_
           Sample.MAX_CALORIES Sample.MIN_GRAMS_PROTEIN Demo.both
           Demo.all_fine (Ok Demo.page) Demo.fetch_all Demo.title
           Demo.page [tofu_record; salmon_record; chicken_record] []).
  - reflexivity.
  - discriminate.
  - exact page_scores_ordered.
  - vm_compute. reflexivity.
  - constructor; [left; reflexivity|].
    constructor; [right; reflexivity|constructor].
  - intros t. reflexivity.
Defined.

Lemma nothing_kept_message_witness :
  In (Demo.email_call no_options_message) (attempts []) \/
  (sent_title (Demo.email_call no_options_message) = Demo.title /\
   sent_text (Demo.email_call no_options_message) = no_options_message).
Proof.
  apply (nothing_kept_message Sample.float_of_str Sample.str_lower Demo.str_
           Sample.MAX_CALORIES Sample.MIN_GRAMS_PROTEIN Demo.both
           Demo.all_fine (Ok Demo.page_with_lasagna) Demo.fetch_all
           Demo.title Demo.page_with_lasagna []
           (fst (Demo.run_main Demo.both Demo.all_fine
                   (Ok Demo.page_with_lasagna) []))
           (snd (Demo.run_main Demo.both Demo.all_fine
                   (Ok Demo.page_with_lasagna) []))).
  - reflexivity.
  - vm_compute. reflexivity.
  - vm_compute. reflexivity.
  - vm_compute. left. reflexivity.
Defined.


Lemma six_distinct_scores :
  distinct_scores (Sample.get_healthy_meals Demo.menu_six).
Proof.
  assert (E : Sample.get_healthy_meals Demo.menu_six = Demo.kept_six)
    by (vm_compute; reflexivity).
  rewrite E. unfold distinct_scores, Demo.kept_six.
  repeat constructor; intros sa sb Ha Hb; vm_compute in Ha, Hb;
    injection Ha as <-; injection Hb as <-; reflexivity.
Defined.

Lemma completion_order_irrelevant_witness :
  Sample.top_meals Demo.menu_six = Ok Demo.top_six /\
  Sample.top_meals (rev Demo.menu_six) = Ok Demo.top_six.
Proof.
  assert (H : Sample.top_meals Demo.menu_six = Ok Demo.top_six)
    by (vm_compute; reflexivity).
  split; [exact H|].
  apply (completion_order_irrelevant Sample.float_of_str Sample.str_lower
           Sample.MAX_CALORIES Sample.MIN_GRAMS_PROTEIN
           Demo.menu_six (rev Demo.menu_six) Demo.top_six).
  - apply Permutation_rev.
  - exact H.
  - exact six_scores_ordered.
  - exact six_distinct_scores.
Defined.

Lemma fields_hold_parsed_values_witness :
  Sample.normalize_item chicken "Chicken" "11" = Ok chicken_record /\
  protein_g chicken_record = Some 40%float.
Proof.
  assert (H : Sample.normalize_item chicken "Chicken" "11" = Ok chicken_record)
    by (vm_compute; reflexivity).
  split; [exact H|].
  apply (fields_hold_parsed_values Sample.float_of_str Sample.str_lower
           chicken "Chicken" "11" chicken_record
           (Sample.nutrition (VStr "500") (VStr "40") (VStr "300"))
           "proteinContent" protein_g
           [("value", VStr "40"); ("unit", VStr "g")] (VStr "40") 40%float H).
  - reflexivity.
  - right. left. reflexivity.
  - reflexivity.
  - reflexivity.
  - reflexivity.
  - vm_compute. reflexivity.
Defined.
